(** * DreamAssemblerXXL: the MultiMC assembler and the packaging GUI helpers

    A shallow embedding of [src/gtnh/assembler/multi_poly.py] (class
    [MMCAssembler]), of the archive path of [src/gtnh/assembler/modrinth.py]
    and of [src/gtnh/gui.py]: the packaging functions ([download_mods],
    [pack_clientpack], [pack_serverpack], [crawl], [handle_pack_extra_files],
    [ArchiveFrame._progress_callback]) and the editable lists
    ([CustomLabelFrame], [HandleFileExclusionFrame], [AddCurseModFrame.add]),
    with the slice of [pathlib], [zipfile] and the [tkinter] list box these
    functions go through. *)

From Stdlib Require Import Ascii String QArith Floats.
From stdpp Require Import base option list sorting strings functions gmap.

Local Open Scope string_scope.
Local Open Scope list_scope.

(** ** pathlib: pure POSIX paths *)

Module pathlib.

(** [str.split("/")]: the pieces between separators, empty ones kept. *)
Fixpoint split (s : string) : list string :=
  match s with
  | EmptyString => [""]
  | String c s' =>
      if Ascii.eqb c "/"%char then "" :: split s'
      else match split s' with
           | [] => [String c ""]
           | piece :: pieces => String c piece :: pieces
           end
  end.

(** ["/".join(parts)]. *)
Definition join (pieces : list string) : string := String.concat "/" pieces.

(** A [PurePosixPath] once parsed: its root (["", "/" or "//"]) and its
    components. *)
Record Path : Type := mkPath { root : string; parts : list string }.

(** [posixpath.splitroot]: one leading slash, or exactly two, is the root. *)
Definition splitroot (p : string) : string * string :=
  match p with
  | String "/"%char (String "/"%char (String "/"%char _ as rest)) => ("/", String "/"%char rest)
  | String "/"%char (String "/"%char rest) => ("//", rest)
  | String "/"%char rest => ("/", rest)
  | _ => ("", p)
  end.

Definition keep_part (x : string) : bool :=
  negb (String.eqb x "") && negb (String.eqb x ".").

(** [Path(s)]: empty and ["."] components are dropped when parsing. *)
Definition PurePath (s : string) : Path :=
  let '(r, rel) := splitroot s in
  {| root := r; parts := List.filter keep_part (split rel) |}.

(** [str(p)]. *)
Definition str (p : Path) : string :=
  match root p, parts p with
  | "", [] => "."
  | r, ps => r +:+ join ps
  end.

(** [p / s]: an absolute right operand replaces the left one. *)
Definition truediv (p : Path) (s : string) : Path :=
  let q := PurePath s in
  if String.eqb (root q) "" then {| root := root p; parts := parts p ++ parts q |}
  else q.

(** [p.name]: the last component, [""] when there is none. *)
Definition name (p : Path) : string := List.last (parts p) "".

(** [posixpath.normpath] on the components of a path: [".."] steps back
    over a preceding ordinary component. *)
Definition normpath_step (rooted : bool) (acc : list string) (comp : string)
  : list string :=
  if negb (String.eqb comp "..") then acc ++ [comp]
  else match List.last (map Some acc) None with
       | None => if rooted then acc else acc ++ [comp]
       | Some top =>
           if String.eqb top ".." then acc ++ [comp] else removelast acc
       end.

Definition normpath (p : Path) : Path :=
  let rooted := negb (String.eqb (root p) "") in
  {| root := root p;
     parts := fold_left (normpath_step rooted) (parts p) [] |}.

End pathlib.

Abbreviation Path := pathlib.Path.
Infix "/:" := pathlib.truediv (at level 40, left associativity).

(** ** The interpreter state and Python's exceptions *)

Module py.

(** A file on disk: plain bytes, or a zip container with its members in
    central-directory order. A member's content is a file again (a jar
    stored in an archive stays a jar). *)
#[local] Unset Elimination Schemes.
Inductive file : Type :=
| Regular (data : list Byte.byte)
| Archive (members : list (string * file)).
#[local] Set Elimination Schemes.

Inductive exn : Type :=
| ValueError (msg : string)
| ZeroDivisionError
| IndexError
| FileNotFoundError (filename : string)
| BadZipFile (filename : string)
| KeyError (key : string)
| CallbackRaised (what : string).

Inductive result (A : Type) : Type :=
| Ok (a : A)
| Raise (e : exn).
Arguments Ok {A} a.
Arguments Raise {A} e.

(** What a run can touch: the files (keyed by [str] of their path), the
    calls the progress callback has received so far, and standard output. *)
Record world : Type := mkWorld {
  fs : gmap string file;
  calls : list (Q * string);
  stdout : list string
}.

Definition set_fs (f : gmap string file → gmap string file) (w : world) : world :=
  {| fs := f (fs w); calls := calls w; stdout := stdout w |}.

(** Statements: they read and change the world and either complete with
    a value or raise. *)
Definition Py (A : Type) : Type := world → result A * world.

#[global] Instance Py_ret : MRet Py := λ A a w, (Ok a, w).
#[global] Instance Py_bind : MBind Py := λ A B k m w,
  match m w with
  | (Ok a, w') => k a w'
  | (Raise e, w') => (Raise e, w')
  end.

Definition raise {A : Type} (e : exn) : Py A := λ w, (Raise e, w).

(** [for x in xs: body(x)]. *)
Fixpoint for_ {A : Type} (xs : list A) (body : A → Py unit) : Py unit :=
  match xs with
  | [] => mret tt
  | x :: xs' => body x ;; for_ xs' body
  end.

Definition print (line : string) : Py unit := λ w,
  (Ok tt, {| fs := fs w; calls := calls w; stdout := stdout w ++ [line] |}).

(** A progress callback [(delta, label) -> None]. It is the caller's code:
    what one call does may depend on the calls it has received before, and
    it either returns or raises ([Some what]). The increments handed on to it
    are kept as exact quotients; only the progress bar of the GUI, further
    down, does arithmetic on them, and that is modelled on doubles. *)
Definition Callback : Type := list (Q * string) → Q → string → option string.

Definition call (cb : Callback) (delta : Q) (label : string) : Py unit := λ w,
  let w' := {| fs := fs w; calls := calls w ++ [(delta, label)]; stdout := stdout w |} in
  match cb (calls w) delta label with
  | Some what => (Raise (CallbackRaised what), w')
  | None => (Ok tt, w')
  end.

(** [x / n] on numbers, [n] a length. The quotient is kept as it is: the
    double the program computes is its rounding, which is not modelled, so
    nothing is to be concluded from sums of such quotients. *)
Definition truediv (x : Q) (n : nat) : Py Q :=
  if decide (n = 0) then raise ZeroDivisionError
  else mret (x / inject_Z (Z.of_nat n))%Q.

End py.

Export py.

(** ** zipfile *)

Module zipfile.

(** A member whose name ends in ["/"] is a directory entry
    ([ZipInfo.is_dir]); any other is a regular file entry. *)
Fixpoint is_dir (filename : string) : bool :=
  match filename with
  | EmptyString => false
  | String c EmptyString => Ascii.eqb c "/"%char
  | String _ rest => is_dir rest
  end.

(** [ZipFile(file, "w")]: a new, empty archive replaces what was there. The
    model keeps files, not directories: the directory of [file] is taken to
    be there, and the [FileNotFoundError] of a missing one is outside it. *)
Definition open_w (file : string) : Py unit := λ w,
  (Ok tt, set_fs <[file := Archive []]> w).

(** [ZipFile(file, "a")]: an existing archive keeps its members; after a
    file that is no archive the members start afresh (its bytes stay in
    front as a preamble no reader lists); a missing file starts empty, its
    directory being taken to be there as for [open_w]. *)
Definition open_a (file : string) : Py unit := λ w,
  match fs w !! file with
  | Some (Archive _) => (Ok tt, w)
  | _ => (Ok tt, set_fs <[file := Archive []]> w)
  end.

(** [ZipFile(file, "r")]: the members read from the central directory. *)
Definition open_r (file : string) : Py (list (string * py.file)) := λ w,
  match fs w !! file with
  | None => (Raise (FileNotFoundError file), w)
  | Some (Regular _) => (Raise (BadZipFile file), w)
  | Some (Archive members) => (Ok members, w)
  end.

Definition namelist (members : list (string * py.file)) : list string :=
  members.*1.

(** [NameToInfo]: filled member by member, a later one replacing an earlier
    one of the same name. *)
Definition NameToInfo (members : list (string * py.file)) : gmap string py.file :=
  foldl (λ d m, <[m.1 := m.2]> d) ∅ members.

(** [zf.open(name)] for reading, fully read. *)
Definition read (members : list (string * py.file)) (name : string) : Py py.file :=
  match NameToInfo members !! name with
  | Some data => mret data
  | None => raise (KeyError name)
  end.

(** One more member at the end of the archive open on [archive]; an archive
    that is not open refuses with [closed]. *)
Definition append (closed : string) (archive : string) (arcname : string)
    (data : py.file) : Py unit := λ w,
  match fs w !! archive with
  | Some (Archive members) =>
      (Ok tt, set_fs <[archive := Archive (members ++ [(arcname, data)])]> w)
  | _ => (Raise (ValueError closed), w)
  end.

Definition closed_for_write : string :=
  "Attempt to write to ZIP archive that was already closed".

Definition closed_for_use : string :=
  "Attempt to use ZIP archive that was already closed".

(** [ZipInfo.from_file]: the member name is the normalised [arcname]
    without its root. *)
Definition from_file (arcname : Path) : Py string :=
  let n := pathlib.normpath arcname in
  match pathlib.root n, pathlib.parts n with
  | "", _ => mret (pathlib.str n)
  | _, [] => raise IndexError
  | _, ps => mret (pathlib.join ps)
  end.

(** [zf.write(filename, arcname=arcname)]: the archive must be open, then
    the file is looked up, then its member name is made. *)
Definition write (archive : string) (filename arcname : Path) : Py unit :=
  λ w,
  match fs w !! archive with
  | Some (Archive _) =>
      match fs w !! pathlib.str filename with
      | None => (Raise (FileNotFoundError (pathlib.str filename)), w)
      | Some data => (n ← from_file arcname; append closed_for_write archive n data) w
      end
  | _ => (Raise (ValueError closed_for_write), w)
  end.

(** [with zf.open(name, "w") as target: shutil.copyfileobj(source, target)]. *)
Definition open_write (archive : string) (name : string) (data : py.file) : Py unit :=
  append closed_for_use archive name data.

(** [zf.writestr(name, text)]: the text goes in as its UTF-8 bytes. *)
Definition writestr (archive : string) (name : string) (text : string) : Py unit :=
  append closed_for_write archive name (Regular (list_byte_of_string text)).

End zipfile.

(** ** The data model the assembler reads *)

Module defs.

(** Modelled from the spec: the [Side] enumeration of [gtnh.defs], a module
    this development has no code of. An archive is built for CLIENT or
    SERVER; a mod's affinity may also be BOTH. *)
Inductive Side : Type := CLIENT | SERVER | BOTH.

#[global] Instance Side_eq_dec : EqDecision Side.
Proof. solve_decision. Defined.

(** [f"{side}"]: the text of a member, taken to be its name. *)
Definition Side_str (side : Side) : string :=
  match side with
  | CLIENT => "CLIENT"
  | SERVER => "SERVER"
  | BOTH => "BOTH"
  end.

(** Modelled from the spec: the manifest records of [gtnh.models] (section 3,
    ModReference, VersionReference, ConfigBundle and Release), a package this
    development has no code of. *)
Record GTNHModInfo : Type := { mod_name : string; mod_side : Side }.
Record GTNHVersion : Type := { version_tag : string }.
Record GTNHConfig : Type := { config_name : string }.

Record GTNHRelease : Type := {
  version : string;
  release_mods : list (GTNHModInfo * GTNHVersion);
  release_config : GTNHConfig * GTNHVersion
}.

(** What the cache locator is asked for: a mod or the config bundle. *)
Inductive asset : Type :=
| ModAsset (m : GTNHModInfo)
| ConfigAsset (c : GTNHConfig).

End defs.

Export defs.

(** ** gtnh.assembler.multi_poly: the MultiMC assembler *)

Module multi_poly.

(** Modelled from the spec: the instance state of [GenericAssembler]
    (gtnh.assembler.generic_assembler, a class this development has no code
    of), as its [__init__] sets it up and [MMCAssembler]'s methods read it.
    The instance is bound to one release, holds the per-side exclusion sets
    and the optional progress callback, and reports the same increment, in
    percent, at every step. *)
Record Assembler : Type := {
  release : GTNHRelease;
  exclusions : Side → gset string;
  callback : option Callback;
  delta_progress : Q
}.

Section MMCAssembler.

(** [gtnh.defs.RELEASE_MMC_DIR] and [gtnh.defs.MMC_PACK_JSON]: constants of
    a module this development has no code of. *)
Variable RELEASE_MMC_DIR : Path.
Variable MMC_PACK_JSON : string.

(** The cache: where a downloaded asset version lies, if it was downloaded. *)
Variable cache : asset → GTNHVersion → option string.

(** Modelled from the spec: [get_asset_version_cache_location] of
    gtnh.assembler.downloader, the cache locator of section 6. It is a pure
    lookup that yields a local path and fails with a not-found condition
    for an artifact that was never downloaded. *)
Definition get_asset_version_cache_location (a : asset) (v : GTNHVersion) : Py Path :=
  match cache a v with
  | Some location => mret (pathlib.PurePath location)
  | None => raise (FileNotFoundError (version_tag v))
  end.

(** Modelled from the spec: [GenericAssembler.update_progress]. One step is
    reported to the progress callback with the increment and a label that
    names the file and leaves one placeholder for the accumulated percentage;
    a missing callback is tolerated, and what the callback raises is not
    caught. *)
Definition update_progress (self : Assembler) (side : Side) (source_file : Path)
  : Py unit :=
  match callback self with
  | None => mret tt
  | Some cb =>
      call cb (delta_progress self)
        ("Packing " +:+ Side_str side +:+ " archive version "
         +:+ version (release self) +:+ ": " +:+ pathlib.str source_file
         +:+ ". Progress: {0}%")
  end.

(** [__init__]: the three in-archive directories. *)
Definition mmc_archive_root (self : Assembler) : Path :=
  pathlib.PurePath ("GT New Horizons " +:+ version (release self)).

Definition mmc_modpack_files (self : Assembler) : Path :=
  mmc_archive_root self /: ".minecraft".

Definition mmc_modpack_mods (self : Assembler) : Path :=
  mmc_modpack_files self /: "mods".

(** [MMCAssembler.add_mods]. [archive] is the file the open [ZipFile] writes. *)
Definition add_mods (self : Assembler) (side : Side)
    (mods : list (GTNHModInfo * GTNHVersion)) (archive : string) : Py unit :=
  for_ mods (λ '(mod_, version),
    source_file ← get_asset_version_cache_location (ModAsset mod_) version;
    update_progress self side source_file;;
    let archive_path := mmc_modpack_mods self /: pathlib.name source_file in
    print (pathlib.str archive_path);;
    zipfile.write archive source_file archive_path).

(** The body of the loop of [MMCAssembler.add_config] for one entry name. *)
Definition add_config_item (self : Assembler) (side : Side)
    (config_zip : list (string * file)) (archive : string) (item : string) : Py unit :=
  if bool_decide (item ∈ exclusions self side) then mret tt
  else
    config_item ← zipfile.read config_zip item;
    zipfile.open_write archive
      (pathlib.str (mmc_modpack_files self) +:+ "/" +:+ item) config_item.

(** [MMCAssembler.add_config]. *)
Definition add_config (self : Assembler) (side : Side)
    (config : GTNHConfig * GTNHVersion) (archive : string) : Py unit :=
  let '(modpack_config, config_version) := config in
  config_file ← get_asset_version_cache_location (ConfigAsset modpack_config) config_version;
  config_zip ← zipfile.open_r (pathlib.str config_file);
  update_progress self side config_file;;
  for_ (zipfile.namelist config_zip) (add_config_item self side config_zip archive).

(** [MMCAssembler.get_archive_path]. *)
Definition get_archive_path (self : Assembler) (side : Side) : Path :=
  RELEASE_MMC_DIR /: ("GT New Horizons " +:+ version (release self) +:+ " (MMC).zip").

(** [MMCAssembler.add_mmc_meta_data]. *)
Definition add_mmc_meta_data (self : Assembler) (side : Side) : Py unit :=
  let archive := pathlib.str (get_archive_path self side) in
  zipfile.open_a archive;;
  zipfile.writestr archive
    (pathlib.str (mmc_archive_root self) +:+ "/mmc-pack.json") MMC_PACK_JSON.

(** [MMCAssembler.assemble]. The call of the base class's [assemble] is the
    argument [GenericAssembler_assemble]. *)
Definition assemble (GenericAssembler_assemble : Assembler → Side → Py unit)
    (self : Assembler) (side : Side) : Py unit :=
  if bool_decide (side ≠ CLIENT) then
    raise (ValueError ("Only valid side is " +:+ Side_str CLIENT
                       +:+ ", got " +:+ Side_str side))
  else
    GenericAssembler_assemble self side;;
    if bool_decide (side = CLIENT) then add_mmc_meta_data self side
    else mret tt.

(** Modelled from the spec: [GenericAssembler.get_mods] (section 4.1, step 1).
    A mod is included when its affinity is the side or BOTH. *)
Definition get_mods (self : Assembler) (side : Side) : list (GTNHModInfo * GTNHVersion) :=
  List.filter (λ mv, bool_decide (mod_side mv.1 = side) || bool_decide (mod_side mv.1 = BOTH))
    (release_mods (release self)).

(** Modelled from the spec: [GenericAssembler.assemble] (section 4.1). A side
    that is neither CLIENT nor SERVER is refused before any I/O; the archive
    at [get_archive_path(side)] is opened for writing, the included mods are
    added in manifest order, then the config bundle, through the methods of
    the instance. *)
Definition GenericAssembler_assemble (self : Assembler) (side : Side) : Py unit :=
  if bool_decide (side = BOTH) then
    raise (ValueError ("Can only assemble for CLIENT or SERVER, got " +:+ Side_str side))
  else
    let archive := pathlib.str (get_archive_path self side) in
    zipfile.open_w archive;;
    add_mods self side (get_mods self side) archive;;
    add_config self side (release_config (release self)) archive.

(** [MMCAssembler(...).assemble(side)] as a whole. *)
Definition MMCAssembler_assemble (self : Assembler) (side : Side) : Py unit :=
  assemble GenericAssembler_assemble self side.

End MMCAssembler.

End multi_poly.

(** ** gtnh.gui: the packaging helpers and the progress bar *)

Module pathlib_more.

#[global] Instance Path_eq_dec : EqDecision Path.
Proof. solve_decision. Defined.

#[global] Instance Path_countable : Countable Path.
Proof.
  refine (inj_countable' (λ p, (pathlib.root p, pathlib.parts p))
            (λ rp, pathlib.mkPath rp.1 rp.2) _).
  by intros [].
Defined.

Fixpoint has_char (c : ascii) (s : string) : bool :=
  match s with
  | EmptyString => false
  | String x rest => Ascii.eqb x c || has_char c rest
  end.

Definition hex_digit (n : N) : ascii :=
  default "0"%char (String.get (N.to_nat n) "0123456789abcdef").

(** One character of [repr(s)] inside the quotes [quote]: the quote and the
    backslash are escaped, so are tab, line feed and carriage return, and
    the other control characters are written [\xhh]. *)
Definition repr_char (quote c : ascii) : string :=
  let n := N_of_ascii c in
  if Ascii.eqb c quote || Ascii.eqb c "092"%char then String "092"%char (String c "")
  else if Ascii.eqb c "009"%char then "\t"
  else if Ascii.eqb c "010"%char then "\n"
  else if Ascii.eqb c "013"%char then "\r"
  else if (n <? 32)%N || (n =? 127)%N then
    String "092"%char
      (String "x"%char (String (hex_digit (n / 16)) (String (hex_digit (n mod 16)) "")))
  else String c "".

Fixpoint repr_chars (quote : ascii) (s : string) : string :=
  match s with
  | EmptyString => ""
  | String c rest => repr_char quote c +:+ repr_chars quote rest
  end.

(** [repr(s)] of a string: in single quotes, or in double quotes when the
    string holds a single quote and no double one. A string is the bytes of
    its UTF-8 form here; the bytes of a character beyond ASCII are copied,
    as [repr] copies every printable character. *)
Definition repr (s : string) : string :=
  let quote := if has_char "'"%char s && negb (has_char "034"%char s)
               then "034"%char else "'"%char in
  String quote (repr_chars quote s) +:+ String quote "".

(** [_format_parsed_parts] of a path: its text, empty for the empty path. *)
Definition format_parsed_parts (p : Path) : string :=
  pathlib.root p +:+ pathlib.join (pathlib.parts p).

(** The message of the [ValueError] of [relative_to]. *)
Definition not_in_subpath (p other : Path) : string :=
  repr (pathlib.str p) +:+ " is not in the subpath of " +:+ repr (format_parsed_parts other)
  +:+ " OR one path is relative and the other is absolute.".

(** [p.relative_to(other)]: [other]'s components are taken off the front,
    and a path that does not start with them is refused. *)
Definition relative_to (p other : Path) : Py Path :=
  if bool_decide (pathlib.root p = pathlib.root other
                  ∧ take (length (pathlib.parts other)) (pathlib.parts p) = pathlib.parts other)
  then mret {| pathlib.root := "";
               pathlib.parts := drop (length (pathlib.parts other)) (pathlib.parts p) |}
  else raise (ValueError (not_in_subpath p other)).

End pathlib_more.

Module gui.
Import pathlib_more.

(** The manifest of [gtnh.mod_info] as this module reads it: a mod's side is
    a plain string there. *)
Record ModInfo : Type := { name : string; side : string }.

Record GTNHModpack : Type := {
  github_mods : list ModInfo;
  client_exclusions : list string;
  server_exclusions : list string;
  modpack_version : string
}.

(** [for x in xs: acc = body(acc, x)], for a loop that fills local lists. *)
Fixpoint for_acc {A S : Type} (xs : list A) (body : S → A → Py S) (acc : S) : Py S :=
  match xs with
  | [] => mret acc
  | x :: xs' => acc' ← body acc x; for_acc xs' body acc'
  end.

(** [if callback is not None: callback(delta, label)]. *)
Definition notify (callback : option Callback) (delta : Q) (label : string) : Py unit :=
  match callback with
  | Some cb => call cb delta label
  | None => mret tt
  end.

Section packaging.

(** [gtnh.pack_downloader.download_mod], of a module this development has
    no code of: the paths of the files fetched for a mod, or the exception of
    a failed fetch. *)
Variable download_mod : ModInfo → result (list Path).

(** [gtnh.pack_downloader.ensure_cache_dir()], of the same module. *)
Variable cache_dir : Path.

(** The call of [download_mod]. What the download writes into the cache is
    not followed: the files of the world are those the packaging reads and
    writes. *)
Definition do_download_mod (mod_ : ModInfo) : Py (list Path) := λ w,
  (download_mod mod_, w).

(** [download_mods]: the loop body, on the two local lists. *)
Definition download_mods_step (callback : option Callback) (delta_progress : Q)
    (acc : list Path * list Path) (mod_ : ModInfo) : Py (list Path * list Path) :=
  let '(client_paths, server_paths) := acc in
  notify callback delta_progress
    ("downloading mods. current mod: " +:+ name mod_ +:+ " Progress: {0}%");;
  paths ← do_download_mod mod_;
  if String.eqb (side mod_) "BOTH" then mret (client_paths ++ paths, server_paths ++ paths)
  else if String.eqb (side mod_) "CLIENT" then mret (client_paths ++ paths, server_paths)
  else if String.eqb (side mod_) "SERVER" then mret (client_paths, server_paths ++ paths)
  else mret (client_paths, server_paths).

(** [download_mods(gtnh_modpack, github, organization, callback)]. *)
Definition download_mods (gtnh_modpack : GTNHModpack) (callback : option Callback)
  : Py (list Path * list Path) :=
  delta_progress ← py.truediv 100 (length (github_mods gtnh_modpack));
  for_acc (github_mods gtnh_modpack) (download_mods_step callback delta_progress) ([], []).

(** [os.path.exists(f)] then [os.remove(f)], with the message printed. *)
Definition remove_previous (archive_name : string) (message : string) : Py unit := λ w,
  match fs w !! archive_name with
  | Some _ => print message (set_fs (delete archive_name) w)
  | None => (Ok tt, w)
  end.

(** [pack_clientpack(client_paths, pack_version, callback)]. The working
    directory is [cache_dir] while the archive is written, so relative names
    are keyed under it. *)
Definition pack_clientpack (client_paths : list Path) (pack_version : string)
    (callback : option Callback) : Py unit :=
  delta_progress ← py.truediv 100 (length client_paths);
  let archive_name := pathlib.str (cache_dir /: ("client-" +:+ pack_version +:+ ".zip")) in
  remove_previous archive_name "previous client archive deleted";;
  print "zipping client archive";;
  zipfile.open_w archive_name;;
  for_ client_paths (λ mod_path,
    notify callback delta_progress
      ("Packing client archive version " +:+ pack_version +:+ ": "
       +:+ pathlib.name mod_path +:+ ". Progress: {0}%");;
    arcname ← relative_to mod_path (cache_dir /: "client_archive");
    zipfile.write archive_name (cache_dir /: pathlib.str mod_path) arcname);;
  print "success!".

(** [pack_serverpack(server_paths, pack_version, callback)]. *)
Definition pack_serverpack (server_paths : list Path) (pack_version : string)
    (callback : option Callback) : Py unit :=
  delta_progress ← py.truediv 100 (length server_paths);
  let archive_name := pathlib.str (cache_dir /: ("server-" +:+ pack_version +:+ ".zip")) in
  remove_previous archive_name "previous server archive deleted";;
  print "zipping client archive";;
  zipfile.open_w archive_name;;
  for_ server_paths (λ mod_path,
    notify callback delta_progress
      ("Packing server archive version " +:+ pack_version +:+ ": "
       +:+ pathlib.name mod_path +:+ ". Progress: {0}%");;
    arcname ← relative_to mod_path (cache_dir /: "server_archive");
    zipfile.write archive_name (cache_dir /: pathlib.str mod_path) arcname);;
  print "success!".

(** [handle_pack_extra_files], the selection of the files of one side: the
    files found under [temp_dir] without the excluded paths. *)
Definition side_files (temp_dir : Path) (exclusions : list string)
    (crawled : list Path) : list Path :=
  let side_exclusions := (λ exclusion, temp_dir /: exclusion) <$> exclusions in
  let availiable_files : gset Path := list_to_set crawled in
  elements (availiable_files ∖ list_to_set side_exclusions).

End packaging.

(** *** ArchiveFrame: the two progress bars and their labels *)

Inductive Progressbar_w : Type := progress_bar | progress_bar_global.
Inductive Label_w : Type := progress_label | progress_label_global.

#[global] Instance Progressbar_w_eq_dec : EqDecision Progressbar_w.
Proof. solve_decision. Defined.

#[global] Instance Label_w_eq_dec : EqDecision Label_w.
Proof. solve_decision. Defined.

Record ArchiveFrame : Type := {
  value : Progressbar_w → float;
  text : Label_w → string
}.

Section progress.

(** [float(format(x, ".2f"))]: the double nearest to [x] rounded to two
    decimals. *)
Variable round_2f : float → float.

(** [label.format(x)]. *)
Variable format : string → float → string.

(** [min(100.0, x)]: the second argument is taken when it is smaller. *)
Definition min_100 (x : float) : float :=
  if (x <? 100)%float then x else 100%float.

(** [ArchiveFrame._progress_callback]. *)
Definition _progress_callback (self : ArchiveFrame) (delta_progress : float)
    (label : string) (progress_bar_w : option Progressbar_w)
    (label_w : option Label_w) : ArchiveFrame :=
  let progress_bar_widget := default progress_bar progress_bar_w in
  let label_widget := default progress_label label_w in
  let v1 := (value self progress_bar_widget + delta_progress)%float in
  let v2 := min_100 (round_2f v1) in
  {| value := <[progress_bar_widget := v2]> (value self);
     text := <[label_widget := format label v2]> (text self) |}.

End progress.

End gui.

(** ** Vocabulary of the statements *)

Module spec.
Import multi_poly.

(** The string contains the path separator. *)
Fixpoint has_sep (s : string) : bool :=
  match s with
  | EmptyString => false
  | String c rest => Ascii.eqb c "/"%char || has_sep rest
  end.


(** A mod of the GUI manifest belongs in the client (server) archive when
    its side is CLIENT (SERVER) or BOTH. *)
Definition for_client (m : gui.ModInfo) : Prop :=
  gui.side m = "CLIENT" ∨ gui.side m = "BOTH".

Definition for_server (m : gui.ModInfo) : Prop :=
  gui.side m = "SERVER" ∨ gui.side m = "BOTH".

#[global] Instance for_client_dec m : Decision (for_client m).
Proof. unfold for_client. apply _. Defined.

#[global] Instance for_server_dec m : Decision (for_server m).
Proof. unfold for_server. apply _. Defined.

(** The paths a mod's download yields (none for a failed one). *)
Definition downloaded (download_mod : gui.ModInfo → result (list Path))
    (m : gui.ModInfo) : list Path :=
  match download_mod m with
  | Ok paths => paths
  | Raise _ => []
  end.

(** The sum of a list of increments. *)
Definition Qsum (xs : list Q) : Q := foldr Qplus 0%Q xs.

(** The members [add_config] is to write for the entry names [items] of the
    bundle [config_zip]: the entries outside the side's exclusions, each under
    the [.minecraft] directory with the bytes it has in the bundle. *)
Definition config_members (self : Assembler) (side : Side)
    (config_zip : list (string * file)) (items : list string) : list (string * file) :=
  omap (λ item,
          if bool_decide (item ∈ exclusions self side) then None
          else (λ data, (pathlib.str (mmc_modpack_files self) +:+ "/" +:+ item, data))
                 <$> zipfile.NameToInfo config_zip !! item)
       items.

(** The label [update_progress] reports for a file. *)
Definition progress_label (self : Assembler) (side : Side) (location : string) : string :=
  "Packing " +:+ Side_str side +:+ " archive version "
  +:+ version (release self) +:+ ": " +:+ pathlib.str (pathlib.PurePath location)
  +:+ ". Progress: {0}%".

(** The calls [update_progress] makes for the files at [locations]. *)
Definition reports (self : Assembler) (side : Side) (locations : list string)
  : list (Q * string) :=
  (λ location, (delta_progress self, progress_label self side location)) <$> locations.

(** The cached locations of the mods that have one, in order. *)
Definition cached (cache : asset → GTNHVersion → option string)
    (mods : list (GTNHModInfo * GTNHVersion)) : list string :=
  omap (λ mv, cache (ModAsset mv.1) mv.2) mods.

(** The callback returns from each of the calls [rs], made in turn after the
    calls [history]. *)
Fixpoint returns (cb : Callback) (history rs : list (Q * string)) : bool :=
  match rs with
  | [] => true
  | r :: rs' =>
      match cb history r.1 r.2 with
      | None => returns cb (history ++ [r]) rs'
      | Some _ => false
      end
  end.

(** The text of the archive root as the spec writes it. *)
Definition archive_root (self : Assembler) : string :=
  "GT New Horizons " +:+ version (release self).

(** The member name [add_mods] gives the file cached at [location]. *)
Definition mod_member_name (self : Assembler) (location : string) : string :=
  pathlib.str (pathlib.normpath
    (mmc_modpack_mods self /: pathlib.name (pathlib.PurePath location))).

End spec.

(** ** A small release, used to run the statements *)

Module examples.
Import multi_poly.

Definition bytes_of (s : string) : file := Regular (list_byte_of_string s).

Definition config_zip0 : list (string * file) :=
  [("configA.cfg", bytes_of "a=1"); ("sub/", Regular []); ("sub/b.cfg", bytes_of "b=2")].

Definition mod_A : GTNHModInfo := {| mod_name := "A"; mod_side := BOTH |}.
Definition mod_B : GTNHModInfo := {| mod_name := "B"; mod_side := CLIENT |}.
Definition mod_C : GTNHModInfo := {| mod_name := "C"; mod_side := SERVER |}.
Definition v1 : GTNHVersion := {| version_tag := "v1" |}.
Definition v2 : GTNHVersion := {| version_tag := "v2" |}.
Definition v3 : GTNHVersion := {| version_tag := "v3" |}.
Definition config0 : GTNHConfig := {| config_name := "GT-New-Horizons-Modpack" |}.

Definition release0 : GTNHRelease :=
  {| version := "2.1.2.3";
     release_mods := [(mod_A, v1); (mod_B, v2); (mod_C, v3)];
     release_config := (config0, v3) |}.

Definition cache0 (a : asset) (v : GTNHVersion) : option string :=
  match a with
  | ModAsset m => Some ("cache/mods/" +:+ mod_name m +:+ "/" +:+ mod_name m +:+ "-"
                        +:+ version_tag v +:+ ".jar")
  | ConfigAsset c => Some "cache/config/config.zip"
  end.

Definition exclusions0 (side : Side) : gset string :=
  match side with
  | CLIENT => {["sub/b.cfg"]}
  | _ => ∅
  end.

(** A callback that always returns, and one that raises at its second call. *)
Definition quiet : Callback := λ _ _ _, None.

Definition cancel_at_second : Callback := λ history _ _,
  if decide (length history = 1) then Some "PackingInterruptException" else None.

Definition assembler0 (cb : option Callback) : Assembler :=
  {| release := release0; exclusions := exclusions0; callback := cb;
     delta_progress := 100 # 3 |}.

(** The same release without mods, with a single step to report. *)
Definition assembler_no_mods : Assembler :=
  {| release := {| version := "2.1.2.3"; release_mods := [];
                   release_config := (config0, v3) |};
     exclusions := exclusions0; callback := Some quiet; delta_progress := 100 |}.

Definition RELEASE_MMC_DIR0 : Path := pathlib.PurePath "releases/multi_poly".
Definition MMC_PACK_JSON0 : string := "{ formatVersion: 1 }".

Definition world0 : world :=
  {| fs := list_to_map
             [("cache/mods/A/A-v1.jar", bytes_of "jar A");
              ("cache/mods/B/B-v2.jar", bytes_of "jar B");
              ("cache/mods/C/C-v3.jar", bytes_of "jar C");
              ("cache/config/config.zip", Archive config_zip0)];
     calls := [];
     stdout := [] |}.

(** The world with an archive just opened for writing at ["out.zip"]. *)
Definition world_open : world := (zipfile.open_w "out.zip" world0).2.

Definition world_mods : world :=
  (add_mods cache0 (assembler0 (Some quiet)) CLIENT [(mod_A, v1); (mod_B, v2)]
     "out.zip" world_open).2.

Definition world_config : world :=
  (add_config cache0 (assembler0 (Some quiet)) CLIENT (config0, v3) "out.zip" world_mods).2.

Definition base0 : Assembler → Side → Py unit :=
  GenericAssembler_assemble RELEASE_MMC_DIR0 cache0.

(** The destination of the launcher archive, and what the base [assemble]
    leaves there for CLIENT. *)
Definition archive0 : string := "releases/multi_poly/GT New Horizons 2.1.2.3 (MMC).zip".

Definition members0 : list (string * file) :=
  [("GT New Horizons 2.1.2.3/.minecraft/mods/A-v1.jar", bytes_of "jar A");
   ("GT New Horizons 2.1.2.3/.minecraft/mods/B-v2.jar", bytes_of "jar B");
   ("GT New Horizons 2.1.2.3/.minecraft/configA.cfg", bytes_of "a=1");
   ("GT New Horizons 2.1.2.3/.minecraft/sub/", Regular [])].

(** The manifest of the GUI and a download that yields one jar per mod. *)
Definition modpack0 : gui.GTNHModpack :=
  {| gui.github_mods := [ {| gui.name := "A"; gui.side := "BOTH" |};
                          {| gui.name := "B"; gui.side := "CLIENT" |};
                          {| gui.name := "C"; gui.side := "SERVER" |};
                          {| gui.name := "D"; gui.side := "NONE" |} ];
     gui.client_exclusions := ["sub/b.cfg"];
     gui.server_exclusions := [];
     gui.modpack_version := "2.1.2.3" |}.

Definition download_mod0 (m : gui.ModInfo) : result (list Path) :=
  Ok [pathlib.PurePath ("cache/" +:+ gui.name m +:+ ".jar")].

Definition frame0 : gui.ArchiveFrame :=
  {| gui.value := λ _, 0%float; gui.text := λ _, "" |}.

End examples.

(** ** Further vocabulary: what the archive steps write *)

Module spec_more.
Import multi_poly spec.

(** The members [add_mods] is to write for the files cached at [locations],
    read from the files [files]: the member name of each with the content
    found at its path. *)
Definition mod_members (self : Assembler) (files : gmap string file)
    (locations : list string) : list (string * file) :=
  omap (λ loc, (λ data, (mod_member_name self loc, data))
                 <$> files !! pathlib.str (pathlib.PurePath loc))
       locations.

(** The lines [add_mods] prints for the files cached at [locations]. *)
Definition mod_lines (self : Assembler) (locations : list string) : list string :=
  (λ loc, pathlib.str (mmc_modpack_mods self /: pathlib.name (pathlib.PurePath loc)))
    <$> locations.

(** The metadata member of the launcher archive. *)
Definition meta_member (MMC_PACK_JSON : string) (self : Assembler) : string * file :=
  (pathlib.str (mmc_archive_root self) +:+ "/mmc-pack.json",
   Regular (list_byte_of_string MMC_PACK_JSON)).

End spec_more.

(** ** gtnh.assembler.modrinth: the Modrinth assembler *)

Module modrinth.
Import multi_poly.

Section ModrinthAssembler.

(** [gtnh.defs.RELEASE_MODRINTH_DIR], a constant of a module this development
    has no code of. *)
Variable RELEASE_MODRINTH_DIR : Path.

(** [ModrinthAssembler.get_archive_path]. *)
Definition get_archive_path (self : Assembler) (side : Side) : Path :=
  RELEASE_MODRINTH_DIR
  /: ("GTNewHorizons-" +:+ Side_str side +:+ "-" +:+ version (release self) +:+ ".zip").

End ModrinthAssembler.

End modrinth.

(** ** Further vocabulary: the packaging helpers *)

Module gui_spec.
Import pathlib_more gui spec.

(** The path lies in the folder [base] (or is [base] itself). *)
Definition under (base p : Path) : Prop :=
  pathlib.root p = pathlib.root base
  ∧ take (length (pathlib.parts base)) (pathlib.parts p) = pathlib.parts base.

#[global] Instance under_dec base p : Decision (under base p).
Proof. unfold under. apply _. Defined.

(** The calls or none: what a callback that may be absent receives. *)
Definition told (callback : option Callback) (rs : list (Q * string)) : list (Q * string) :=
  match callback with
  | Some _ => rs
  | None => []
  end.

(** The callback, when there is one, returns from each of the calls [rs]. *)
Definition quiet_for (callback : option Callback) (history rs : list (Q * string)) : bool :=
  match callback with
  | Some cb => returns cb history rs
  | None => true
  end.

(** The file a packing function reads for [mod_path], the working directory
    being [cache_dir]. *)
Definition source_key (cache_dir mod_path : Path) : string :=
  pathlib.str (cache_dir /: pathlib.str mod_path).

(** The member name a packing function gives [mod_path]: its path relative
    to the staging folder [base]. *)
Definition pack_name (base mod_path : Path) : string :=
  pathlib.str (pathlib.normpath
    {| pathlib.root := "";
       pathlib.parts := drop (length (pathlib.parts base)) (pathlib.parts mod_path) |}).

(** The members a packing function is to write for [paths], read from
    [files]. *)
Definition pack_members (cache_dir base : Path) (files : gmap string file)
    (paths : list Path) : list (string * file) :=
  omap (λ p, (λ data, (pack_name base p, data)) <$> files !! source_key cache_dir p) paths.

(** The reports of [pack_clientpack] and of [pack_serverpack]. *)
Definition pack_reports (which pack_version : string) (paths : list Path)
  : list (Q * string) :=
  (λ p, ((100 / inject_Z (Z.of_nat (length paths)))%Q,
         "Packing " +:+ which +:+ " archive version " +:+ pack_version +:+ ": "
         +:+ pathlib.name p +:+ ". Progress: {0}%")) <$> paths.

(** The reports of [download_mods]. *)
Definition download_reports (mods : list ModInfo) : list (Q * string) :=
  (λ m, ((100 / inject_Z (Z.of_nat (length mods)))%Q,
         "downloading mods. current mod: " +:+ name m +:+ " Progress: {0}%")) <$> mods.

End gui_spec.

(** ** gtnh.gui: listing a folder *)

Module gui_crawl.
Import pathlib_more gui spec gui_spec.

(** What is found under a directory, as [is_file] and [is_dir] see it (both
    follow links): a file, a directory with its entries in the order
    [iterdir] yields them, or something that is neither. *)
#[local] Unset Elimination Schemes.
Inductive node : Type :=
| File
| Dir (entries : list (string * node))
| Other.
#[local] Set Elimination Schemes.

Definition is_file (n : node) : bool :=
  match n with File => true | _ => false end.

Definition is_dir (n : node) : bool :=
  match n with Dir _ => true | _ => false end.

(** One item of [path.iterdir()]: the entry's name becomes one more
    component, as it is. *)
Definition child (path : Path) (name : string) : Path :=
  {| pathlib.root := pathlib.root path; pathlib.parts := pathlib.parts path ++ [name] |}.

(** [crawl(path)], [path] being what [n] stands for. The files of the
    directory come first, then what each of its folders holds, folder by
    folder. The function is only called on directories, by [crawl] below
    and by itself. *)
Fixpoint crawl_dir (n : node) (path : Path) : list Path :=
  match n with
  | Dir entries =>
      let files :=
        omap (λ x, if is_file x.2 then Some (child path x.1) else None) entries in
      files
      ++ (fix folders (xs : list (string * node)) : list Path :=
            match xs with
            | [] => []
            | (name, folder) :: xs' =>
                if is_dir folder
                then crawl_dir folder (child path name) ++ folders xs'
                else folders xs'
            end) entries
  | _ => []
  end.

(** [crawl(path)] for a directory [path] that holds [entries]. *)
Definition crawl (path : Path) (entries : list (string * node)) : list Path :=
  crawl_dir (Dir entries) path.

(** The names lead from the directory to a file: each but the last names a
    folder, the last a file. *)
Fixpoint file_at (names : list string) (entries : list (string * node)) : Prop :=
  match names with
  | [] => False
  | name :: rest =>
      match rest with
      | [] => (name, File) ∈ entries
      | _ :: _ => ∃ sub, (name, Dir sub) ∈ entries ∧ file_at rest sub
      end
  end.

(** The entries are a directory listing, all the way down: in each
    directory the names are distinct, and a name is a single component that
    is neither empty nor one of the two links [.] and [..]. *)
Fixpoint listing (n : node) : Prop :=
  match n with
  | Dir entries =>
      NoDup entries.*1
      ∧ Forall (λ name, has_sep name = false ∧ name ≠ "" ∧ name ≠ "." ∧ name ≠ "..")
          entries.*1
      ∧ (fix all (xs : list (string * node)) : Prop :=
           match xs with
           | [] => True
           | x :: xs' => listing x.2 ∧ all xs'
           end) entries
  | _ => True
  end.

(** A staging folder with two mods and a nested config file. *)
Definition staged : list (string * node) :=
  [("mods", Dir [("a.jar", File); ("b.jar", File)]);
   ("options.txt", File);
   ("config", Dir [("gt", Dir [("gt.cfg", File)]); ("empty", Dir [])]);
   ("lock", Other)].

End gui_crawl.

(** ** gtnh.gui: the editable list boxes *)

Module gui_frames.
Import gui.

(** The order of [sorted] on strings: by code point, a prefix first. *)
Definition str_le (a b : string) : Prop := String.leb a b = true.

#[global] Instance str_le_dec : RelDecision str_le.
Proof. intros a b. unfold str_le. apply _. Defined.

(** [sorted(xs)] for a list of strings. *)
Definition sorted (xs : list string) : list string := merge_sort str_le xs.

(** A [tk.Listbox] in its default selection mode: the items, and the index
    of the selected one, if any. *)
Record Listbox : Type := { items : list string; curselection : option nat }.

(** [listbox.insert(tk.END, x)]. *)
Definition Listbox_insert_end (x : string) (lb : Listbox) : Listbox :=
  {| items := items lb ++ [x]; curselection := curselection lb |}.

(** [listbox.get(index)]: the item, or the empty string out of range. *)
Definition Listbox_get (index : nat) (lb : Listbox) : string :=
  default "" (items lb !! index).

(** [listbox.delete(index)]: the item goes, and with it the selection if it
    was on it; a selection further down moves up by one. *)
Definition Listbox_delete (index : nat) (lb : Listbox) : Listbox :=
  {| items := delete index (items lb);
     curselection :=
       match curselection lb with
       | Some i =>
           if decide (i = index) then None
           else if decide (index < i ∧ index < length (items lb)) then Some (i - 1)
           else Some i
       | None => None
       end |}.

(** A [CustomLabelFrame]: its list box and the text of its entry field. The
    two callbacks are given to the methods. *)
Record CustomLabelFrame : Type := { listbox : Listbox; entry : string }.

Definition set_listbox (f : Listbox → Listbox) (frame : CustomLabelFrame) : CustomLabelFrame :=
  {| listbox := f (listbox frame); entry := entry frame |}.

(** [CustomLabelFrame.get_listbox_content]. *)
Definition get_listbox_content (frame : CustomLabelFrame) : list string :=
  items (listbox frame).

Section CustomLabelFrame.

(** The window the frame sits in, with the frame as one of its parts: a
    callback is a method of the window and may change it. *)
Context {W : Type} (frame : W → CustomLabelFrame)
  (set_frame : (CustomLabelFrame → CustomLabelFrame) → W → W).

(** [CustomLabelFrame.add]. *)
Definition add (add_callback : option (string → W → bool * W)) (s : W) : W :=
  match add_callback with
  | Some cb =>
      let '(ok, s1) := cb (entry (frame s)) s in
      if ok then set_frame (set_listbox (Listbox_insert_end (entry (frame s1)))) s1
      else s1
  | None => set_frame (set_listbox (Listbox_insert_end (entry (frame s)))) s
  end.

(** [CustomLabelFrame.remove]: without a selection [curselection()[0]]
    raises [IndexError], which is caught and ignored. *)
Definition remove (delete_callback : option (string → W → bool * W)) (s : W) : W :=
  match curselection (listbox (frame s)) with
  | None => s
  | Some index =>
      match delete_callback with
      | Some cb =>
          let '(ok, s1) := cb (Listbox_get index (listbox (frame s))) s in
          if ok then set_frame (set_listbox (Listbox_delete index)) s1 else s1
      | None => set_frame (set_listbox (Listbox_delete index)) s
      end
  end.

End CustomLabelFrame.

(** The exclusions editor, with what it reaches of the main window: the two
    list frames, the manifest [self.root.gtnh_modpack], and, for
    [save_gtnh_manifest] (of a module this development has no code of), the
    manifests it has been handed, in order; then the lines printed. *)
Record HandleFileExclusionFrame : Type := {
  exclusion_frame_client : CustomLabelFrame;
  exclusion_frame_server : CustomLabelFrame;
  gtnh_modpack : GTNHModpack;
  saved : list GTNHModpack;
  printed : list string
}.

Definition set_client (f : CustomLabelFrame → CustomLabelFrame)
    (self : HandleFileExclusionFrame) : HandleFileExclusionFrame :=
  {| exclusion_frame_client := f (exclusion_frame_client self);
     exclusion_frame_server := exclusion_frame_server self;
     gtnh_modpack := gtnh_modpack self;
     saved := saved self;
     printed := printed self |}.

Definition set_server (f : CustomLabelFrame → CustomLabelFrame)
    (self : HandleFileExclusionFrame) : HandleFileExclusionFrame :=
  {| exclusion_frame_client := exclusion_frame_client self;
     exclusion_frame_server := f (exclusion_frame_server self);
     gtnh_modpack := gtnh_modpack self;
     saved := saved self;
     printed := printed self |}.

Definition set_gtnh_modpack (f : GTNHModpack → GTNHModpack)
    (self : HandleFileExclusionFrame) : HandleFileExclusionFrame :=
  {| exclusion_frame_client := exclusion_frame_client self;
     exclusion_frame_server := exclusion_frame_server self;
     gtnh_modpack := f (gtnh_modpack self);
     saved := saved self;
     printed := printed self |}.

Definition set_client_exclusions (xs : list string) (m : GTNHModpack) : GTNHModpack :=
  {| github_mods := github_mods m;
     client_exclusions := xs;
     server_exclusions := server_exclusions m;
     modpack_version := modpack_version m |}.

Definition set_server_exclusions (xs : list string) (m : GTNHModpack) : GTNHModpack :=
  {| github_mods := github_mods m;
     client_exclusions := client_exclusions m;
     server_exclusions := xs;
     modpack_version := modpack_version m |}.

(** [BaseFrame.save_gtnh_metadata]. *)
Definition save_gtnh_metadata (self : HandleFileExclusionFrame) : HandleFileExclusionFrame :=
  {| exclusion_frame_client := exclusion_frame_client self;
     exclusion_frame_server := exclusion_frame_server self;
     gtnh_modpack := gtnh_modpack self;
     saved := saved self ++ [gtnh_modpack self];
     printed := printed self ++ ["metadata saved!"] |}.

(** [HandleFileExclusionFrame.save(entry, mode)]. *)
Definition save (entry : string) (mode : string) (self : HandleFileExclusionFrame)
  : bool * HandleFileExclusionFrame :=
  let self1 :=
    if String.eqb mode "client" then
      let exclusions := get_listbox_content (exclusion_frame_client self) in
      let exclusions := if String.eqb entry "" then exclusions ++ [entry] else exclusions in
      set_gtnh_modpack (set_client_exclusions (sorted exclusions)) self
    else if String.eqb mode "server" then
      let exclusions := get_listbox_content (exclusion_frame_server self) in
      let exclusions := if String.eqb entry "" then exclusions ++ [entry] else exclusions in
      set_gtnh_modpack (set_server_exclusions (sorted exclusions)) self
    else self in
  (true, save_gtnh_metadata self1).

Definition add_client (entry : string) := save entry "client".
Definition add_server (entry : string) := save entry "server".
Definition del_client (_ : string) := save "" "client".
Definition del_server (_ : string) := save "" "server".

(** The two buttons of the client list, as the constructor wires them. *)
Definition client_add : HandleFileExclusionFrame → HandleFileExclusionFrame :=
  add exclusion_frame_client set_client (Some add_client).

Definition client_remove : HandleFileExclusionFrame → HandleFileExclusionFrame :=
  remove exclusion_frame_client set_client (Some del_client).

(** And of the server list. *)
Definition server_add : HandleFileExclusionFrame → HandleFileExclusionFrame :=
  add exclusion_frame_server set_server (Some add_server).

Definition server_remove : HandleFileExclusionFrame → HandleFileExclusionFrame :=
  remove exclusion_frame_server set_server (Some del_server).

(** What the user does between two presses: typing into the entry field of
    the client list, and selecting one of its items. *)
Definition type_client (text : string) : HandleFileExclusionFrame → HandleFileExclusionFrame :=
  set_client (λ frame, {| listbox := listbox frame; entry := text |}).

Definition select_client (index : nat) : HandleFileExclusionFrame → HandleFileExclusionFrame :=
  set_client (set_listbox (λ lb, {| items := items lb; curselection := Some index |})).

(** The editor as [HandleFileExclusionFrame.__init__] builds it. *)
Definition HandleFileExclusionFrame_init (m : GTNHModpack) : HandleFileExclusionFrame :=
  {| exclusion_frame_client :=
       {| listbox := {| items := sorted (client_exclusions m); curselection := None |};
          entry := "" |};
     exclusion_frame_server :=
       {| listbox := {| items := sorted (server_exclusions m); curselection := None |};
          entry := "" |};
     gtnh_modpack := m;
     saved := [];
     printed := [] |}.

End gui_frames.

(** ** gtnh.gui: the curse mods frame *)

Module gui_curse.
Import gui gui_frames.

(** The nine text fields of the frame. *)
Record Fields : Type := {
  sv_name : string;
  sv_page_url : string;
  sv_license : string;
  sv_version : string;
  sv_browser_url : string;
  sv_download_url : string;
  sv_release_date : string;
  sv_file_name : string;
  sv_maven_url : string
}.

(** The frame with what it reaches of the main window: the external mods
    of [self.root.gtnh_modpack], the lists of external mods handed to
    [save_gtnh_manifest], the lines printed and the error boxes shown. *)
Record AddCurseModFrame : Type := {
  fields : Fields;
  custom_label_frame : CustomLabelFrame;
  external_mods : list ModInfo;
  saved : list (list ModInfo);
  printed : list string;
  shown : list (string * string)
}.

Section AddCurseModFrame.

(** [ModInfo(name=..., ..., maven=...)], the constructor of a class this
    development has no code of: the mod, or nothing when the values are
    refused ([ValidationError]). *)
Variable ModInfo_new : Fields → option ModInfo.

(** [load_gtnh_manifest()], of a module this development has no code of:
    the external mods read back, given what has been saved. *)
Variable load_gtnh_manifest : list (list ModInfo) → list ModInfo.

(** [AddCurseModFrame.add]. *)
Definition add (self : AddCurseModFrame) : AddCurseModFrame :=
  match ModInfo_new (fields self) with
  | None =>
      {| fields := fields self;
         custom_label_frame := custom_label_frame self;
         external_mods := external_mods self;
         saved := saved self;
         printed := printed self;
         shown := shown self
                  ++ [("invalid date format",
                       sv_release_date (fields self)
                       +:+ " is an invalid format. It must be written as: YYYY-MM-DD hh:mm:ss")] |}
  | Some new_mod =>
      let external_mods' :=
        filter (λ mod_, name mod_ ≠ name new_mod) (external_mods self) ++ [new_mod] in
      let saved' := saved self ++ [external_mods'] in
      let content := get_listbox_content (custom_label_frame self) ++ [name new_mod] in
      let content := elements (list_to_set content : gset string) in
      {| fields := fields self;
         custom_label_frame :=
           {| listbox := {| items := sorted content; curselection := None |};
              entry := entry (custom_label_frame self) |};
         external_mods := load_gtnh_manifest saved';
         saved := saved';
         printed := printed self ++ ["metadata saved!"; "metadata loaded!"];
         shown := shown self |}
  end.

End AddCurseModFrame.

End gui_curse.

(** ** Vocabulary for the config entries of an archive *)

Module spec_config.
Import multi_poly spec.



End spec_config.

(** ** Further small inputs, used to run the statements *)

Module examples_more.
Import multi_poly pathlib_more gui spec examples gui_crawl gui_frames gui_curse.

(** The world with the archive open and the jar of mod B missing. *)
Definition world_missing : world :=
  set_fs (delete "cache/mods/B/B-v2.jar") world_open.

(** The world where the cached config bundle is not a zip. *)
Definition world_bad_bundle : world :=
  set_fs <["cache/config/config.zip" := bytes_of "not a zip"]> world0.

Definition RELEASE_MODRINTH_DIR0 : Path := pathlib.PurePath "releases/modrinth".

(** The cache directory of the GUI with files staged for both archives, and
    a client archive left by an earlier run. *)
Definition cache_dir0 : Path := pathlib.PurePath "/repo/cache".

Definition world_staged : world :=
  {| fs := list_to_map
             [("/repo/cache/client_archive/mods/a.jar", bytes_of "jar a");
              ("/repo/cache/client_archive/options.txt", bytes_of "fov=90");
              ("/repo/cache/server_archive/mods/a.jar", bytes_of "jar a");
              ("/repo/cache/server_archive/server.properties", bytes_of "pvp=true");
              ("/repo/cache/client-2.1.2.3.zip", Archive [("old.txt", bytes_of "old")])];
     calls := [];
     stdout := [] |}.

Definition client_paths0 : list Path :=
  [pathlib.PurePath "/repo/cache/client_archive/mods/a.jar";
   pathlib.PurePath "/repo/cache/client_archive/options.txt"].

Definition server_paths0 : list Path :=
  [pathlib.PurePath "/repo/cache/server_archive/mods/a.jar";
   pathlib.PurePath "/repo/cache/server_archive/server.properties"].

(** A path outside the staging folder of the client. *)
Definition foreign_path0 : Path := pathlib.PurePath "/repo/cache/mods/c.jar".


(** The exclusions editor of the small manifest, with a text typed into the
    entry field of the client list. *)
Definition editor0 : HandleFileExclusionFrame :=
  type_client "mods/x.jar" (HandleFileExclusionFrame_init modpack0).

(** A mod constructor that refuses an empty release date. *)
Definition ModInfo_new0 (f : Fields) : option gui.ModInfo :=
  if String.eqb (sv_release_date f) "" then None
  else Some {| gui.name := sv_name f; gui.side := "BOTH" |}.

Definition load_gtnh_manifest0 (written : list (list gui.ModInfo)) : list gui.ModInfo :=
  List.last written [].

Definition curse_frame0 : AddCurseModFrame :=
  {| fields := {| sv_name := "Forestry"; sv_page_url := ""; sv_license := "";
                  sv_version := "4.5"; sv_browser_url := ""; sv_download_url := "";
                  sv_release_date := "2022-01-01 00:00:00"; sv_file_name := "";
                  sv_maven_url := "" |};
     custom_label_frame :=
       {| listbox := {| items := ["Railcraft"; "Forestry"]; curselection := Some 1 |};
          entry := "" |};
     external_mods := [ {| gui.name := "Railcraft"; gui.side := "BOTH" |};
                        {| gui.name := "Forestry"; gui.side := "CLIENT" |} ];
     gui_curse.saved := [];
     gui_curse.printed := [];
     shown := [] |}.





End examples_more.

(** * Properties *)

(** ** Running statements *)

Module py_facts.

Lemma bind_run {A B : Type} (m : Py A) (k : A → Py B) (w : world) :
  (m ≫= k) w = match m w with
               | (Ok a, w') => k a w'
               | (Raise e, w') => (Raise e, w')
               end.
Proof. reflexivity. Qed.

Lemma bind_Ok {A B : Type} (m : Py A) (k : A → Py B) w a w1 :
  m w = (Ok a, w1) → (m ≫= k) w = k a w1.
Proof. intros H. rewrite bind_run, H. reflexivity. Qed.

Lemma bind_Raise {A B : Type} (m : Py A) (k : A → Py B) w e w1 :
  m w = (Raise e, w1) → (m ≫= k) w = (Raise e, w1).
Proof. intros H. rewrite bind_run, H. reflexivity. Qed.

Lemma bind_Ok_inv {A B : Type} (m : Py A) (k : A → Py B) w b w2 :
  (m ≫= k) w = (Ok b, w2) →
  ∃ a w1, m w = (Ok a, w1) ∧ k a w1 = (Ok b, w2).
Proof.
  rewrite bind_run. destruct (m w) as [[a|e] w1]; intros H.
  - exists a, w1. split; [reflexivity | exact H].
  - discriminate H.
Qed.

Lemma ret_run {A : Type} (a : A) (w : world) : (mret a : Py A) w = (Ok a, w).
Proof. reflexivity. Qed.

Lemma for_cons {A : Type} (x : A) xs (body : A → Py unit) w :
  for_ (x :: xs) body w = (body x ≫= λ _, for_ xs body) w.
Proof. reflexivity. Qed.

Lemma for_app {A : Type} (xs ys : list A) (body : A → Py unit) w :
  for_ (xs ++ ys) body w = (for_ xs body ≫= λ _, for_ ys body) w.
Proof.
  revert w. induction xs as [|x xs IH]; intros w; simpl.
  - reflexivity.
  - rewrite !bind_run. destruct (body x w) as [[[]|e] w1]; [|reflexivity].
    rewrite IH, bind_run. reflexivity.
Qed.

Lemma set_fs_fs f w : fs (set_fs f w) = f (fs w).
Proof. reflexivity. Qed.

Lemma world_eq (w1 w2 : world) :
  fs w1 = fs w2 → calls w1 = calls w2 → stdout w1 = stdout w2 → w1 = w2.
Proof. destruct w1, w2; simpl; intros -> -> ->; reflexivity. Qed.

End py_facts.

(** ** Paths *)

Module pathlib_facts.
Import pathlib spec.

Lemma append_cons (c : ascii) (s t : string) : String c s +:+ t = String c (s +:+ t).
Proof. reflexivity. Qed.

Lemma append_empty_l (s : string) : "" +:+ s = s.
Proof. reflexivity. Qed.

Lemma append_empty_r (s : string) : s +:+ "" = s.
Proof. induction s as [|c s IH]; [reflexivity | by rewrite append_cons, IH]. Qed.

Lemma append_assoc (a b c : string) : (a +:+ b) +:+ c = a +:+ (b +:+ c).
Proof. induction a as [|x a IH]; [reflexivity | by rewrite !append_cons, IH]. Qed.

Lemma append_inj_l (p a b : string) : p +:+ a = p +:+ b → a = b.
Proof.
  induction p as [|c p IH]; [done|]. rewrite !append_cons. intros [= H]. auto.
Qed.

Lemma split_nonempty (s : string) : split s ≠ [].
Proof.
  destruct s as [|c s]; simpl; [done|].
  destruct (Ascii.eqb c "/"); [done|]. by destruct (split s).
Qed.

Lemma split_no_sep (s : string) : has_sep s = false → split s = [s].
Proof.
  induction s as [|c s IH]; simpl; [done|].
  destruct (Ascii.eqb c "/"); simpl; [done|].
  intros H. by rewrite (IH H).
Qed.

Lemma split_pieces_no_sep (s : string) :
  Forall (λ x, has_sep x = false) (split s).
Proof.
  induction s as [|c s IH]; simpl.
  - by repeat constructor.
  - destruct (Ascii.eqb c "/") eqn:E.
    + by constructor.
    + destruct (split s) as [|piece pieces]; [by repeat constructor; simpl; rewrite E|].
      inversion IH as [|? ? Hp Hps]; subst. constructor; [|done].
      simpl. by rewrite E.
Qed.

Lemma PurePath_parts_no_sep (s : string) :
  Forall (λ x, has_sep x = false ∧ x ≠ "" ∧ x ≠ ".") (parts (PurePath s)).
Proof.
  unfold PurePath. destruct (splitroot s) as [r rel]; simpl.
  apply List.Forall_forall. intros x Hx. apply List.filter_In in Hx as [Hx Hk].
  split.
  - pose proof (split_pieces_no_sep rel) as H.
    rewrite List.Forall_forall in H. by apply H.
  - unfold keep_part in Hk. apply andb_true_iff in Hk as [H1 H2].
    apply negb_true_iff in H1, H2.
    apply String.eqb_neq in H1, H2. done.
Qed.

Lemma last_Forall {A : Type} (P : A → Prop) (l : list A) d :
  Forall P l → l ≠ [] → P (List.last l d).
Proof.
  induction l as [|x l IH]; [done|]. intros Hl _.
  inversion Hl; subst. destruct l as [|y l]; [done|].
  apply IH; [done|done].
Qed.

Lemma name_no_sep (s : string) : has_sep (name (PurePath s)) = false.
Proof.
  unfold name. destruct (parts (PurePath s)) as [|x l] eqn:E; [done|].
  pose proof (PurePath_parts_no_sep s) as H. rewrite E in H.
  by apply (last_Forall (λ x, has_sep x = false ∧ x ≠ "" ∧ x ≠ ".") _ "" H).
Qed.


Lemma splitroot_no_sep (s : string) : has_sep s = false → splitroot s = ("", s).
Proof.
  destruct s as [|c s]; [done|]. simpl.
  destruct (Ascii.eqb_spec c "/") as [->|Hc]; [done|]. intros _.
  destruct c as [[] [] [] [] [] [] [] []]; try reflexivity. by destruct Hc.
Qed.

(** A name without separator parses into itself as the only component. *)
Lemma PurePath_component (n : string) :
  has_sep n = false → n ≠ "" → n ≠ "." →
  PurePath n = {| root := ""; parts := [n] |}.
Proof.
  intros Hs H1 H2. unfold PurePath. rewrite (splitroot_no_sep _ Hs), (split_no_sep _ Hs).
  simpl. unfold keep_part.
  apply String.eqb_neq in H1, H2. by rewrite H1, H2.
Qed.

Lemma truediv_component (p : Path) (n : string) :
  has_sep n = false → n ≠ "" → n ≠ "." →
  p /: n = {| root := root p; parts := parts p ++ [n] |}.
Proof. intros Hs H1 H2. unfold truediv. by rewrite (PurePath_component _ Hs H1 H2). Qed.

Lemma join_snoc (ps : list string) (x : string) :
  ps ≠ [] → join (ps ++ [x]) = join ps +:+ "/" +:+ x.
Proof.
  unfold join. induction ps as [|p ps IH]; [done|]. intros _.
  destruct ps as [|q ps]; [reflexivity|].
  change (String.concat "/" ((p :: q :: ps) ++ [x]))
    with (p +:+ "/" +:+ String.concat "/" ((q :: ps) ++ [x])).
  rewrite IH by done.
  change (String.concat "/" (p :: q :: ps)) with (p +:+ "/" +:+ String.concat "/" (q :: ps)).
  by rewrite !append_assoc.
Qed.

Lemma has_sep_append (a b : string) : has_sep (a +:+ b) = has_sep a || has_sep b.
Proof.
  induction a as [|c a IH]; [reflexivity|].
  rewrite append_cons. simpl. by rewrite IH, orb_assoc.
Qed.

Lemma normpath_steps (rooted : bool) (ps acc : list string) :
  Forall (λ x, x ≠ "..") ps →
  fold_left (normpath_step rooted) ps acc = acc ++ ps.
Proof.
  revert acc. induction ps as [|p ps IH]; intros acc Hps; simpl.
  - by rewrite app_nil_r.
  - inversion Hps as [|? ? Hp Hrest]; subst. rewrite IH by done.
    unfold normpath_step. apply String.eqb_neq in Hp. rewrite Hp. simpl.
    by rewrite <- app_assoc.
Qed.

(** Without a parent link among the components, [normpath] changes nothing. *)
Lemma normpath_id (p : Path) : Forall (λ x, x ≠ "..") (parts p) → normpath p = p.
Proof.
  intros H. unfold normpath. rewrite normpath_steps by done. by destruct p.
Qed.

Lemma normpath_root (p : Path) : root (normpath p) = root p.
Proof. reflexivity. Qed.

Lemma truediv_root_relative (p : Path) (n : string) :
  has_sep n = false → root (p /: n) = root p.
Proof.
  intros Hs. unfold truediv, PurePath. rewrite (splitroot_no_sep _ Hs). reflexivity.
Qed.

End pathlib_facts.

(** ** Archives *)

Module zipfile_facts.
Import pathlib_facts py_facts.

Lemma is_dir_append (a b : string) : b ≠ "" → zipfile.is_dir (a +:+ b) = zipfile.is_dir b.
Proof.
  intros Hb. induction a as [|c a IH]; [reflexivity|].
  rewrite append_cons. simpl. rewrite IH.
  destruct (a +:+ b) eqn:E; [|reflexivity].
  destruct a; [by rewrite append_empty_l in E | by rewrite append_cons in E].
Qed.

Lemma NameToInfo_lookup_gen (members : list (string * file)) (d : gmap string file) item :
  item ∈ members.*1 ∨ is_Some (d !! item) →
  is_Some (foldl (λ d m, <[m.1 := m.2]> d) d members !! item).
Proof.
  revert d. induction members as [|[n x] members IH]; intros d; simpl.
  - intros [H|H]; [by apply elem_of_nil in H | done].
  - intros [H|H]; apply IH.
    + apply elem_of_cons in H as [->|H]; [right | by left].
      rewrite lookup_insert_eq. by eexists.
    + right. destruct (decide (n = item)) as [->|Hne].
      * rewrite lookup_insert_eq. by eexists.
      * by rewrite lookup_insert_ne.
Qed.

(** Every listed name can be opened. *)
Lemma NameToInfo_namelist (members : list (string * file)) item :
  item ∈ zipfile.namelist members → is_Some (zipfile.NameToInfo members !! item).
Proof. intros H. apply NameToInfo_lookup_gen. by left. Qed.

Lemma append_run closed archive arcname data w members :
  fs w !! archive = Some (Archive members) →
  zipfile.append closed archive arcname data w
  = (Ok tt, set_fs <[archive := Archive (members ++ [(arcname, data)])]> w).
Proof. intros H. unfold zipfile.append. by rewrite H. Qed.

Lemma append_Ok_inv closed archive arcname data w w' :
  zipfile.append closed archive arcname data w = (Ok tt, w') →
  ∃ members, fs w !! archive = Some (Archive members)
    ∧ w' = set_fs <[archive := Archive (members ++ [(arcname, data)])]> w.
Proof.
  unfold zipfile.append. destruct (fs w !! archive) as [[|members]|]; intros [= <-]; eauto.
Qed.

End zipfile_facts.

(** ** The MultiMC assembler *)

Module multi_poly_facts.
Import multi_poly spec pathlib_facts py_facts zipfile_facts.

Section facts.

Variable RELEASE_MMC_DIR : Path.
Variable MMC_PACK_JSON : string.
Variable cache : asset → GTNHVersion → option string.

(** Reporting progress touches neither the files nor standard output, and
    records one call when there is a callback. *)
Lemma update_progress_frame self side source_file w r w' :
  update_progress self side source_file w = (r, w') →
  fs w' = fs w ∧ stdout w' = stdout w.
Proof.
  unfold update_progress, call. destruct (callback self) as [cb|].
  - destruct (cb _ _ _); intros [= <- <-]; done.
  - intros [= <- <-]; done.
Qed.

Lemma config_members_skip self side config_zip item items :
  item ∈ exclusions self side →
  config_members self side config_zip (item :: items)
  = config_members self side config_zip items.
Proof. intros H. unfold config_members. simpl. by rewrite bool_decide_eq_true_2. Qed.

Lemma config_members_keep self side config_zip item items data :
  item ∉ exclusions self side →
  zipfile.NameToInfo config_zip !! item = Some data →
  config_members self side config_zip (item :: items)
  = (pathlib.str (mmc_modpack_files self) +:+ "/" +:+ item, data)
      :: config_members self side config_zip items.
Proof.
  intros H Hd. unfold config_members. simpl.
  rewrite bool_decide_eq_false_2 by done. by rewrite Hd.
Qed.

(** The loop of [add_config] completes and appends exactly the members of
    [config_members], leaving every other file as it was. *)
Lemma add_config_items_run self side config_zip archive items w members :
  items ⊆ zipfile.namelist config_zip →
  fs w !! archive = Some (Archive members) →
  ∃ w', for_ items (add_config_item self side config_zip archive) w = (Ok tt, w')
    ∧ fs w' = <[archive := Archive (members ++ config_members self side config_zip items)]> (fs w)
    ∧ calls w' = calls w ∧ stdout w' = stdout w.
Proof.
  revert w members. induction items as [|item items IH]; intros w members Hsub Hw.
  - exists w. repeat split; try done.
    unfold config_members. simpl. rewrite app_nil_r. by rewrite insert_id.
  - assert (Hitem : item ∈ zipfile.namelist config_zip) by (apply Hsub; left).
    assert (Hrest : items ⊆ zipfile.namelist config_zip).
    { intros x Hx. apply Hsub. by right. }
    rewrite for_cons, bind_run. unfold add_config_item at 1.
    destruct (decide (item ∈ exclusions self side)) as [Hex|Hex].
    + rewrite bool_decide_eq_true_2 by done. rewrite ret_run.
      rewrite (config_members_skip _ _ _ _ _ Hex). by apply IH.
    + rewrite bool_decide_eq_false_2 by done.
      destruct (NameToInfo_namelist _ _ Hitem) as [data Hd].
      unfold zipfile.read. rewrite Hd.
      rewrite (bind_Ok _ _ _ data w) by done.
      unfold zipfile.open_write. rewrite (append_run _ _ _ _ _ _ Hw).
      rewrite (config_members_keep _ _ _ _ _ _ Hex Hd).
      destruct (IH (set_fs <[archive := Archive (members ++
                  [(pathlib.str (mmc_modpack_files self) +:+ "/" +:+ item, data)])]> w)
                  (members ++ [(pathlib.str (mmc_modpack_files self) +:+ "/" +:+ item, data)])
                  Hrest) as (w' & Hrun & Hfs & Hc & Ho).
      { rewrite set_fs_fs. apply lookup_insert_eq. }
      exists w'. split; [exact Hrun|]. rewrite Hfs, set_fs_fs, insert_insert_eq.
      by rewrite <- app_assoc.
Qed.


(** What a completed [add_config] has done: the bundle was found in the
    cache and read, the callback was told once, and the archive grew by
    [config_members] of the whole bundle. *)
Lemma add_config_Ok_inv self side c v archive members w w' :
  fs w !! archive = Some (Archive members) →
  add_config cache self side (c, v) archive w = (Ok tt, w') →
  ∃ location config_zip w1,
    cache (ConfigAsset c) v = Some location
    ∧ fs w !! pathlib.str (pathlib.PurePath location) = Some (Archive config_zip)
    ∧ update_progress self side (pathlib.PurePath location) w = (Ok tt, w1)
    ∧ fs w' = <[archive := Archive (members ++
                 config_members self side config_zip (zipfile.namelist config_zip))]> (fs w)
    ∧ calls w' = calls w1.
Proof.
  intros Ha. unfold add_config, get_asset_version_cache_location.
  destruct (cache (ConfigAsset c) v) as [location|]; [|discriminate].
  rewrite (bind_Ok _ _ _ (pathlib.PurePath location) w) by done.
  rewrite bind_run. unfold zipfile.open_r at 1.
  destruct (fs w !! pathlib.str (pathlib.PurePath location)) as [[|config_zip]|] eqn:Hz;
    [discriminate| |discriminate].
  rewrite bind_run.
  destruct (update_progress self side (pathlib.PurePath location) w) as [[[]|e] w1] eqn:Hu;
    [|discriminate].
  destruct (update_progress_frame _ _ _ _ _ _ Hu) as [Hfs1 Ho1].
  destruct (add_config_items_run self side config_zip archive
              (zipfile.namelist config_zip) w1 members) as (w2 & Hrun & Hfs & Hcalls & Ho);
    [done | by rewrite Hfs1 |].
  rewrite Hrun. intros [= <-]. exists location, config_zip, w1.
  repeat split; try done. by rewrite Hfs, Hfs1.
Qed.

(** *** Adding the mods *)

Lemma archive_root_cons self :
  archive_root self = String "G" ("T New Horizons " +:+ version (release self)).
Proof. reflexivity. Qed.

Lemma mmc_archive_root_relative self : pathlib.root (mmc_archive_root self) = "".
Proof.
  unfold mmc_archive_root. fold (archive_root self). rewrite archive_root_cons.
  reflexivity.
Qed.

Lemma mmc_modpack_mods_relative self : pathlib.root (mmc_modpack_mods self) = "".
Proof.
  unfold mmc_modpack_mods, mmc_modpack_files.
  rewrite !truediv_root_relative by reflexivity. apply mmc_archive_root_relative.
Qed.

Lemma from_file_relative (arcname : Path) :
  pathlib.root arcname = "" →
  zipfile.from_file arcname = mret (pathlib.str (pathlib.normpath arcname)).
Proof.
  intros H. unfold zipfile.from_file. rewrite pathlib_facts.normpath_root, H. reflexivity.
Qed.

(** One turn of the loop of [add_mods]: the cache is asked, progress is
    reported, the path is printed, and only then the file is written. *)
Lemma add_mods_cons self side mod_ version rest archive members w :
  fs w !! archive = Some (Archive members) →
  add_mods cache self side ((mod_, version) :: rest) archive w
  = match cache (ModAsset mod_) version with
    | None => (Raise (FileNotFoundError (version_tag version)), w)
    | Some location =>
        match update_progress self side (pathlib.PurePath location) w with
        | (Raise e, w1) => (Raise e, w1)
        | (Ok _, w1) =>
            let w2 := {| fs := fs w1; calls := calls w1;
                         stdout := stdout w1 ++ [pathlib.str (mmc_modpack_mods self
                                      /: pathlib.name (pathlib.PurePath location))] |} in
            match fs w2 !! pathlib.str (pathlib.PurePath location) with
            | None => (Raise (FileNotFoundError (pathlib.str (pathlib.PurePath location))), w2)
            | Some data =>
                match zipfile.append zipfile.closed_for_write archive
                        (mod_member_name self location) data w2 with
                | (Ok _, w3) => add_mods cache self side rest archive w3
                | (Raise e, w3) => (Raise e, w3)
                end
            end
        end
    end.
Proof.
  intros Ha. unfold add_mods at 1. rewrite for_cons, bind_run.
  unfold get_asset_version_cache_location.
  destruct (cache (ModAsset mod_) version) as [location|]; [|reflexivity].
  rewrite (bind_Ok _ _ _ (pathlib.PurePath location) w) by done.
  rewrite bind_run.
  destruct (update_progress self side (pathlib.PurePath location) w) as [[[]|e] w1] eqn:Hu;
    [|reflexivity].
  destruct (update_progress_frame _ _ _ _ _ _ Hu) as [Hfs1 _].
  rewrite bind_run. unfold print at 1. cbv zeta.
  unfold zipfile.write. simpl fs. rewrite Hfs1, Ha.
  destruct (fs w !! pathlib.str (pathlib.PurePath location)) as [data|]; [|reflexivity].
  rewrite from_file_relative.
  2:{ rewrite truediv_root_relative by apply name_no_sep.
      apply mmc_modpack_mods_relative. }
  rewrite (bind_Ok _ _ _ (mod_member_name self location) _) by done.
  reflexivity.
Qed.

Lemma cached_cons mod_ version mods :
  cached cache ((mod_, version) :: mods)
  = match cache (ModAsset mod_) version with
    | Some location => location :: cached cache mods
    | None => cached cache mods
    end.
Proof. reflexivity. Qed.

(** What a completed [add_mods] has done: every mod had a cached location,
    one member per mod was appended in order, and the callback, when there is
    one, was told once per mod. *)
Lemma add_mods_Ok_inv self side mods archive members w w' :
  fs w !! archive = Some (Archive members) →
  add_mods cache self side mods archive w = (Ok tt, w') →
  ∃ written,
    length (cached cache mods) = length mods
    ∧ fs w' = <[archive := Archive (members ++ written)]> (fs w)
    ∧ written.*1 = mod_member_name self <$> cached cache mods
    ∧ calls w' = calls w ++ (match callback self with
                             | Some _ => reports self side (cached cache mods)
                             | None => []
                             end).
Proof.
  revert members w. induction mods as [|[mod_ version] mods IH]; intros members w Ha.
  - intros [= <-]. exists []. rewrite app_nil_r.
    split; [reflexivity|]. split; [symmetry; by apply insert_id|].
    split; [reflexivity|]. destruct (callback self); simpl; by rewrite app_nil_r.
  - rewrite (add_mods_cons _ _ _ _ _ _ _ _ Ha), cached_cons.
    destruct (cache (ModAsset mod_) version) as [location|]; [|discriminate].
    destruct (update_progress self side (pathlib.PurePath location) w) as [[[]|e] w1] eqn:Hu;
      [|discriminate].
    destruct (update_progress_frame _ _ _ _ _ _ Hu) as [Hfs1 Ho1].
    cbv zeta. simpl fs.
    destruct (fs w1 !! pathlib.str (pathlib.PurePath location)) as [data|]; [|discriminate].
    rewrite (append_run _ _ _ _ _ members) by (simpl; by rewrite Hfs1).
    intros Hrun. apply IH with (members := members ++ [(mod_member_name self location, data)])
      in Hrun as (written & Hlen & Hfs & Hnames & Hcalls).
    2:{ simpl. apply lookup_insert_eq. }
    exists ((mod_member_name self location, data) :: written).
    split; [simpl; by rewrite Hlen|]. split; [|split].
    + rewrite Hfs. simpl. rewrite Hfs1, insert_insert_eq. by rewrite <- app_assoc.
    + by rewrite !fmap_cons, Hnames.
    + rewrite Hcalls. simpl. revert Hu. unfold update_progress, call.
      destruct (callback self) as [cb|].
      * destruct (cb _ _ _); intros [= <-]. simpl. by rewrite <- app_assoc.
      * intros [= <-]. reflexivity.
Qed.

(** *** The layout of the archive *)

Lemma archive_root_component self :
  has_sep (version (release self)) = false →
  mmc_archive_root self = {| pathlib.root := ""; pathlib.parts := [archive_root self] |}.
Proof.
  intros Hv. unfold mmc_archive_root. fold (archive_root self).
  apply PurePath_component.
  - unfold archive_root. by rewrite has_sep_append, Hv.
  - by rewrite archive_root_cons.
  - by rewrite archive_root_cons.
Qed.




Lemma config_members_elem self side config_zip items item data :
  item ∈ items → item ∉ exclusions self side →
  zipfile.NameToInfo config_zip !! item = Some data →
  (pathlib.str (mmc_modpack_files self) +:+ "/" +:+ item, data)
    ∈ config_members self side config_zip items.
Proof.
  intros Hin Hex Hd. unfold config_members. apply list_elem_of_omap.
  exists item. split; [done|]. rewrite bool_decide_eq_false_2 by done. by rewrite Hd.
Qed.

(** C5. A config bundle entry whose path ends in the separator, that is a
    directory entry, is written (when it is not excluded) under a name that
    ends in the separator too, so that the archive records a directory and
    not a regular file, and with the content the bundle has for it, which is
    empty when the bundle's is. *)
Theorem add_config_keeps_directories
    self side c v archive location config_zip members w w' item :
  cache (ConfigAsset c) v = Some location →
  fs w !! pathlib.str (pathlib.PurePath location) = Some (Archive config_zip) →
  fs w !! archive = Some (Archive members) →
  add_config cache self side (c, v) archive w = (Ok tt, w') →
  item ∈ zipfile.namelist config_zip →
  item ∉ exclusions self side →
  zipfile.is_dir item = true →
  ∃ written data,
    fs w' = <[archive := Archive (members ++ written)]> (fs w)
    ∧ zipfile.NameToInfo config_zip !! item = Some data
    ∧ (pathlib.str (mmc_modpack_files self) +:+ "/" +:+ item, data) ∈ written
    ∧ zipfile.is_dir (pathlib.str (mmc_modpack_files self) +:+ "/" +:+ item) = true
    ∧ (data = Regular [] →
       (pathlib.str (mmc_modpack_files self) +:+ "/" +:+ item, Regular []) ∈ written).
Proof.
  intros Hc Hz Ha Hrun Hin Hex Hdir.
  destruct (add_config_Ok_inv _ _ _ _ _ _ _ _ Ha Hrun)
    as (location' & config_zip' & w1 & Hc' & Hz' & _ & Hfs & _).
  rewrite Hc in Hc'. injection Hc' as <-. rewrite Hz in Hz'. injection Hz' as <-.
  destruct (NameToInfo_namelist _ _ Hin) as [data Hd].
  exists (config_members self side config_zip (zipfile.namelist config_zip)), data.
  pose proof (config_members_elem _ _ _ _ _ _ Hin Hex Hd) as Helem.
  split; [done|]. split; [done|]. split; [done|]. split.
  - rewrite is_dir_append by done. rewrite is_dir_append; [done|].
    intros ->. discriminate Hdir.
  - by intros <-.
Qed.

(** *** The launcher metadata and the side check *)

(** [add_mmc_meta_data] always completes: the archive at the destination
    gets one more member, after those it had (none for a missing file). *)
Lemma add_mmc_meta_data_run self side w :
  ∃ w',
    add_mmc_meta_data RELEASE_MMC_DIR MMC_PACK_JSON self side w = (Ok tt, w')
    ∧ fs w' = <[pathlib.str (get_archive_path RELEASE_MMC_DIR self side) :=
                 Archive (match fs w !! pathlib.str (get_archive_path RELEASE_MMC_DIR self side) with
                          | Some (Archive members) => members
                          | _ => []
                          end
                          ++ [(pathlib.str (mmc_archive_root self) +:+ "/mmc-pack.json",
                               Regular (list_byte_of_string MMC_PACK_JSON))])]> (fs w)
    ∧ calls w' = calls w ∧ stdout w' = stdout w.
Proof.
  unfold add_mmc_meta_data. cbv zeta.
  set (archive := pathlib.str (get_archive_path RELEASE_MMC_DIR self side)).
  rewrite bind_run. unfold zipfile.open_a, zipfile.writestr.
  destruct (fs w !! archive) as [[data|members]|] eqn:Ha.
  - erewrite append_run by (rewrite set_fs_fs; apply lookup_insert_eq).
    eexists. split; [reflexivity|]. simpl. by rewrite insert_insert_eq.
  - erewrite append_run by exact Ha.
    eexists. split; [reflexivity|]. done.
  - erewrite append_run by (rewrite set_fs_fs; apply lookup_insert_eq).
    eexists. split; [reflexivity|]. simpl. by rewrite insert_insert_eq.
Qed.

(** C3. The launcher-format [assemble] raises the invalid-argument error
    (ValueError) if and only if the side is not CLIENT, and it does so before
    anything else happens: the world, and so every file, is as it was. The
    base class's [assemble] is any statement that does not itself refuse
    CLIENT. *)
Theorem assemble_side_check
    (GenericAssembler_assemble : Assembler → Side → Py unit) self side w :
  (∀ msg, (GenericAssembler_assemble self CLIENT w).1 ≠ Raise (ValueError msg)) →
  ((∃ msg, (assemble RELEASE_MMC_DIR MMC_PACK_JSON GenericAssembler_assemble self side w).1
           = Raise (ValueError msg)) ↔ side ≠ CLIENT)
  ∧ (side ≠ CLIENT →
     (assemble RELEASE_MMC_DIR MMC_PACK_JSON GenericAssembler_assemble self side w).2 = w).
Proof.
  intros Hbase. unfold assemble.
  destruct (decide (side = CLIENT)) as [->|Hside].
  - rewrite bool_decide_eq_false_2 by (by intros ?). split; [|done].
    split; [|done]. intros [msg Hmsg]. exfalso. revert Hmsg.
    rewrite bind_run.
    destruct (GenericAssembler_assemble self CLIENT w) as [[[]|e] w1] eqn:Hg.
    + rewrite bool_decide_eq_true_2 by done.
      destruct (add_mmc_meta_data_run self CLIENT w1) as (w2 & -> & _). done.
    + simpl. intros [= ->]. by apply (Hbase msg).
  - rewrite bool_decide_eq_true_2 by done. split; [|done].
    split; [done|]. intros _. eexists. reflexivity.
Qed.

(** C6. Once the base [assemble] has completed for the launcher format and
    left its archive at the destination, the archive is opened again to
    append and exactly one member is added at its end, at
    [<archive-root>/mmc-pack.json], with the bytes of the constant
    [MMC_PACK_JSON], which is no part of the release. The members already in
    the archive and every other file stay as they were, and the callback is
    not called again. *)
Theorem mmc_meta_data_appended
    (GenericAssembler_assemble : Assembler → Side → Py unit) self members w w1 :
  GenericAssembler_assemble self CLIENT w = (Ok tt, w1) →
  fs w1 !! pathlib.str (get_archive_path RELEASE_MMC_DIR self CLIENT) = Some (Archive members) →
  ∃ w2,
    assemble RELEASE_MMC_DIR MMC_PACK_JSON GenericAssembler_assemble self CLIENT w = (Ok tt, w2)
    ∧ fs w2 = <[pathlib.str (get_archive_path RELEASE_MMC_DIR self CLIENT) :=
                 Archive (members
                          ++ [(pathlib.str (mmc_archive_root self) +:+ "/mmc-pack.json",
                               Regular (list_byte_of_string MMC_PACK_JSON))])]> (fs w1)
    ∧ calls w2 = calls w1 ∧ stdout w2 = stdout w1
    ∧ (has_sep (version (release self)) = false →
       pathlib.str (mmc_archive_root self) +:+ "/mmc-pack.json"
       = archive_root self +:+ "/mmc-pack.json").
Proof.
  intros Hg Ha. unfold assemble.
  rewrite bool_decide_eq_false_2 by (by intros ?).
  rewrite (bind_Ok _ _ _ tt w1 Hg).
  rewrite bool_decide_eq_true_2 by done.
  destruct (add_mmc_meta_data_run self CLIENT w1) as (w2 & Hrun & Hfs & Hc & Ho).
  exists w2. rewrite Ha in Hfs. repeat split; try done.
  intros Hv. by rewrite (archive_root_component _ Hv).
Qed.

(** *** The progress callback *)

Lemma add_mods_app self side before rest archive w :
  add_mods cache self side (before ++ rest) archive w
  = (add_mods cache self side before archive
       ≫= λ _, add_mods cache self side rest archive) w.
Proof. unfold add_mods. apply for_app. Qed.

Lemma update_progress_call self cb side source_file w :
  callback self = Some cb →
  update_progress self side source_file w
  = call cb (delta_progress self)
      ("Packing " +:+ Side_str side +:+ " archive version "
       +:+ version (release self) +:+ ": " +:+ pathlib.str source_file
       +:+ ". Progress: {0}%") w.
Proof. intros H. unfold update_progress. by rewrite H. Qed.

(** While the callback returns and the cached files are there, [add_mods]
    completes: one member per mod, in order. *)
Lemma add_mods_run self cb side mods archive members w :
  callback self = Some cb →
  Forall (λ mv, is_Some (cache (ModAsset mv.1) mv.2)) mods →
  Forall (λ loc, is_Some (fs w !! pathlib.str (pathlib.PurePath loc))) (cached cache mods) →
  returns cb (calls w) (reports self side (cached cache mods)) = true →
  fs w !! archive = Some (Archive members) →
  ∃ w' written,
    add_mods cache self side mods archive w = (Ok tt, w')
    ∧ fs w' = <[archive := Archive (members ++ written)]> (fs w)
    ∧ written.*1 = mod_member_name self <$> cached cache mods
    ∧ calls w' = calls w ++ reports self side (cached cache mods).
Proof.
  intros Hcb. revert members w.
  induction mods as [|[mod_ version] mods IH]; intros members w Hres Hfiles Hret Ha.
  - exists w, []. rewrite !app_nil_r. repeat split; try done.
    symmetry. by apply insert_id.
  - inversion Hres as [|? ? [location Hloc] Hres']; subst. simpl in Hloc.
    rewrite (add_mods_cons _ _ _ _ _ _ _ _ Ha). rewrite cached_cons, Hloc in Hfiles, Hret |- *.
    inversion Hfiles as [|? ? [data Hdata] Hfiles']; subst.
    rewrite (update_progress_call _ _ _ _ _ Hcb). unfold call at 1.
    simpl in Hret. fold (progress_label self side location).
    destruct (cb (calls w) (delta_progress self) (progress_label self side location));
      [discriminate|].
    cbv zeta. simpl fs. rewrite Hdata.
    rewrite (append_run _ _ _ _ _ members) by exact Ha.
    edestruct (IH (members ++ [(mod_member_name self location, data)]))
      as (w' & written & Hrun & Hfs & Hnames & Hcalls); [exact Hres'| | | |].
    4:{ exists w', ((mod_member_name self location, data) :: written).
        split; [exact Hrun|]. split; [|split].
        - rewrite Hfs. simpl. rewrite insert_insert_eq. by rewrite <- app_assoc.
        - by rewrite !fmap_cons, Hnames.
        - rewrite Hcalls. simpl. by rewrite <- app_assoc. }
    + simpl. eapply Forall_impl; [exact Hfiles'|]. intros loc Hl. simpl in Hl.
      destruct (decide (archive = pathlib.str (pathlib.PurePath loc))) as [<-|Hne].
      * rewrite lookup_insert_eq. by eexists.
      * by rewrite lookup_insert_ne.
    + simpl. exact Hret.
    + simpl. apply lookup_insert_eq.
Qed.

(** When the callback raises at a mod, [add_mods] stops there, before the
    mod is written. *)
Lemma add_mods_callback_raises self cb side mod_ version rest archive members location what w :
  callback self = Some cb →
  fs w !! archive = Some (Archive members) →
  cache (ModAsset mod_) version = Some location →
  cb (calls w) (delta_progress self) (progress_label self side location) = Some what →
  ∃ w', add_mods cache self side ((mod_, version) :: rest) archive w
        = (Raise (CallbackRaised what), w')
        ∧ fs w' = fs w.
Proof.
  intros Hcb Ha Hloc Hraise. rewrite (add_mods_cons _ _ _ _ _ _ _ _ Ha), Hloc.
  rewrite (update_progress_call _ _ _ _ _ Hcb). unfold call.
  fold (progress_label self side location). rewrite Hraise.
  eexists. split; reflexivity.
Qed.

(** C7. When the progress callback raises while the k-th included mod is
    being processed (it has returned for the k-1 mods before it, whose cached
    files are there), the exception leaves [assemble] as it was raised, and
    the archive holds exactly the members of the first k-1 mods: neither the
    k-th mod nor anything after it has been written. *)
Theorem callback_exception_aborts
    self cb before mod_k version_k after location_k what w :
  callback self = Some cb →
  get_mods self CLIENT = before ++ (mod_k, version_k) :: after →
  Forall (λ mv, is_Some (cache (ModAsset mv.1) mv.2)) before →
  Forall (λ loc, is_Some (fs w !! pathlib.str (pathlib.PurePath loc))) (cached cache before) →
  cache (ModAsset mod_k) version_k = Some location_k →
  returns cb (calls w) (reports self CLIENT (cached cache before)) = true →
  cb (calls w ++ reports self CLIENT (cached cache before)) (delta_progress self)
     (progress_label self CLIENT location_k) = Some what →
  ∃ w' written,
    MMCAssembler_assemble RELEASE_MMC_DIR MMC_PACK_JSON cache self CLIENT w
    = (Raise (CallbackRaised what), w')
    ∧ fs w' !! pathlib.str (get_archive_path RELEASE_MMC_DIR self CLIENT)
      = Some (Archive written)
    ∧ written.*1 = mod_member_name self <$> cached cache before
    ∧ length written = length before.
Proof.
  intros Hcb Hmods Hres Hfiles Hloc Hret Hraise.
  set (archive := pathlib.str (get_archive_path RELEASE_MMC_DIR self CLIENT)).
  set (w0 := set_fs <[archive := Archive []]> w).
  destruct (add_mods_run self cb CLIENT before archive [] w0 Hcb Hres)
    as (w1 & written & Hrun & Hfs & Hnames & Hcalls).
  { eapply Forall_impl; [exact Hfiles|]. intros loc Hl. simpl in Hl. unfold w0.
    rewrite set_fs_fs.
    destruct (decide (archive = pathlib.str (pathlib.PurePath loc))) as [<-|Hne].
    - rewrite lookup_insert_eq. by eexists.
    - by rewrite lookup_insert_ne. }
  { exact Hret. }
  { unfold w0. rewrite set_fs_fs. apply lookup_insert_eq. }
  destruct (add_mods_callback_raises self cb CLIENT mod_k version_k after archive
              ([] ++ written) location_k what w1 Hcb) as (w2 & Hstop & Hfs2).
  { rewrite Hfs. apply lookup_insert_eq. }
  { exact Hloc. }
  { rewrite Hcalls. exact Hraise. }
  exists w2, written.
  split; [|split; [|split]].
  - unfold MMCAssembler_assemble, assemble.
    rewrite bool_decide_eq_false_2 by (by intros ?).
    apply bind_Raise. unfold GenericAssembler_assemble.
    rewrite bool_decide_eq_false_2 by done. cbv zeta. fold archive.
    rewrite (bind_Ok _ _ _ tt w0) by done.
    apply bind_Raise. rewrite Hmods, add_mods_app.
    rewrite (bind_Ok _ _ _ tt w1 Hrun). exact Hstop.
  - rewrite Hfs2, Hfs. apply lookup_insert_eq.
  - exact Hnames.
  - rewrite <- (length_fmap fst written), Hnames, length_fmap.
    clear -Hres. induction Hres as [|[m v] l [loc Hl] _ IH]; [done|].
    simpl in Hl. rewrite cached_cons, Hl. simpl. by rewrite IH.
Qed.

Lemma Qsum_app (xs ys : list Q) : (Qsum (xs ++ ys) == Qsum xs + Qsum ys)%Q.
Proof.
  induction xs as [|x xs IH]; simpl.
  - unfold Qsum at 2. simpl. by rewrite Qplus_0_l.
  - unfold Qsum in *. simpl. rewrite IH. apply Qplus_assoc.
Qed.

Lemma Qsum_reports self side locations :
  (Qsum (reports self side locations).*1
   == inject_Z (Z.of_nat (length locations)) * delta_progress self)%Q.
Proof.
  induction locations as [|loc locations IH].
  - unfold Qsum. simpl. by rewrite Qmult_0_l.
  - unfold reports in *. rewrite !fmap_cons. unfold Qsum in *.
    cbn [foldr fst length]. rewrite IH.
    rewrite Nat2Z.inj_succ. unfold Z.succ. rewrite inject_Z_plus. ring.
Qed.

(** C8. Over one completed [assemble(side)] with a callback, the callback is
    called exactly once per included mod and once for the config step, and
    when the increment is 100 / total_steps with
    total_steps = count(included mods) + 1 the increments it was given add up
    to 100. *)
Theorem progress_accounting self cb side w w' :
  callback self = Some cb →
  (delta_progress self
   == 100 / inject_Z (Z.of_nat (length (get_mods self side) + 1)))%Q →
  MMCAssembler_assemble RELEASE_MMC_DIR MMC_PACK_JSON cache self side w = (Ok tt, w') →
  ∃ rs,
    calls w' = calls w ++ rs
    ∧ length rs = length (get_mods self side) + 1
    ∧ (Qsum rs.*1 == 100)%Q.
Proof.
  intros Hcb Hdelta. unfold MMCAssembler_assemble, assemble.
  destruct (decide (side = CLIENT)) as [->|Hside];
    [|by rewrite bool_decide_eq_true_2].
  rewrite bool_decide_eq_false_2 by (by intros ?).
  intros Hrun. apply bind_Ok_inv in Hrun as ([] & w3 & Hgen & Hmeta).
  rewrite bool_decide_eq_true_2 in Hmeta by done.
  destruct (add_mmc_meta_data_run self CLIENT w3) as (w4 & Hmeta' & _ & Hc4 & _).
  rewrite Hmeta' in Hmeta. injection Hmeta as <-.
  revert Hgen. unfold GenericAssembler_assemble.
  rewrite bool_decide_eq_false_2 by done. cbv zeta.
  set (archive := pathlib.str (get_archive_path RELEASE_MMC_DIR self CLIENT)).
  set (w0 := set_fs <[archive := Archive []]> w).
  rewrite (bind_Ok _ _ _ tt w0) by done.
  intros Hgen. apply bind_Ok_inv in Hgen as ([] & w1 & Hmods & Hcfg).
  destruct (add_mods_Ok_inv self CLIENT (get_mods self CLIENT) archive [] w0 w1)
    as (written & Hlen & Hfs1 & _ & Hc1); [apply lookup_insert_eq | exact Hmods |].
  rewrite Hcb in Hc1.
  destruct (release_config (release self)) as [c v].
  destruct (add_config_Ok_inv self CLIENT c v archive ([] ++ written) w1 w3)
    as (location & config_zip & w2 & _ & _ & Hu & _ & Hc3);
    [rewrite Hfs1; apply lookup_insert_eq | exact Hcfg |].
  rewrite (update_progress_call _ _ _ _ _ Hcb) in Hu. unfold call in Hu.
  fold (progress_label self CLIENT location) in Hu.
  destruct (cb (calls w1) (delta_progress self) (progress_label self CLIENT location));
    [discriminate|].
  injection Hu as <-. simpl in Hc3.
  exists (reports self CLIENT (cached cache (get_mods self CLIENT) ++ [location])).
  split; [|split].
  - rewrite Hc4, Hc3, Hc1. unfold reports. rewrite fmap_app, <- app_assoc. reflexivity.
  - unfold reports. rewrite length_fmap, length_app, Hlen. reflexivity.
  - rewrite Qsum_reports, length_app, Hlen. simpl length. rewrite Hdelta.
    field. intros H. unfold Qeq in H. simpl in H. lia.
Qed.

(** *** Completion *)

Lemma returns_app cb history xs ys :
  returns cb history (xs ++ ys)
  = returns cb history xs && returns cb (history ++ xs) ys.
Proof.
  revert history. induction xs as [|x xs IH]; intros history; simpl.
  - by rewrite app_nil_r.
  - destruct (cb history x.1 x.2); [reflexivity|].
    rewrite IH. by rewrite <- app_assoc.
Qed.

(** While the callback returns and the bundle is in the cache, [add_config]
    completes. *)
Lemma add_config_run self cb side c v archive members location config_zip w :
  callback self = Some cb →
  cache (ConfigAsset c) v = Some location →
  fs w !! pathlib.str (pathlib.PurePath location) = Some (Archive config_zip) →
  cb (calls w) (delta_progress self) (progress_label self side location) = None →
  fs w !! archive = Some (Archive members) →
  ∃ w',
    add_config cache self side (c, v) archive w = (Ok tt, w')
    ∧ fs w' = <[archive := Archive (members ++
                 config_members self side config_zip (zipfile.namelist config_zip))]> (fs w)
    ∧ calls w' = calls w ++ [(delta_progress self, progress_label self side location)].
Proof.
  intros Hcb Hc Hz Hret Ha. unfold add_config, get_asset_version_cache_location.
  rewrite Hc. rewrite (bind_Ok _ _ _ (pathlib.PurePath location) w) by done.
  rewrite (bind_Ok _ _ _ config_zip w) by (unfold zipfile.open_r; by rewrite Hz).
  rewrite bind_run, (update_progress_call _ _ _ _ _ Hcb). unfold call.
  fold (progress_label self side location). rewrite Hret.
  edestruct (add_config_items_run self side config_zip archive
               (zipfile.namelist config_zip)) as (w2 & Hrun & Hfs & Hcalls & Ho);
    [done | | ].
  2:{ rewrite Hrun. exists w2. split; [reflexivity|]. split; [exact Hfs | exact Hcalls]. }
  exact Ha.
Qed.

(** X2. The launcher-format [assemble(CLIENT)] completes whenever the
    callback returns from every report, the included mods are in the cache
    with their files in place, and the config bundle is a cached archive
    (elsewhere than at the destination). The archive then holds one member
    per included mod, the config entries outside the exclusions and the
    metadata entry, in this order. *)
Theorem assemble_completes self cb c v location config_zip w :
  callback self = Some cb →
  Forall (λ mv, is_Some (cache (ModAsset mv.1) mv.2)) (get_mods self CLIENT) →
  Forall (λ loc, is_Some (fs w !! pathlib.str (pathlib.PurePath loc)))
    (cached cache (get_mods self CLIENT)) →
  release_config (release self) = (c, v) →
  cache (ConfigAsset c) v = Some location →
  fs w !! pathlib.str (pathlib.PurePath location) = Some (Archive config_zip) →
  pathlib.str (pathlib.PurePath location)
    ≠ pathlib.str (get_archive_path RELEASE_MMC_DIR self CLIENT) →
  returns cb (calls w)
    (reports self CLIENT (cached cache (get_mods self CLIENT) ++ [location])) = true →
  ∃ w' mod_members,
    MMCAssembler_assemble RELEASE_MMC_DIR MMC_PACK_JSON cache self CLIENT w = (Ok tt, w')
    ∧ fs w' = <[pathlib.str (get_archive_path RELEASE_MMC_DIR self CLIENT) :=
                 Archive (mod_members
                          ++ config_members self CLIENT config_zip (zipfile.namelist config_zip)
                          ++ [(pathlib.str (mmc_archive_root self) +:+ "/mmc-pack.json",
                               Regular (list_byte_of_string MMC_PACK_JSON))])]> (fs w)
    ∧ mod_members.*1 = mod_member_name self <$> cached cache (get_mods self CLIENT)
    ∧ calls w' = calls w
                 ++ reports self CLIENT (cached cache (get_mods self CLIENT) ++ [location]).
Proof.
  intros Hcb Hres Hfiles Hcfg Hc Hz Hne Hret.
  unfold reports in Hret. rewrite fmap_app, returns_app in Hret.
  apply andb_true_iff in Hret as [Hret1 Hret2].
  set (archive := pathlib.str (get_archive_path RELEASE_MMC_DIR self CLIENT)) in *.
  set (w0 := set_fs <[archive := Archive []]> w).
  destruct (add_mods_run self cb CLIENT (get_mods self CLIENT) archive [] w0 Hcb Hres)
    as (w1 & mod_members & Hrun1 & Hfs1 & Hnames & Hcalls1).
  { eapply Forall_impl; [exact Hfiles|]. intros loc Hl. simpl in Hl. unfold w0.
    rewrite set_fs_fs.
    destruct (decide (archive = pathlib.str (pathlib.PurePath loc))) as [<-|Hne'].
    - rewrite lookup_insert_eq. by eexists.
    - by rewrite lookup_insert_ne. }
  { exact Hret1. }
  { unfold w0. rewrite set_fs_fs. apply lookup_insert_eq. }
  destruct (add_config_run self cb CLIENT c v archive ([] ++ mod_members) location
              config_zip w1 Hcb Hc) as (w2 & Hrun2 & Hfs2 & Hcalls2).
  { rewrite Hfs1. rewrite lookup_insert_ne by done. unfold w0.
    rewrite set_fs_fs. by rewrite lookup_insert_ne. }
  { rewrite Hcalls1. simpl in Hret2. fold (reports self CLIENT) in Hret2.
    unfold progress_label.
    destruct (cb _ _ _); [discriminate | reflexivity]. }
  { rewrite Hfs1. apply lookup_insert_eq. }
  destruct (add_mmc_meta_data_run self CLIENT w2) as (w3 & Hrun3 & Hfs3 & Hcalls3 & _).
  exists w3, mod_members. split; [|split; [|split]].
  - unfold MMCAssembler_assemble, assemble.
    rewrite bool_decide_eq_false_2 by (by intros ?).
    rewrite (bind_Ok _ _ _ tt w2).
    + rewrite bool_decide_eq_true_2 by done. exact Hrun3.
    + unfold GenericAssembler_assemble.
      rewrite bool_decide_eq_false_2 by done. cbv zeta. fold archive.
      rewrite (bind_Ok _ _ _ tt w0) by done.
      rewrite (bind_Ok _ _ _ tt w1 Hrun1). rewrite Hcfg. exact Hrun2.
  - rewrite Hfs3. fold archive. rewrite Hfs2, lookup_insert_eq, insert_insert_eq.
    rewrite Hfs1, insert_insert_eq. unfold w0. rewrite set_fs_fs, insert_insert_eq.
    simpl. by rewrite <- app_assoc.
  - exact Hnames.
  - rewrite Hcalls3, Hcalls2, Hcalls1. unfold w0, reports. simpl calls.
    rewrite fmap_app, <- app_assoc. reflexivity.
Qed.

(** X3. With no mod included for CLIENT the launcher-format [assemble]
    degenerates to a configs-only archive: the config entries outside the
    exclusions, then the metadata entry, and a single progress report. *)
Theorem assemble_without_mods self cb c v location config_zip w :
  callback self = Some cb →
  get_mods self CLIENT = [] →
  release_config (release self) = (c, v) →
  cache (ConfigAsset c) v = Some location →
  fs w !! pathlib.str (pathlib.PurePath location) = Some (Archive config_zip) →
  pathlib.str (pathlib.PurePath location)
    ≠ pathlib.str (get_archive_path RELEASE_MMC_DIR self CLIENT) →
  cb (calls w) (delta_progress self) (progress_label self CLIENT location) = None →
  ∃ w',
    MMCAssembler_assemble RELEASE_MMC_DIR MMC_PACK_JSON cache self CLIENT w = (Ok tt, w')
    ∧ fs w' = <[pathlib.str (get_archive_path RELEASE_MMC_DIR self CLIENT) :=
                 Archive (config_members self CLIENT config_zip (zipfile.namelist config_zip)
                          ++ [(pathlib.str (mmc_archive_root self) +:+ "/mmc-pack.json",
                               Regular (list_byte_of_string MMC_PACK_JSON))])]> (fs w)
    ∧ calls w' = calls w ++ [(delta_progress self, progress_label self CLIENT location)].
Proof.
  intros Hcb Hmods Hcfg Hc Hz Hne Hret.
  set (archive := pathlib.str (get_archive_path RELEASE_MMC_DIR self CLIENT)) in *.
  set (w0 := set_fs <[archive := Archive []]> w).
  destruct (add_config_run self cb CLIENT c v archive [] location config_zip w0 Hcb Hc)
    as (w2 & Hrun2 & Hfs2 & Hcalls2).
  { unfold w0. rewrite set_fs_fs. by rewrite lookup_insert_ne. }
  { exact Hret. }
  { unfold w0. rewrite set_fs_fs. apply lookup_insert_eq. }
  destruct (add_mmc_meta_data_run self CLIENT w2) as (w3 & Hrun3 & Hfs3 & Hcalls3 & _).
  exists w3. split; [|split].
  - unfold MMCAssembler_assemble, assemble.
    rewrite bool_decide_eq_false_2 by (by intros ?).
    rewrite (bind_Ok _ _ _ tt w2).
    + rewrite bool_decide_eq_true_2 by done. exact Hrun3.
    + unfold GenericAssembler_assemble.
      rewrite bool_decide_eq_false_2 by done. cbv zeta. fold archive.
      rewrite (bind_Ok _ _ _ tt w0) by done.
      rewrite Hmods, Hcfg. exact Hrun2.
  - rewrite Hfs3. fold archive. rewrite Hfs2, lookup_insert_eq, insert_insert_eq.
    unfold w0. rewrite set_fs_fs, insert_insert_eq. reflexivity.
  - rewrite Hcalls3, Hcalls2. reflexivity.
Qed.

End facts.

End multi_poly_facts.

(** ** The GUI's packaging helpers *)

Module gui_facts.
Import gui spec py_facts.

Section facts.

Variable download_mod : ModInfo → result (list Path).
Variable cache_dir : Path.

Lemma filter_client_cons m mods :
  filter for_client (m :: mods) ≫= downloaded download_mod
  = (if decide (for_client m) then downloaded download_mod m else [])
    ++ (filter for_client mods ≫= downloaded download_mod).
Proof.
  destruct (decide (for_client m)) as [H|H].
  - by rewrite filter_cons_True.
  - by rewrite filter_cons_False.
Qed.

Lemma filter_server_cons m mods :
  filter for_server (m :: mods) ≫= downloaded download_mod
  = (if decide (for_server m) then downloaded download_mod m else [])
    ++ (filter for_server mods ≫= downloaded download_mod).
Proof.
  destruct (decide (for_server m)) as [H|H].
  - by rewrite filter_cons_True.
  - by rewrite filter_cons_False.
Qed.

(** The loop of [download_mods]: what the two lists have gained when it
    completes. *)
Lemma download_mods_loop callback delta mods acc w r w' :
  for_acc mods (download_mods_step download_mod callback delta) acc w = (Ok r, w') →
  r = (acc.1 ++ (filter for_client mods ≫= downloaded download_mod),
       acc.2 ++ (filter for_server mods ≫= downloaded download_mod)).
Proof.
  revert acc w. induction mods as [|m mods IH]; intros [client_paths server_paths] w.
  - simpl. intros [= <- _]. by rewrite !app_nil_r.
  - simpl for_acc. intros Hrun.
    apply bind_Ok_inv in Hrun as (acc' & w1 & Hstep & Hrest).
    apply IH in Hrest. subst r.
    rewrite filter_client_cons, filter_server_cons.
    revert Hstep. unfold download_mods_step.
    intros Hstep. apply bind_Ok_inv in Hstep as ([] & w2 & _ & Hstep).
    apply bind_Ok_inv in Hstep as (paths & w3 & Hdl & Hstep).
    unfold do_download_mod in Hdl. injection Hdl as Hdl <-.
    assert (Hd : downloaded download_mod m = paths) by (unfold downloaded; by rewrite Hdl).
    rewrite !Hd.
    destruct (String.eqb_spec (side m) "BOTH") as [HB|HB].
    { injection Hstep as <- _.
      rewrite !decide_True by (by right). simpl. by rewrite !app_assoc. }
    destruct (String.eqb_spec (side m) "CLIENT") as [HC|HC].
    { injection Hstep as <- _.
      rewrite decide_True by (by left).
      rewrite decide_False by (intros [?|?]; congruence). simpl. by rewrite !app_assoc. }
    destruct (String.eqb_spec (side m) "SERVER") as [HS|HS].
    { injection Hstep as <- _.
      rewrite decide_False by (intros [?|?]; congruence).
      rewrite decide_True by (by left). simpl. by rewrite !app_assoc. }
    injection Hstep as <- _.
    rewrite !decide_False by (intros [?|?]; congruence). reflexivity.
Qed.

(** C2. When [download_mods] completes, the client collection is made of the
    downloaded paths of exactly the mods whose side is CLIENT or BOTH, and
    the server collection of those of exactly the mods whose side is SERVER
    or BOTH, in manifest order: a path is in a collection if and only if it
    was downloaded for a mod of the manifest with such a side. A BOTH mod
    counts for both collections, and a mod counts for neither only when its
    side is none of the three. *)
Theorem download_mods_partition gtnh_modpack callback w client_paths server_paths w' :
  download_mods download_mod gtnh_modpack callback w
  = (Ok (client_paths, server_paths), w') →
  client_paths = filter for_client (github_mods gtnh_modpack) ≫= downloaded download_mod
  ∧ server_paths = filter for_server (github_mods gtnh_modpack) ≫= downloaded download_mod
  ∧ (∀ p, p ∈ client_paths
          ↔ ∃ m, m ∈ github_mods gtnh_modpack ∧ for_client m ∧ p ∈ downloaded download_mod m)
  ∧ (∀ p, p ∈ server_paths
          ↔ ∃ m, m ∈ github_mods gtnh_modpack ∧ for_server m ∧ p ∈ downloaded download_mod m)
  ∧ (∀ m, side m = "BOTH" → for_client m ∧ for_server m)
  ∧ (∀ m, ¬ for_client m → ¬ for_server m →
          side m ≠ "CLIENT" ∧ side m ≠ "SERVER" ∧ side m ≠ "BOTH").
Proof.
  unfold download_mods. intros Hrun.
  apply bind_Ok_inv in Hrun as (delta & w1 & _ & Hloop).
  apply download_mods_loop in Hloop. injection Hloop as -> ->.
  split; [done|]. split; [done|]. split; [|split; [|split]].
  - intros p. simpl. rewrite list_elem_of_bind. split.
    + intros (m & Hp & Hm). apply list_elem_of_filter in Hm as [Hc Hm]. by exists m.
    + intros (m & Hm & Hc & Hp). exists m. split; [done|]. by apply list_elem_of_filter.
  - intros p. simpl. rewrite list_elem_of_bind. split.
    + intros (m & Hp & Hm). apply list_elem_of_filter in Hm as [Hc Hm]. by exists m.
    + intros (m & Hm & Hc & Hp). exists m. split; [done|]. by apply list_elem_of_filter.
  - intros m Hm. split; by right.
  - intros m Hc Hs. unfold for_client, for_server in *.
    repeat split; intros H; [apply Hc; by left | apply Hs; by left | apply Hc; by right].
Qed.

(** C9 (as the code behaves). Packing an empty list of paths does not
    complete: the increment per file is computed first, as 100 divided by
    the number of paths, and the division raises before any file is touched.
    [pack_serverpack] does the same, and so does [download_mods] for a
    manifest without mods. *)
Theorem pack_clientpack_empty_list pack_version callback client_exclusions server_exclusions w :
  pack_clientpack cache_dir [] pack_version callback w = (Raise ZeroDivisionError, w)
  ∧ pack_serverpack cache_dir [] pack_version callback w = (Raise ZeroDivisionError, w)
  ∧ download_mods download_mod
      {| github_mods := []; gui.client_exclusions := client_exclusions;
         gui.server_exclusions := server_exclusions; modpack_version := pack_version |}
      callback w
    = (Raise ZeroDivisionError, w).
Proof. repeat split; reflexivity. Qed.

(** X1. The files [handle_pack_extra_files] selects for one side are the
    files found under the unpacked bundle that are not one of the side's
    exclusions, taken as paths under the same directory. *)
Theorem side_files_spec temp_dir exclusions crawled p :
  p ∈ side_files temp_dir exclusions crawled
  ↔ p ∈ crawled ∧ ∀ e, e ∈ exclusions → p ≠ temp_dir /: e.
Proof.
  unfold side_files. rewrite elem_of_elements, elem_of_difference.
  rewrite !elem_of_list_to_set, list_elem_of_fmap. split.
  - intros [Hin Hnot]. split; [done|]. intros e He ->. apply Hnot. by exists e.
  - intros [Hin Hne]. split; [done|]. intros (e & -> & He). by apply (Hne e).
Qed.

End facts.

Section progress_facts.

Variable round_2f : float → float.
Variable format : string → float → string.

Lemma ltb_leb (x y : float) : (x <? y)%float = true → (x <=? y)%float = true.
Proof.
  rewrite ltb_spec, leb_spec. unfold SFltb, SFleb.
  by destruct (SFcompare (Prim2SF x) (Prim2SF y)) as [[]|].
Qed.

Lemma min_100_bound (x : float) : (min_100 x <=? 100)%float = true.
Proof.
  unfold min_100. destruct (x <? 100)%float eqn:E.
  - by apply ltb_leb.
  - reflexivity.
Qed.

(** C10. After a call of [_progress_callback], whatever the value of the bar
    was and whatever increment was passed (large, infinite or not a number),
    the value of the progress bar it updated is at most 100.0; the other bar
    keeps its value, so a frame whose bars are at most 100 stays so over any
    sequence of calls. *)
Theorem progress_value_at_most_100 self delta_progress label progress_bar_w label_w :
  let self' := _progress_callback round_2f format self delta_progress label
                 progress_bar_w label_w in
  (value self' (default progress_bar progress_bar_w) <=? 100)%float = true
  ∧ (∀ b, b ≠ default progress_bar progress_bar_w → value self' b = value self b)
  ∧ ((∀ b, (value self b <=? 100)%float = true) →
     ∀ b, (value self' b <=? 100)%float = true).
Proof.
  cbv zeta. unfold _progress_callback. simpl. split; [|split].
  - rewrite fn_lookup_insert. apply min_100_bound.
  - intros b Hb. by rewrite fn_lookup_insert_ne.
  - intros Hall b.
    destruct (decide (default progress_bar progress_bar_w = b)) as [<-|Hb].
    + rewrite fn_lookup_insert. apply min_100_bound.
    + by rewrite fn_lookup_insert_ne.
Qed.

End progress_facts.

End gui_facts.

(** ** Runs of the model on the small release *)

Module runs.
Import multi_poly spec examples.

(** The release of the end-to-end example of the spec, assembled for CLIENT:
    mods A and B, the config entries but [sub/b.cfg], and the metadata. *)
Example assemble_client :
  fs (MMCAssembler_assemble RELEASE_MMC_DIR0 MMC_PACK_JSON0 cache0
        (assembler0 (Some quiet)) CLIENT world0).2 !! archive0
  = Some (Archive (members0
                   ++ [("GT New Horizons 2.1.2.3/mmc-pack.json", bytes_of MMC_PACK_JSON0)])).
Proof. vm_compute. reflexivity. Qed.

Example assemble_server :
  MMCAssembler_assemble RELEASE_MMC_DIR0 MMC_PACK_JSON0 cache0
    (assembler0 (Some quiet)) SERVER world0
  = (Raise (ValueError "Only valid side is CLIENT, got SERVER"), world0).
Proof. reflexivity. Qed.

Example assemble_cancelled :
  (MMCAssembler_assemble RELEASE_MMC_DIR0 MMC_PACK_JSON0 cache0
     (assembler0 (Some cancel_at_second)) CLIENT world0).1
  = Raise (CallbackRaised "PackingInterruptException").
Proof. vm_compute. reflexivity. Qed.

Example add_mods_prints :
  stdout world_mods
  = [ "GT New Horizons 2.1.2.3/.minecraft/mods/A-v1.jar";
      "GT New Horizons 2.1.2.3/.minecraft/mods/B-v2.jar" ].
Proof. vm_compute. reflexivity. Qed.

(** pathlib rewrites what it parses: a trailing separator and [.] components
    go, and [normpath] folds a parent link. *)
Example PurePath_normalises :
  pathlib.str (pathlib.PurePath "GT New Horizons 2.1/./x//") = "GT New Horizons 2.1/x".
Proof. reflexivity. Qed.

Example normpath_parent_link :
  pathlib.str (pathlib.normpath (pathlib.PurePath "a/../mods/b.jar")) = "mods/b.jar".
Proof. reflexivity. Qed.

Example name_is_last_component :
  pathlib.name (pathlib.PurePath "cache/mods/A/A-v1.jar") = "A-v1.jar".
Proof. reflexivity. Qed.

Example download_mods_run :
  (gui.download_mods download_mod0 modpack0 (Some quiet) world0).1
  = Ok ([pathlib.PurePath "cache/A.jar"; pathlib.PurePath "cache/B.jar"],
        [pathlib.PurePath "cache/A.jar"; pathlib.PurePath "cache/C.jar"]).
Proof. vm_compute. reflexivity. Qed.

Example progress_bar_clamped :
  gui.value (gui._progress_callback (λ x, x) (λ label _, label) frame0 1000%float
               "packing {0}%" None None) gui.progress_bar
  = 100%float.
Proof. reflexivity. Qed.

Example progress_bar_nan :
  gui.value (gui._progress_callback (λ x, x) (λ label _, label) frame0 nan
               "packing {0}%" None None) gui.progress_bar
  = 100%float.
Proof. reflexivity. Qed.

End runs.

(** ** The statements at work on the small release *)

Module witnesses.
Import multi_poly spec examples multi_poly_facts gui_facts.

Lemma download_mods_partition_witness :
  [pathlib.PurePath "cache/A.jar"; pathlib.PurePath "cache/B.jar"]
  = filter for_client (gui.github_mods modpack0) ≫= downloaded download_mod0
  ∧ [pathlib.PurePath "cache/A.jar"; pathlib.PurePath "cache/C.jar"]
    = filter for_server (gui.github_mods modpack0) ≫= downloaded download_mod0
  ∧ (∀ p, p ∈ [pathlib.PurePath "cache/A.jar"; pathlib.PurePath "cache/B.jar"]
          ↔ ∃ m, m ∈ gui.github_mods modpack0 ∧ for_client m
                 ∧ p ∈ downloaded download_mod0 m)
  ∧ (∀ p, p ∈ [pathlib.PurePath "cache/A.jar"; pathlib.PurePath "cache/C.jar"]
          ↔ ∃ m, m ∈ gui.github_mods modpack0 ∧ for_server m
                 ∧ p ∈ downloaded download_mod0 m)
  ∧ (∀ m, gui.side m = "BOTH" → for_client m ∧ for_server m)
  ∧ (∀ m, ¬ for_client m → ¬ for_server m →
          gui.side m ≠ "CLIENT" ∧ gui.side m ≠ "SERVER" ∧ gui.side m ≠ "BOTH").
Proof.
  apply (download_mods_partition download_mod0 modpack0 (Some quiet) world0 _ _
           (gui.download_mods download_mod0 modpack0 (Some quiet) world0).2).
  vm_compute. reflexivity.
Defined.

Lemma assemble_side_check_witness :
  ((∃ msg, (assemble RELEASE_MMC_DIR0 MMC_PACK_JSON0 base0
              (assembler0 (Some quiet)) SERVER world0).1 = Raise (ValueError msg))
   ↔ SERVER ≠ CLIENT)
  ∧ (SERVER ≠ CLIENT →
     (assemble RELEASE_MMC_DIR0 MMC_PACK_JSON0 base0
        (assembler0 (Some quiet)) SERVER world0).2 = world0).
Proof.
  apply (assemble_side_check RELEASE_MMC_DIR0 MMC_PACK_JSON0 base0
           (assembler0 (Some quiet)) SERVER world0).
  intros msg. vm_compute. discriminate.
Defined.


Lemma add_config_keeps_directories_witness :
  ∃ written data,
    fs world_config = <[ "out.zip" := Archive (
        [("GT New Horizons 2.1.2.3/.minecraft/mods/A-v1.jar", bytes_of "jar A");
         ("GT New Horizons 2.1.2.3/.minecraft/mods/B-v2.jar", bytes_of "jar B")]
        ++ written) ]> (fs world_mods)
    ∧ zipfile.NameToInfo config_zip0 !! "sub/" = Some data
    ∧ (pathlib.str (mmc_modpack_files (assembler0 (Some quiet))) +:+ "/" +:+ "sub/", data)
        ∈ written
    ∧ zipfile.is_dir
        (pathlib.str (mmc_modpack_files (assembler0 (Some quiet))) +:+ "/" +:+ "sub/") = true
    ∧ (data = Regular [] →
       (pathlib.str (mmc_modpack_files (assembler0 (Some quiet))) +:+ "/" +:+ "sub/",
        Regular []) ∈ written).
Proof.
  apply (add_config_keeps_directories cache0 (assembler0 (Some quiet)) CLIENT config0 v3
           "out.zip" "cache/config/config.zip" config_zip0 _ world_mods world_config "sub/").
  - reflexivity.
  - vm_compute. reflexivity.
  - vm_compute. reflexivity.
  - vm_compute. reflexivity.
  - unfold zipfile.namelist, config_zip0. simpl. set_solver.
  - unfold exclusions0. set_solver.
  - reflexivity.
Defined.

Lemma mmc_meta_data_appended_witness :
  ∃ w2,
    assemble RELEASE_MMC_DIR0 MMC_PACK_JSON0 base0 (assembler0 (Some quiet)) CLIENT world0
    = (Ok tt, w2)
    ∧ fs w2 = <[ archive0 := Archive (members0
                   ++ [("GT New Horizons 2.1.2.3/mmc-pack.json", bytes_of MMC_PACK_JSON0)]) ]>
                (fs (base0 (assembler0 (Some quiet)) CLIENT world0).2)
    ∧ calls w2 = calls (base0 (assembler0 (Some quiet)) CLIENT world0).2
    ∧ stdout w2 = stdout (base0 (assembler0 (Some quiet)) CLIENT world0).2
    ∧ (has_sep "2.1.2.3" = false →
       "GT New Horizons 2.1.2.3/mmc-pack.json" = "GT New Horizons 2.1.2.3" +:+ "/mmc-pack.json").
Proof.
  apply (mmc_meta_data_appended RELEASE_MMC_DIR0 MMC_PACK_JSON0 base0
           (assembler0 (Some quiet)) members0 world0
           (base0 (assembler0 (Some quiet)) CLIENT world0).2).
  - vm_compute. reflexivity.
  - vm_compute. reflexivity.
Defined.

Lemma callback_exception_aborts_witness :
  ∃ w' written,
    MMCAssembler_assemble RELEASE_MMC_DIR0 MMC_PACK_JSON0 cache0
      (assembler0 (Some cancel_at_second)) CLIENT world0
    = (Raise (CallbackRaised "PackingInterruptException"), w')
    ∧ fs w' !! archive0 = Some (Archive written)
    ∧ written.*1 = ["GT New Horizons 2.1.2.3/.minecraft/mods/A-v1.jar"]
    ∧ length written = 1.
Proof.
  apply (callback_exception_aborts RELEASE_MMC_DIR0 MMC_PACK_JSON0 cache0
           (assembler0 (Some cancel_at_second)) cancel_at_second
           [(mod_A, v1)] mod_B v2 [] "cache/mods/B/B-v2.jar"
           "PackingInterruptException" world0).
  - reflexivity.
  - vm_compute. reflexivity.
  - repeat constructor. vm_compute. by eexists.
  - repeat constructor. vm_compute. by eexists.
  - reflexivity.
  - vm_compute. reflexivity.
  - vm_compute. reflexivity.
Defined.

Lemma progress_accounting_witness :
  ∃ rs,
    calls (MMCAssembler_assemble RELEASE_MMC_DIR0 MMC_PACK_JSON0 cache0
             (assembler0 (Some quiet)) CLIENT world0).2
    = calls world0 ++ rs
    ∧ length rs = 2 + 1
    ∧ (Qsum rs.*1 == 100)%Q.
Proof.
  apply (progress_accounting RELEASE_MMC_DIR0 MMC_PACK_JSON0 cache0
           (assembler0 (Some quiet)) quiet CLIENT world0).
  - reflexivity.
  - vm_compute. reflexivity.
  - vm_compute. reflexivity.
Defined.

Lemma progress_value_at_most_100_witness :
  let self' := gui._progress_callback (λ x, x) (λ label _, label) frame0 1000%float
                 "packing {0}%" None None in
  (gui.value self' gui.progress_bar <=? 100)%float = true
  ∧ (∀ b, b ≠ gui.progress_bar → gui.value self' b = gui.value frame0 b)
  ∧ ((∀ b, (gui.value frame0 b <=? 100)%float = true) →
     ∀ b, (gui.value self' b <=? 100)%float = true).
Proof.
  apply (progress_value_at_most_100 (λ x, x) (λ label _, label) frame0 1000%float
           "packing {0}%" None None).
Defined.

Lemma assemble_completes_witness :
  ∃ w' mod_members,
    MMCAssembler_assemble RELEASE_MMC_DIR0 MMC_PACK_JSON0 cache0
      (assembler0 (Some quiet)) CLIENT world0 = (Ok tt, w')
    ∧ fs w' = <[ archive0 :=
                 Archive (mod_members
                          ++ [("GT New Horizons 2.1.2.3/.minecraft/configA.cfg", bytes_of "a=1");
                              ("GT New Horizons 2.1.2.3/.minecraft/sub/", Regular [])]
                          ++ [("GT New Horizons 2.1.2.3/mmc-pack.json",
                               bytes_of MMC_PACK_JSON0)]) ]> (fs world0)
    ∧ mod_members.*1 = [ "GT New Horizons 2.1.2.3/.minecraft/mods/A-v1.jar";
                         "GT New Horizons 2.1.2.3/.minecraft/mods/B-v2.jar" ]
    ∧ calls w' = calls world0
                 ++ reports (assembler0 (Some quiet)) CLIENT
                      ["cache/mods/A/A-v1.jar"; "cache/mods/B/B-v2.jar";
                       "cache/config/config.zip"].
Proof.
  apply (assemble_completes RELEASE_MMC_DIR0 MMC_PACK_JSON0 cache0
           (assembler0 (Some quiet)) quiet config0 v3 "cache/config/config.zip"
           config_zip0 world0).
  - reflexivity.
  - repeat constructor; vm_compute; by eexists.
  - repeat constructor; vm_compute; by eexists.
  - reflexivity.
  - reflexivity.
  - vm_compute. reflexivity.
  - vm_compute. discriminate.
  - vm_compute. reflexivity.
Defined.

Lemma assemble_without_mods_witness :
  ∃ w',
    MMCAssembler_assemble RELEASE_MMC_DIR0 MMC_PACK_JSON0 cache0
      assembler_no_mods CLIENT world0 = (Ok tt, w')
    ∧ fs w' = <[ archive0 :=
                 Archive ([("GT New Horizons 2.1.2.3/.minecraft/configA.cfg", bytes_of "a=1");
                           ("GT New Horizons 2.1.2.3/.minecraft/sub/", Regular [])]
                          ++ [("GT New Horizons 2.1.2.3/mmc-pack.json",
                               bytes_of MMC_PACK_JSON0)]) ]> (fs world0)
    ∧ calls w' = calls world0
                 ++ [(100%Q, progress_label assembler_no_mods CLIENT "cache/config/config.zip")].
Proof.
  apply (assemble_without_mods RELEASE_MMC_DIR0 MMC_PACK_JSON0 cache0
           assembler_no_mods quiet config0 v3 "cache/config/config.zip" config_zip0 world0).
  - reflexivity.
  - reflexivity.
  - reflexivity.
  - reflexivity.
  - vm_compute. reflexivity.
  - vm_compute. discriminate.
  - reflexivity.
Defined.

End witnesses.

(** ** More on the MultiMC assembler *)

Module multi_poly_more.
Import multi_poly spec spec_more pathlib_facts py_facts zipfile_facts multi_poly_facts.

Section more.

Variable RELEASE_MMC_DIR : Path.
Variable MMC_PACK_JSON : string.
Variable cache : asset → GTNHVersion → option string.

Lemma mod_members_cons self (files : gmap string file) loc locations :
  mod_members self files (loc :: locations)
  = match files !! pathlib.str (pathlib.PurePath loc) with
    | Some data => (mod_member_name self loc, data) :: mod_members self files locations
    | None => mod_members self files locations
    end.
Proof. unfold mod_members. simpl. by destruct (files !! _). Qed.

Lemma mod_members_insert_ne self (files : gmap string file) archive x locations :
  Forall (λ loc, pathlib.str (pathlib.PurePath loc) ≠ archive) locations →
  mod_members self (<[archive := x]> files) locations = mod_members self files locations.
Proof.
  induction 1 as [|loc locations Hloc _ IH]; [reflexivity|].
  rewrite !mod_members_cons, lookup_insert_ne by done. by rewrite IH.
Qed.

(** X4. A completed [add_mods] has appended, for each mod in turn, one member
    that carries the content of the mod's cached file (no cached file being
    the archive under construction), has printed the member path of each, and
    has left every other file as it was. *)
Theorem add_mods_copies_cached_files self side mods archive members w w' :
  fs w !! archive = Some (Archive members) →
  Forall (λ loc, pathlib.str (pathlib.PurePath loc) ≠ archive) (cached cache mods) →
  add_mods cache self side mods archive w = (Ok tt, w') →
  fs w' = <[archive := Archive (members ++ mod_members self (fs w) (cached cache mods))]> (fs w)
  ∧ length (mod_members self (fs w) (cached cache mods)) = length mods
  ∧ stdout w' = stdout w ++ mod_lines self (cached cache mods).
Proof.
  revert members w. induction mods as [|[mod_ version] mods IH]; intros members w Ha Hne.
  - intros [= <-]. unfold mod_members, mod_lines. simpl. rewrite !app_nil_r.
    split; [symmetry; by apply insert_id | done].
  - rewrite (add_mods_cons _ _ _ _ _ _ _ _ _ Ha). rewrite cached_cons in Hne |- *.
    destruct (cache (ModAsset mod_) version) as [location|]; [|discriminate].
    inversion Hne as [|? ? Hloc Hne']; subst.
    destruct (update_progress self side (pathlib.PurePath location) w) as [[[]|e] w1] eqn:Hu;
      [|discriminate].
    destruct (update_progress_frame _ _ _ _ _ _ Hu) as [Hfs1 Ho1].
    cbv zeta. simpl fs.
    destruct (fs w1 !! pathlib.str (pathlib.PurePath location)) as [data|] eqn:Hd;
      [|discriminate].
    rewrite (append_run _ _ _ _ _ members) by (simpl; by rewrite Hfs1).
    intros Hrun.
    apply IH with (members := members ++ [(mod_member_name self location, data)])
      in Hrun as (Hfs & Hlen & Hout); [| simpl; apply lookup_insert_eq | done].
    simpl in Hfs, Hlen, Hout. rewrite Hfs1 in Hfs, Hlen, Hd.
    rewrite mod_members_insert_ne in Hfs, Hlen by done.
    rewrite mod_members_cons, Hd. split; [|split].
    + rewrite Hfs, insert_insert_eq. by rewrite <- app_assoc.
    + simpl. by rewrite Hlen.
    + rewrite Hout, Ho1. unfold mod_lines. rewrite fmap_cons. by rewrite <- app_assoc.
Qed.

(** X5. When the cached file of a mod is missing, [add_mods] raises
    FileNotFoundError for it: the mods before it have been written, and the
    callback has already been told about the missing one, progress being
    reported before the file is looked at. *)
Theorem add_mods_missing_file
    self cb side before mod_k version_k after location_k archive members w :
  callback self = Some cb →
  fs w !! archive = Some (Archive members) →
  Forall (λ mv, is_Some (cache (ModAsset mv.1) mv.2)) before →
  Forall (λ loc, is_Some (fs w !! pathlib.str (pathlib.PurePath loc))) (cached cache before) →
  cache (ModAsset mod_k) version_k = Some location_k →
  fs w !! pathlib.str (pathlib.PurePath location_k) = None →
  returns cb (calls w) (reports self side (cached cache before ++ [location_k])) = true →
  ∃ w' written,
    add_mods cache self side (before ++ (mod_k, version_k) :: after) archive w
    = (Raise (FileNotFoundError (pathlib.str (pathlib.PurePath location_k))), w')
    ∧ fs w' = <[archive := Archive (members ++ written)]> (fs w)
    ∧ written.*1 = mod_member_name self <$> cached cache before
    ∧ calls w' = calls w ++ reports self side (cached cache before ++ [location_k]).
Proof.
  intros Hcb Ha Hres Hfiles Hloc Hmiss Hret.
  unfold reports in Hret. rewrite fmap_app, returns_app in Hret.
  apply andb_true_iff in Hret as [Hret1 Hret2].
  destruct (add_mods_run cache self cb side before archive members w Hcb Hres Hfiles Hret1 Ha)
    as (w1 & written & Hrun & Hfs & Hnames & Hcalls).
  assert (Ha1 : fs w1 !! archive = Some (Archive (members ++ written))).
  { rewrite Hfs. apply lookup_insert_eq. }
  assert (Hne : archive ≠ pathlib.str (pathlib.PurePath location_k)).
  { intros ->. by rewrite Hmiss in Ha. }
  rewrite add_mods_app, (bind_Ok _ _ _ tt w1 Hrun).
  rewrite (add_mods_cons _ _ _ _ _ _ _ _ _ Ha1), Hloc.
  rewrite (update_progress_call _ _ _ _ _ Hcb). unfold call.
  fold (progress_label self side location_k).
  change (returns cb (calls w ++ reports self side (cached cache before))
            [(delta_progress self, progress_label self side location_k)] = true) in Hret2.
  rewrite <- Hcalls in Hret2. simpl in Hret2.
  destruct (cb (calls w1) (delta_progress self) (progress_label self side location_k));
    [discriminate|].
  cbv zeta. simpl fs. rewrite Hfs, lookup_insert_ne, Hmiss by done.
  eexists _, written. split; [reflexivity|]. simpl.
  split; [done|]. split; [done|].
  rewrite Hcalls. unfold reports. rewrite fmap_app, <- app_assoc. reflexivity.
Qed.

(** X6. When the cached config bundle is missing or is no zip archive,
    [add_config] raises (FileNotFoundError, BadZipFile) as it opens it, before
    progress is reported: the callback is not called and nothing is written,
    the world is as it was. *)
Theorem add_config_bad_bundle self side c v archive location w :
  cache (ConfigAsset c) v = Some location →
  (∀ config_zip,
     fs w !! pathlib.str (pathlib.PurePath location) ≠ Some (Archive config_zip)) →
  add_config cache self side (c, v) archive w
  = (Raise (match fs w !! pathlib.str (pathlib.PurePath location) with
            | None => FileNotFoundError (pathlib.str (pathlib.PurePath location))
            | Some _ => BadZipFile (pathlib.str (pathlib.PurePath location))
            end), w).
Proof.
  intros Hc Hbad. unfold add_config, get_asset_version_cache_location. rewrite Hc.
  rewrite (bind_Ok _ _ _ (pathlib.PurePath location) w) by done.
  rewrite bind_run. unfold zipfile.open_r.
  destruct (fs w !! pathlib.str (pathlib.PurePath location)) as [[data|config_zip]|] eqn:Hz;
    [reflexivity | by destruct (Hbad config_zip) | reflexivity].
Qed.

(** X7. On a destination that is there, [add_mmc_meta_data] completes and
    drops no member: the archive keeps the members it had (none when the
    file was no archive) and gains the metadata member at its end. It
    appends and does not replace, so a second call leaves the metadata
    member twice. *)
Theorem add_mmc_meta_data_appends self side w :
  let archive := pathlib.str (get_archive_path RELEASE_MMC_DIR self side) in
  let before := match fs w !! archive with
                | Some (Archive members) => members
                | _ => []
                end in
  is_Some (fs w !! archive) →
  ∃ w1 w2,
    add_mmc_meta_data RELEASE_MMC_DIR MMC_PACK_JSON self side w = (Ok tt, w1)
    ∧ fs w1 = <[archive := Archive (before ++ [meta_member MMC_PACK_JSON self])]> (fs w)
    ∧ add_mmc_meta_data RELEASE_MMC_DIR MMC_PACK_JSON self side w1 = (Ok tt, w2)
    ∧ fs w2 = <[archive := Archive (before ++ [meta_member MMC_PACK_JSON self;
                                               meta_member MMC_PACK_JSON self])]> (fs w)
    ∧ calls w2 = calls w ∧ stdout w2 = stdout w.
Proof.
  cbv zeta. intros _.
  destruct (add_mmc_meta_data_run RELEASE_MMC_DIR MMC_PACK_JSON self side w)
    as (w1 & Hrun1 & Hfs1 & Hc1 & Ho1).
  destruct (add_mmc_meta_data_run RELEASE_MMC_DIR MMC_PACK_JSON self side w1)
    as (w2 & Hrun2 & Hfs2 & Hc2 & Ho2).
  exists w1, w2. split; [done|]. split; [done|]. split; [done|].
  split; [|split; congruence].
  rewrite Hfs2, Hfs1, lookup_insert_eq, insert_insert_eq.
  unfold meta_member. by rewrite <- app_assoc.
Qed.

End more.

End multi_poly_more.

(** ** Destination paths *)

Module archive_paths.
Import multi_poly spec pathlib_facts py_facts pathlib_more.

Lemma length_append (a b : string) :
  String.length (a +:+ b) = String.length a + String.length b.
Proof. induction a as [|c a IH]; [reflexivity|]. rewrite append_cons. simpl. by rewrite IH. Qed.

Lemma append_inj_r (a b s : string) : a +:+ s = b +:+ s → a = b.
Proof.
  revert b. induction a as [|c a IH]; intros [|d b] H.
  - reflexivity.
  - apply (f_equal String.length) in H.
    rewrite append_empty_l, append_cons in H. simpl in H.
    rewrite length_append in H. lia.
  - apply (f_equal String.length) in H.
    rewrite append_empty_l, append_cons in H. simpl in H.
    rewrite length_append in H. lia.
  - rewrite !append_cons in H. injection H as -> H. f_equal. by apply IH.
Qed.

Lemma str_snoc (r : string) (ps : list string) (n : string) :
  pathlib.str {| pathlib.root := r; pathlib.parts := ps ++ [n] |}
  = r +:+ pathlib.join (ps ++ [n]).
Proof. unfold pathlib.str. simpl. destruct r; destruct ps; reflexivity. Qed.

(** The text of a path extended by one component. *)
Lemma str_truediv_component (p : Path) (n : string) :
  has_sep n = false → n ≠ "" → n ≠ "." →
  pathlib.str (p /: n)
  = match pathlib.parts p with
    | [] => pathlib.root p +:+ n
    | _ => (pathlib.root p +:+ pathlib.join (pathlib.parts p)) +:+ "/" +:+ n
    end.
Proof.
  intros Hs H1 H2. rewrite truediv_component, str_snoc by done.
  destruct (pathlib.parts p) as [|q ps]; [reflexivity|].
  rewrite join_snoc by done. by rewrite append_assoc.
Qed.

Lemma str_truediv_inj (p : Path) (n1 n2 : string) :
  has_sep n1 = false → n1 ≠ "" → n1 ≠ "." →
  has_sep n2 = false → n2 ≠ "" → n2 ≠ "." →
  pathlib.str (p /: n1) = pathlib.str (p /: n2) → n1 = n2.
Proof.
  intros ? ? ? ? ? ?. rewrite !str_truediv_component by done.
  destruct (pathlib.parts p).
  - apply append_inj_l.
  - intros Heq. by apply append_inj_l, append_inj_l in Heq.
Qed.

Lemma relative_to_child (p : Path) (n : string) :
  has_sep n = false → n ≠ "" → n ≠ "." →
  relative_to (p /: n) p = mret {| pathlib.root := ""; pathlib.parts := [n] |}.
Proof.
  intros Hs H1 H2. rewrite truediv_component by done. unfold relative_to. simpl.
  rewrite bool_decide_eq_true_2.
  - by rewrite drop_app_length.
  - split; [done|]. by rewrite take_app_length.
Qed.

Section paths.

Variable RELEASE_MMC_DIR : Path.
Variable RELEASE_MODRINTH_DIR : Path.

Lemma mmc_name_component v :
  has_sep v = false →
  has_sep ("GT New Horizons " +:+ v +:+ " (MMC).zip") = false
  ∧ "GT New Horizons " +:+ v +:+ " (MMC).zip" ≠ ""
  ∧ "GT New Horizons " +:+ v +:+ " (MMC).zip" ≠ ".".
Proof.
  intros Hv. split; [|split].
  - by rewrite !has_sep_append, Hv.
  - by change ("GT New Horizons " +:+ v +:+ " (MMC).zip")
      with (String "G" ("T New Horizons " +:+ v +:+ " (MMC).zip")).
  - by change ("GT New Horizons " +:+ v +:+ " (MMC).zip")
      with (String "G" ("T New Horizons " +:+ v +:+ " (MMC).zip")).
Qed.

(** X8. The launcher archive of a release whose version is one path
    component is a file directly in [RELEASE_MMC_DIR], named
    [GT New Horizons <version> (MMC).zip] whatever the side, and the archives
    of two releases with different versions are at different paths. *)
Theorem mmc_archive_path self side :
  has_sep (version (release self)) = false →
  relative_to (get_archive_path RELEASE_MMC_DIR self side) RELEASE_MMC_DIR
  = mret {| pathlib.root := "";
            pathlib.parts := ["GT New Horizons " +:+ version (release self) +:+ " (MMC).zip"] |}
  ∧ (∀ side', get_archive_path RELEASE_MMC_DIR self side'
              = get_archive_path RELEASE_MMC_DIR self side)
  ∧ (∀ self' side',
       has_sep (version (release self')) = false →
       version (release self') ≠ version (release self) →
       pathlib.str (get_archive_path RELEASE_MMC_DIR self' side')
       ≠ pathlib.str (get_archive_path RELEASE_MMC_DIR self side)).
Proof.
  intros Hv. destruct (mmc_name_component _ Hv) as (Hs & H1 & H2).
  split; [|split].
  - unfold get_archive_path. by apply relative_to_child.
  - reflexivity.
  - intros self' side' Hv' Hne Heq. destruct (mmc_name_component _ Hv') as (Hs' & H1' & H2').
    unfold get_archive_path in Heq. apply str_truediv_inj in Heq; try done.
    apply append_inj_l in Heq. by apply append_inj_r in Heq.
Qed.

Lemma modrinth_name_component side v :
  has_sep v = false →
  has_sep ("GTNewHorizons-" +:+ Side_str side +:+ "-" +:+ v +:+ ".zip") = false
  ∧ "GTNewHorizons-" +:+ Side_str side +:+ "-" +:+ v +:+ ".zip" ≠ ""
  ∧ "GTNewHorizons-" +:+ Side_str side +:+ "-" +:+ v +:+ ".zip" ≠ ".".
Proof.
  intros Hv. split; [|split].
  - rewrite !has_sep_append, Hv. by destruct side.
  - by change ("GTNewHorizons-" +:+ Side_str side +:+ "-" +:+ v +:+ ".zip")
      with (String "G" ("TNewHorizons-" +:+ Side_str side +:+ "-" +:+ v +:+ ".zip")).
  - by change ("GTNewHorizons-" +:+ Side_str side +:+ "-" +:+ v +:+ ".zip")
      with (String "G" ("TNewHorizons-" +:+ Side_str side +:+ "-" +:+ v +:+ ".zip")).
Qed.

(** X9. The Modrinth archive of a release whose version is one path
    component is a file directly in [RELEASE_MODRINTH_DIR], and two archives
    are at the same path only for the same side and the same version: the
    client and the server archive of a release never overwrite each other,
    nor do the archives of two releases. *)
Theorem modrinth_archive_path self side :
  has_sep (version (release self)) = false →
  relative_to (modrinth.get_archive_path RELEASE_MODRINTH_DIR self side) RELEASE_MODRINTH_DIR
  = mret {| pathlib.root := "";
            pathlib.parts := ["GTNewHorizons-" +:+ Side_str side +:+ "-"
                              +:+ version (release self) +:+ ".zip"] |}
  ∧ (∀ self' side',
       has_sep (version (release self')) = false →
       pathlib.str (modrinth.get_archive_path RELEASE_MODRINTH_DIR self' side')
       = pathlib.str (modrinth.get_archive_path RELEASE_MODRINTH_DIR self side) →
       side' = side ∧ version (release self') = version (release self)).
Proof.
  intros Hv. destruct (modrinth_name_component side _ Hv) as (Hs & H1 & H2).
  split.
  - unfold modrinth.get_archive_path. by apply relative_to_child.
  - intros self' side' Hv' Heq.
    destruct (modrinth_name_component side' _ Hv') as (Hs' & H1' & H2').
    unfold modrinth.get_archive_path in Heq. apply str_truediv_inj in Heq; try done.
    apply append_inj_l in Heq.
    destruct side, side'; try (by inversion Heq);
      (split; [reflexivity|]);
      apply (append_inj_l (_ +:+ "-")) in Heq || idtac.
    all: repeat (rewrite append_cons in Heq); rewrite ?append_empty_l in Heq;
      repeat (injection Heq as Heq); by apply append_inj_r in Heq.
Qed.

End paths.

End archive_paths.

(** ** More on the packaging helpers *)

Module gui_more.
Import pathlib_more gui spec gui_spec pathlib_facts py_facts zipfile_facts gui_facts.

Lemma quiet_for_cons callback history r rs :
  quiet_for callback history (r :: rs) = true →
  quiet_for callback history [r] = true
  ∧ quiet_for callback (history ++ told callback [r]) rs = true.
Proof.
  destruct callback as [cb|]; simpl; [|done].
  destruct (cb history r.1 r.2); [discriminate | done].
Qed.

Lemma told_cons callback r rs : told callback (r :: rs) = told callback [r] ++ told callback rs.
Proof. by destruct callback. Qed.

Lemma told_app callback rs1 rs2 :
  told callback (rs1 ++ rs2) = told callback rs1 ++ told callback rs2.
Proof. by destruct callback. Qed.

Lemma quiet_for_app callback history rs1 rs2 :
  quiet_for callback history (rs1 ++ rs2)
  = quiet_for callback history rs1 && quiet_for callback (history ++ told callback rs1) rs2.
Proof.
  destruct callback as [cb|]; simpl; [|done].
  revert history. induction rs1 as [|r rs1 IH]; intros history; simpl.
  - by rewrite app_nil_r.
  - destruct (cb history r.1 r.2); [reflexivity|]. rewrite IH. by rewrite <- app_assoc.
Qed.

(** A callback that returns is told, and nothing else changes. *)
Lemma notify_run callback delta label w :
  quiet_for callback (calls w) [(delta, label)] = true →
  ∃ w1, notify callback delta label w = (Ok tt, w1)
        ∧ fs w1 = fs w
        ∧ calls w1 = calls w ++ told callback [(delta, label)]
        ∧ stdout w1 = stdout w.
Proof.
  destruct callback as [cb|]; simpl.
  - unfold call. destruct (cb (calls w) delta label); [discriminate|].
    intros _. eexists. split; [reflexivity|]. done.
  - intros _. exists w. rewrite app_nil_r. done.
Qed.

(** A callback that raises is told too, and its exception comes out. *)
Lemma notify_raises (cb : Callback) delta label what w :
  cb (calls w) delta label = Some what →
  ∃ w1, notify (Some cb) delta label w = (Raise (CallbackRaised what), w1)
        ∧ fs w1 = fs w
        ∧ calls w1 = calls w ++ [(delta, label)]
        ∧ stdout w1 = stdout w.
Proof.
  intros H. simpl. unfold call. rewrite H. eexists. split; [reflexivity|]. done.
Qed.

Lemma relative_to_under p base :
  under base p →
  relative_to p base
  = mret {| pathlib.root := "";
            pathlib.parts := drop (length (pathlib.parts base)) (pathlib.parts p) |}.
Proof. intros H. unfold relative_to. by rewrite bool_decide_eq_true_2. Qed.

Lemma relative_to_foreign p base w :
  ¬ under base p →
  relative_to p base w
  = (Raise (ValueError (not_in_subpath p base)), w).
Proof. intros H. unfold relative_to. by rewrite bool_decide_eq_false_2. Qed.

(** Writing one staged file into the archive under its relative path. *)
Lemma pack_write_run cache_dir base archive p members data w :
  under base p →
  fs w !! archive = Some (Archive members) →
  fs w !! source_key cache_dir p = Some data →
  (relative_to p base
     ≫= λ arcname, zipfile.write archive (cache_dir /: pathlib.str p) arcname) w
  = (Ok tt, set_fs <[archive := Archive (members ++ [(pack_name base p, data)])]> w).
Proof.
  intros Hu Ha Hd. rewrite (relative_to_under _ _ Hu).
  rewrite (bind_Ok _ _ _ _ w) by reflexivity.
  unfold zipfile.write. rewrite Ha. fold (source_key cache_dir p). rewrite Hd.
  unfold zipfile.from_file. simpl.
  rewrite (bind_Ok _ _ _ (pack_name base p) w) by reflexivity.
  by apply append_run.
Qed.

Lemma pack_members_cons cache_dir base (files : gmap string file) p paths :
  pack_members cache_dir base files (p :: paths)
  = match files !! source_key cache_dir p with
    | Some data => (pack_name base p, data) :: pack_members cache_dir base files paths
    | None => pack_members cache_dir base files paths
    end.
Proof. unfold pack_members. simpl. by destruct (files !! _). Qed.

Lemma pack_members_insert_ne cache_dir base (files : gmap string file) archive x paths :
  Forall (λ p, source_key cache_dir p ≠ archive) paths →
  pack_members cache_dir base (<[archive := x]> files) paths
  = pack_members cache_dir base files paths.
Proof.
  induction 1 as [|p paths Hp _ IH]; [reflexivity|].
  rewrite !pack_members_cons, lookup_insert_ne by done. by rewrite IH.
Qed.

Lemma pack_members_length cache_dir base (files : gmap string file) paths :
  Forall (λ p, is_Some (files !! source_key cache_dir p)) paths →
  length (pack_members cache_dir base files paths) = length paths.
Proof.
  induction 1 as [|p paths [data Hp] _ IH]; [reflexivity|].
  rewrite pack_members_cons, Hp. simpl. by rewrite IH.
Qed.

(** The loop shared by [pack_clientpack] and [pack_serverpack], for staged
    files that are there and a callback that returns. *)
Lemma pack_loop_run cache_dir base archive (label : Path → string) callback delta
    paths members w :
  Forall (under base) paths →
  Forall (λ p, is_Some (fs w !! source_key cache_dir p)
               ∧ source_key cache_dir p ≠ archive) paths →
  quiet_for callback (calls w) ((λ p, (delta, label p)) <$> paths) = true →
  fs w !! archive = Some (Archive members) →
  ∃ w',
    for_ paths (λ mod_path,
      notify callback delta (label mod_path);;
      arcname ← relative_to mod_path base;
      zipfile.write archive (cache_dir /: pathlib.str mod_path) arcname) w = (Ok tt, w')
    ∧ fs w' = <[archive := Archive (members ++ pack_members cache_dir base (fs w) paths)]> (fs w)
    ∧ calls w' = calls w ++ told callback ((λ p, (delta, label p)) <$> paths)
    ∧ stdout w' = stdout w.
Proof.
  revert members w. induction paths as [|p paths IH]; intros members w Hu Hf Hq Ha.
  - exists w. split; [reflexivity|]. unfold pack_members. simpl. rewrite !app_nil_r.
    split; [symmetry; by apply insert_id|]. split; [|done]. destruct callback; simpl;
      by rewrite ?app_nil_r.
  - inversion Hu as [|? ? Hup Hu']; subst. inversion Hf as [|? ? [[data Hd] Hne] Hf']; subst.
    rewrite fmap_cons in Hq. apply quiet_for_cons in Hq as [Hq1 Hq2].
    destruct (notify_run _ _ _ _ Hq1) as (w1 & Hn & Hfs1 & Hc1 & Ho1).
    rewrite for_cons, bind_run, bind_run, Hn.
    assert (Hstep := pack_write_run cache_dir base archive p members data w1 Hup).
    rewrite Hfs1 in Hstep. specialize (Hstep Ha Hd).
    unfold mbind in Hstep |- *. rewrite Hstep.
    destruct (IH (members ++ [(pack_name base p, data)])
                (set_fs <[archive := Archive (members ++ [(pack_name base p, data)])]> w1))
      as (w' & Hrun & Hfs & Hc & Ho); [done | | | | ].
    + simpl. rewrite Hfs1. eapply Forall_impl; [exact Hf'|]. intros q [[d Hq] Hqne].
      split; [|done]. rewrite lookup_insert_ne by done. by eexists.
    + simpl. by rewrite Hc1.
    + simpl. apply lookup_insert_eq.
    + exists w'. split; [exact Hrun|]. simpl in Hfs, Hc, Ho. rewrite Hfs1 in Hfs.
      rewrite pack_members_insert_ne in Hfs.
      2:{ eapply Forall_impl; [exact Hf'|]. by intros q [_ ?]. }
      rewrite pack_members_cons, Hd. split; [|split].
      * rewrite Hfs, insert_insert_eq. by rewrite <- app_assoc.
      * rewrite Hc, Hc1, fmap_cons, (told_cons _ _ (_ <$> paths)). by rewrite <- app_assoc.
      * by rewrite Ho, Ho1.
Qed.

End gui_more.

(** ** The client and server archives of the GUI *)

Module gui_packs.
Import pathlib_more gui spec gui_spec pathlib_facts py_facts zipfile_facts gui_more.

Lemma truediv_run (x : Q) (n : nat) w :
  n ≠ 0 → py.truediv x n w = (Ok (x / inject_Z (Z.of_nat n))%Q, w).
Proof. intros H. unfold py.truediv. by rewrite decide_False. Qed.

(** Up to the loop: the previous archive, if any, is gone and an empty one
    is open in its place. *)
Lemma pack_open_run {A : Type} archive msg (k : Py A) w :
  ∃ w1,
    (remove_previous archive msg;; print "zipping client archive";;
     zipfile.open_w archive;; k) w = k w1
    ∧ fs w1 = <[archive := Archive []]> (fs w)
    ∧ calls w1 = calls w
    ∧ stdout w1 = stdout w
                  ++ match fs w !! archive with Some _ => [msg] | None => [] end
                  ++ ["zipping client archive"].
Proof.
  rewrite bind_run. unfold remove_previous.
  destruct (fs w !! archive) as [old|] eqn:Hold.
  - eexists. split; [reflexivity|]. simpl. split; [apply insert_delete_eq|].
    split; [done|]. by rewrite <- app_assoc.
  - eexists. split; [reflexivity|]. done.
Qed.

Lemma pack_members_ext cache_dir base (files1 files2 : gmap string file) paths :
  Forall (λ p, files1 !! source_key cache_dir p = files2 !! source_key cache_dir p) paths →
  pack_members cache_dir base files1 paths = pack_members cache_dir base files2 paths.
Proof.
  induction 1 as [|p paths Hp _ IH]; [reflexivity|].
  by rewrite !pack_members_cons, Hp, IH.
Qed.

Lemma pack_members_app cache_dir base (files : gmap string file) ps qs :
  pack_members cache_dir base files (ps ++ qs)
  = pack_members cache_dir base files ps ++ pack_members cache_dir base files qs.
Proof. unfold pack_members. apply omap_app. Qed.

(** The loop stops at the first path it cannot write: the turns before it
    have been written, and the callback has been told of the bad one. *)
Lemma pack_loop_bad_path cache_dir base archive (label : Path → string) callback delta
    before p after members w :
  Forall (under base) before →
  Forall (λ q, is_Some (fs w !! source_key cache_dir q)
               ∧ source_key cache_dir q ≠ archive) before →
  ¬ under base p ∨ fs w !! source_key cache_dir p = None →
  source_key cache_dir p ≠ archive →
  quiet_for callback (calls w) ((λ q, (delta, label q)) <$> before ++ [p]) = true →
  fs w !! archive = Some (Archive members) →
  ∃ w',
    for_ (before ++ p :: after) (λ mod_path,
      notify callback delta (label mod_path);;
      arcname ← relative_to mod_path base;
      zipfile.write archive (cache_dir /: pathlib.str mod_path) arcname) w
    = (Raise (if decide (under base p)
              then FileNotFoundError (source_key cache_dir p)
              else ValueError (not_in_subpath p base)), w')
    ∧ fs w' = <[archive := Archive (members ++ pack_members cache_dir base (fs w) before)]> (fs w)
    ∧ calls w' = calls w ++ told callback ((λ q, (delta, label q)) <$> before ++ [p])
    ∧ stdout w' = stdout w.
Proof.
  intros Hu Hf Hbad Hne Hq Ha.
  rewrite fmap_app, quiet_for_app in Hq. apply andb_true_iff in Hq as [Hq1 Hq2].
  destruct (pack_loop_run cache_dir base archive label callback delta before members w
              Hu Hf Hq1 Ha) as (w1 & Hrun & Hfs1 & Hc1 & Ho1).
  rewrite for_app, (bind_Ok _ _ _ _ _ Hrun), for_cons.
  rewrite <- Hc1 in Hq2.
  destruct (notify_run _ _ _ _ Hq2) as (w2 & Hn & Hfs2 & Hc2 & Ho2).
  rewrite bind_run, bind_run, Hn.
  assert (Ha2 : fs w2 !! archive = Some (Archive (members ++ pack_members cache_dir base (fs w) before))).
  { rewrite Hfs2, Hfs1. apply lookup_insert_eq. }
  assert (Hw : fs w2 = <[archive := Archive (members ++ pack_members cache_dir base (fs w) before)]> (fs w)
               ∧ calls w2 = calls w ++ told callback ((λ q, (delta, label q)) <$> before ++ [p])
               ∧ stdout w2 = stdout w).
  { split; [by rewrite Hfs2|]. split; [|by rewrite Ho2].
    rewrite Hc2, Hc1, fmap_app, told_app. by rewrite <- app_assoc. }
  destruct (decide (under base p)) as [Hup|Hup].
  - destruct Hbad as [Hbad|Hbad]; [done|].
    exists w2. split; [|exact Hw].
    rewrite (relative_to_under _ _ Hup). rewrite (bind_Ok _ _ _ _ w2) by reflexivity.
    unfold zipfile.write. rewrite Ha2. fold (source_key cache_dir p).
    rewrite Hfs2, Hfs1, lookup_insert_ne, Hbad by done. reflexivity.
  - exists w2. split; [|exact Hw].
    by rewrite (bind_Raise _ _ _ _ _ (relative_to_foreign p base w2 Hup)).
Qed.

(** The loop stops when the callback raises: the file of that turn is not
    written. *)
Lemma pack_loop_interrupted cache_dir base archive (label : Path → string)
    (cb : Callback) delta
    before p after what members w :
  Forall (under base) before →
  Forall (λ q, is_Some (fs w !! source_key cache_dir q)
               ∧ source_key cache_dir q ≠ archive) before →
  returns cb (calls w) ((λ q, (delta, label q)) <$> before) = true →
  cb (calls w ++ ((λ q, (delta, label q)) <$> before)) delta (label p) = Some what →
  fs w !! archive = Some (Archive members) →
  ∃ w',
    for_ (before ++ p :: after) (λ mod_path,
      notify (Some cb) delta (label mod_path);;
      arcname ← relative_to mod_path base;
      zipfile.write archive (cache_dir /: pathlib.str mod_path) arcname) w
    = (Raise (CallbackRaised what), w')
    ∧ fs w' = <[archive := Archive (members ++ pack_members cache_dir base (fs w) before)]> (fs w)
    ∧ calls w' = calls w ++ ((λ q, (delta, label q)) <$> before ++ [p])
    ∧ stdout w' = stdout w.
Proof.
  intros Hu Hf Hq Hcb Ha.
  destruct (pack_loop_run cache_dir base archive label (Some cb) delta before members w
              Hu Hf Hq Ha) as (w1 & Hrun & Hfs1 & Hc1 & Ho1).
  rewrite for_app, (bind_Ok _ _ _ _ _ Hrun), for_cons.
  simpl in Hc1. rewrite <- Hc1 in Hcb.
  destruct (notify_raises _ _ _ _ _ Hcb) as (w2 & Hn & Hfs2 & Hc2 & Ho2).
  rewrite bind_run, bind_run, Hn. exists w2. split; [reflexivity|].
  split; [by rewrite Hfs2|]. split; [|by rewrite Ho2].
  rewrite Hc2, Hc1, fmap_app. by rewrite <- app_assoc.
Qed.

Section packs.

Variable cache_dir : Path.

(** X10. [pack_clientpack] on a list that is not empty, of files that are
    staged under [cache_dir / "client_archive"], for a version without a
    separator (the archive then lies in [cache_dir] itself) and with a
    callback that returns: the call completes; what was at
    [client-<version>.zip] is replaced by an archive with one member per
    path, in the order of the list, each named by its path relative to the
    staging folder and holding the file's content; no other file changes;
    the callback is told once per path, each time with the quotient of 100
    by the number of paths. *)
Theorem pack_clientpack_packs client_paths pack_version callback w :
  let archive := pathlib.str (cache_dir /: ("client-" +:+ pack_version +:+ ".zip")) in
  let base := cache_dir /: "client_archive" in
  client_paths ≠ [] →
  has_sep pack_version = false →
  Forall (under base) client_paths →
  Forall (λ p, is_Some (fs w !! source_key cache_dir p)
               ∧ source_key cache_dir p ≠ archive) client_paths →
  quiet_for callback (calls w) (pack_reports "client" pack_version client_paths) = true →
  ∃ w',
    pack_clientpack cache_dir client_paths pack_version callback w = (Ok tt, w')
    ∧ fs w' = <[archive := Archive (pack_members cache_dir base (fs w) client_paths)]> (fs w)
    ∧ length (pack_members cache_dir base (fs w) client_paths) = length client_paths
    ∧ calls w' = calls w ++ told callback (pack_reports "client" pack_version client_paths)
    ∧ length (pack_reports "client" pack_version client_paths) = length client_paths
    ∧ stdout w' = stdout w
                  ++ match fs w !! archive with
                     | Some _ => ["previous client archive deleted"]
                     | None => []
                     end
                  ++ ["zipping client archive"; "success!"].
Proof.
  intros archive base Hne _ Hu Hf Hq.
  unfold pack_clientpack.
  rewrite (bind_Ok _ _ _ _ _ (truediv_run 100 (length client_paths) w
                                ltac:(by destruct client_paths))).
  cbv zeta. fold archive base.
  match goal with
  | |- context [(remove_previous _ _ ≫= λ _, print _ ≫= λ _, zipfile.open_w _ ≫= λ _, ?k) w] =>
      destruct (pack_open_run archive "previous client archive deleted" k w)
        as (w1 & -> & Hfs1 & Hc1 & Ho1)
  end.
  assert (Hsame : Forall (λ p, fs w1 !! source_key cache_dir p = fs w !! source_key cache_dir p)
                    client_paths).
  { eapply Forall_impl; [exact Hf|]. intros p [_ Hp]. simpl in Hp.
    by rewrite Hfs1, lookup_insert_ne. }
  edestruct (pack_loop_run cache_dir base archive
               (λ p, "Packing client archive version " +:+ pack_version +:+ ": "
                     +:+ pathlib.name p +:+ ". Progress: {0}%")
               callback (100 / inject_Z (Z.of_nat (length client_paths)))%Q
               client_paths [] w1)
    as (w2 & Hrun & Hfs2 & Hc2 & Ho2).
  { exact Hu. }
  { apply Forall_forall. intros p Hp.
    rewrite Forall_forall in Hf, Hsame. rewrite (Hsame p Hp). by apply Hf. }
  { by rewrite Hc1. }
  { rewrite Hfs1. apply lookup_insert_eq. }
  rewrite (bind_Ok _ _ _ _ _ Hrun). eexists. split; [reflexivity|].
  cbn [fs calls stdout print fst snd].
  split; [|split; [|split; [|split]]].
  - rewrite Hfs2, Hfs1, insert_insert_eq, app_nil_l.
    rewrite pack_members_insert_ne; [done|].
    eapply Forall_impl; [exact Hf|]. by intros p [_ ?].
  - apply pack_members_length. eapply Forall_impl; [exact Hf|]. by intros p [? _].
  - by rewrite Hc2, Hc1.
  - unfold pack_reports. by rewrite length_fmap.
  - rewrite Ho2, Ho1. by rewrite <- !app_assoc.
Qed.

Lemma pack_reports_take which pack_version before p after :
  take (S (length before)) (pack_reports which pack_version (before ++ p :: after))
  = (λ q, ((100 / inject_Z (Z.of_nat (length (before ++ p :: after))))%Q,
           "Packing " +:+ which +:+ " archive version " +:+ pack_version +:+ ": "
           +:+ pathlib.name q +:+ ". Progress: {0}%")) <$> before ++ [p].
Proof.
  unfold pack_reports. rewrite <- fmap_take. f_equal.
  rewrite cons_middle, app_assoc. apply take_app_length'.
  rewrite length_app. simpl. lia.
Qed.

Lemma pack_reports_take_before which pack_version before p after :
  take (length before) (pack_reports which pack_version (before ++ p :: after))
  = (λ q, ((100 / inject_Z (Z.of_nat (length (before ++ p :: after))))%Q,
           "Packing " +:+ which +:+ " archive version " +:+ pack_version +:+ ": "
           +:+ pathlib.name q +:+ ". Progress: {0}%")) <$> before.
Proof.
  unfold pack_reports. rewrite <- fmap_take. f_equal. by apply take_app_length'.
Qed.

(** X11. [pack_clientpack] stops at the first path it cannot pack, and the
    exception comes out: [ValueError] for a path that is not under the
    staging folder, [FileNotFoundError] for one under it whose file is
    missing. By then the previous archive is gone: the file at
    [client-<version>.zip] holds the members of the paths before the bad one
    only, the callback has been told of the bad path too, and ["success!"]
    is not printed. *)
Theorem pack_clientpack_bad_path before p after pack_version callback w :
  let archive := pathlib.str (cache_dir /: ("client-" +:+ pack_version +:+ ".zip")) in
  let base := cache_dir /: "client_archive" in
  let client_paths := before ++ p :: after in
  Forall (under base) before →
  Forall (λ q, is_Some (fs w !! source_key cache_dir q)
               ∧ source_key cache_dir q ≠ archive) before →
  ¬ under base p ∨ fs w !! source_key cache_dir p = None →
  source_key cache_dir p ≠ archive →
  quiet_for callback (calls w)
    (take (S (length before)) (pack_reports "client" pack_version client_paths)) = true →
  ∃ w',
    pack_clientpack cache_dir client_paths pack_version callback w
    = (Raise (if decide (under base p)
              then FileNotFoundError (source_key cache_dir p)
              else ValueError (not_in_subpath p base)), w')
    ∧ fs w' = <[archive := Archive (pack_members cache_dir base (fs w) before)]> (fs w)
    ∧ calls w' = calls w
                 ++ told callback
                      (take (S (length before)) (pack_reports "client" pack_version client_paths))
    ∧ stdout w' = stdout w
                  ++ match fs w !! archive with
                     | Some _ => ["previous client archive deleted"]
                     | None => []
                     end
                  ++ ["zipping client archive"].
Proof.
  intros archive base client_paths Hu Hf Hbad Hne Hq.
  unfold pack_clientpack.
  rewrite (bind_Ok _ _ _ _ _ (truediv_run 100 (length client_paths) w
                                ltac:(by destruct before))).
  cbv zeta. fold archive base.
  match goal with
  | |- context [(remove_previous _ _ ≫= λ _, print _ ≫= λ _, zipfile.open_w _ ≫= λ _, ?k) w] =>
      destruct (pack_open_run archive "previous client archive deleted" k w)
        as (w1 & -> & Hfs1 & Hc1 & Ho1)
  end.
  subst client_paths. rewrite pack_reports_take in Hq |- *.
  edestruct (pack_loop_bad_path cache_dir base archive
               (λ q, "Packing client archive version " +:+ pack_version +:+ ": "
                     +:+ pathlib.name q +:+ ". Progress: {0}%")
               callback (100 / inject_Z (Z.of_nat (length (before ++ p :: after))))%Q
               before p after [] w1)
    as (w2 & Hrun & Hfs2 & Hc2 & Ho2).
  { exact Hu. }
  { eapply Forall_impl; [exact Hf|]. intros q [Hq1 Hq2]. simpl in Hq2.
    by rewrite Hfs1, lookup_insert_ne. }
  { destruct Hbad as [Hbad|Hbad]; [by left | right].
    by rewrite Hfs1, lookup_insert_ne. }
  { exact Hne. }
  { by rewrite Hc1. }
  { rewrite Hfs1. apply lookup_insert_eq. }
  rewrite (bind_Raise _ _ _ _ _ Hrun). eexists. split; [reflexivity|].
  split; [|split].
  - rewrite Hfs2, Hfs1, insert_insert_eq, app_nil_l.
    rewrite pack_members_insert_ne; [done|].
    eapply Forall_impl; [exact Hf|]. by intros q [_ ?].
  - by rewrite Hc2, Hc1.
  - by rewrite Ho2, Ho1.
Qed.

(** X12. A callback that raises stops [pack_clientpack], which catches
    nothing: the exception comes out, the file of that turn is not written,
    and the file at [client-<version>.zip] is left holding the members of
    the turns before it. *)
Theorem pack_clientpack_interrupted before p after pack_version (cb : Callback) what w :
  let archive := pathlib.str (cache_dir /: ("client-" +:+ pack_version +:+ ".zip")) in
  let base := cache_dir /: "client_archive" in
  let client_paths := before ++ p :: after in
  let reports := pack_reports "client" pack_version client_paths in
  Forall (under base) before →
  Forall (λ q, is_Some (fs w !! source_key cache_dir q)
               ∧ source_key cache_dir q ≠ archive) before →
  returns cb (calls w) (take (length before) reports) = true →
  cb (calls w ++ take (length before) reports)
     (100 / inject_Z (Z.of_nat (length client_paths)))%Q
     ("Packing client archive version " +:+ pack_version +:+ ": "
      +:+ pathlib.name p +:+ ". Progress: {0}%") = Some what →
  ∃ w',
    pack_clientpack cache_dir client_paths pack_version (Some cb) w
    = (Raise (CallbackRaised what), w')
    ∧ fs w' = <[archive := Archive (pack_members cache_dir base (fs w) before)]> (fs w)
    ∧ calls w' = calls w ++ take (S (length before)) reports
    ∧ stdout w' = stdout w
                  ++ match fs w !! archive with
                     | Some _ => ["previous client archive deleted"]
                     | None => []
                     end
                  ++ ["zipping client archive"].
Proof.
  intros archive base client_paths reports Hu Hf Hq Hcb.
  unfold pack_clientpack.
  rewrite (bind_Ok _ _ _ _ _ (truediv_run 100 (length client_paths) w
                                ltac:(by destruct before))).
  cbv zeta. fold archive base.
  match goal with
  | |- context [(remove_previous _ _ ≫= λ _, print _ ≫= λ _, zipfile.open_w _ ≫= λ _, ?k) w] =>
      destruct (pack_open_run archive "previous client archive deleted" k w)
        as (w1 & -> & Hfs1 & Hc1 & Ho1)
  end.
  subst reports client_paths.
  rewrite pack_reports_take. rewrite pack_reports_take_before in Hq, Hcb.
  edestruct (pack_loop_interrupted cache_dir base archive
               (λ q, "Packing client archive version " +:+ pack_version +:+ ": "
                     +:+ pathlib.name q +:+ ". Progress: {0}%")
               cb (100 / inject_Z (Z.of_nat (length (before ++ p :: after))))%Q
               before p after what [] w1)
    as (w2 & Hrun & Hfs2 & Hc2 & Ho2).
  { exact Hu. }
  { eapply Forall_impl; [exact Hf|]. intros q [Hq1 Hq2]. simpl in Hq2.
    by rewrite Hfs1, lookup_insert_ne. }
  { by rewrite Hc1. }
  { rewrite Hc1. exact Hcb. }
  { rewrite Hfs1. apply lookup_insert_eq. }
  rewrite (bind_Raise _ _ _ _ _ Hrun). eexists. split; [reflexivity|].
  split; [|split].
  - rewrite Hfs2, Hfs1, insert_insert_eq, app_nil_l.
    rewrite pack_members_insert_ne; [done|].
    eapply Forall_impl; [exact Hf|]. by intros q [_ ?].
  - by rewrite Hc2, Hc1.
  - by rewrite Ho2, Ho1.
Qed.

(** X13. [pack_serverpack] does for [server-<version>.zip] and the folder
    [cache_dir / "server_archive"] what [pack_clientpack] does for the
    client, for a version without a separator: one member per path, named
    relative to the staging folder, the previous archive replaced, one
    report per path with the quotient of 100 by the number of paths. The
    line it prints before packing is the client's
    (["zipping client archive"]). *)
Theorem pack_serverpack_packs server_paths pack_version callback w :
  let archive := pathlib.str (cache_dir /: ("server-" +:+ pack_version +:+ ".zip")) in
  let base := cache_dir /: "server_archive" in
  server_paths ≠ [] →
  has_sep pack_version = false →
  Forall (under base) server_paths →
  Forall (λ p, is_Some (fs w !! source_key cache_dir p)
               ∧ source_key cache_dir p ≠ archive) server_paths →
  quiet_for callback (calls w) (pack_reports "server" pack_version server_paths) = true →
  ∃ w',
    pack_serverpack cache_dir server_paths pack_version callback w = (Ok tt, w')
    ∧ fs w' = <[archive := Archive (pack_members cache_dir base (fs w) server_paths)]> (fs w)
    ∧ length (pack_members cache_dir base (fs w) server_paths) = length server_paths
    ∧ calls w' = calls w ++ told callback (pack_reports "server" pack_version server_paths)
    ∧ length (pack_reports "server" pack_version server_paths) = length server_paths
    ∧ stdout w' = stdout w
                  ++ match fs w !! archive with
                     | Some _ => ["previous server archive deleted"]
                     | None => []
                     end
                  ++ ["zipping client archive"; "success!"].
Proof.
  intros archive base Hne _ Hu Hf Hq.
  unfold pack_serverpack.
  rewrite (bind_Ok _ _ _ _ _ (truediv_run 100 (length server_paths) w
                                ltac:(by destruct server_paths))).
  cbv zeta. fold archive base.
  match goal with
  | |- context [(remove_previous _ _ ≫= λ _, print _ ≫= λ _, zipfile.open_w _ ≫= λ _, ?k) w] =>
      destruct (pack_open_run archive "previous server archive deleted" k w)
        as (w1 & -> & Hfs1 & Hc1 & Ho1)
  end.
  edestruct (pack_loop_run cache_dir base archive
               (λ p, "Packing server archive version " +:+ pack_version +:+ ": "
                     +:+ pathlib.name p +:+ ". Progress: {0}%")
               callback (100 / inject_Z (Z.of_nat (length server_paths)))%Q
               server_paths [] w1)
    as (w2 & Hrun & Hfs2 & Hc2 & Ho2).
  { exact Hu. }
  { eapply Forall_impl; [exact Hf|]. intros q [Hq1 Hq2]. simpl in Hq2.
    by rewrite Hfs1, lookup_insert_ne. }
  { by rewrite Hc1. }
  { rewrite Hfs1. apply lookup_insert_eq. }
  rewrite (bind_Ok _ _ _ _ _ Hrun). eexists. split; [reflexivity|].
  cbn [fs calls stdout print fst snd].
  split; [|split; [|split; [|split]]].
  - rewrite Hfs2, Hfs1, insert_insert_eq, app_nil_l.
    rewrite pack_members_insert_ne; [done|].
    eapply Forall_impl; [exact Hf|]. by intros p [_ ?].
  - apply pack_members_length. eapply Forall_impl; [exact Hf|]. by intros p [? _].
  - by rewrite Hc2, Hc1.
  - unfold pack_reports. by rewrite length_fmap.
  - rewrite Ho2, Ho1. by rewrite <- !app_assoc.
Qed.


End packs.

End gui_packs.

(** ** Downloading the mods of the manifest *)

Module gui_downloads.
Import pathlib_more gui spec gui_spec py_facts gui_facts gui_more gui_packs.

Section downloads.

Variable download_mod : ModInfo → result (list Path).


(** One turn of the loop for a mod whose download succeeds. *)
Lemma download_mods_step_run callback delta acc m paths w :
  download_mod m = Ok paths →
  quiet_for callback (calls w)
    [(delta, "downloading mods. current mod: " +:+ name m +:+ " Progress: {0}%")] = true →
  ∃ acc' w1,
    download_mods_step download_mod callback delta acc m w = (Ok acc', w1)
    ∧ fs w1 = fs w
    ∧ calls w1 = calls w
                 ++ told callback
                      [(delta, "downloading mods. current mod: " +:+ name m +:+ " Progress: {0}%")]
    ∧ stdout w1 = stdout w.
Proof.
  intros Hd Hq. destruct acc as [client_paths server_paths].
  destruct (notify_run _ _ _ _ Hq) as (w1 & Hn & Hfs & Hc & Ho).
  unfold download_mods_step. rewrite (bind_Ok _ _ _ _ _ Hn).
  rewrite (bind_Ok _ _ _ paths w1) by (unfold do_download_mod; by rewrite Hd).
  destruct (String.eqb (side m) "BOTH"); [by eexists _, w1|].
  destruct (String.eqb (side m) "CLIENT"); [by eexists _, w1|].
  destruct (String.eqb (side m) "SERVER"); by eexists _, w1.
Qed.

Lemma download_mods_loop_run callback delta mods acc w :
  Forall (λ m, ∃ paths, download_mod m = Ok paths) mods →
  quiet_for callback (calls w)
    ((λ m, (delta, "downloading mods. current mod: " +:+ name m +:+ " Progress: {0}%"))
       <$> mods) = true →
  ∃ r w',
    for_acc mods (download_mods_step download_mod callback delta) acc w = (Ok r, w')
    ∧ fs w' = fs w
    ∧ calls w' = calls w
                 ++ told callback
                      ((λ m, (delta, "downloading mods. current mod: " +:+ name m
                                     +:+ " Progress: {0}%")) <$> mods)
    ∧ stdout w' = stdout w.
Proof.
  revert acc w. induction mods as [|m mods IH]; intros acc w Hd Hq.
  - exists acc, w. split; [reflexivity|]. split; [done|]. split; [|done].
    destruct callback; simpl; by rewrite ?app_nil_r.
  - inversion Hd as [|? ? [paths Hm] Hd']; subst.
    rewrite fmap_cons in Hq. apply quiet_for_cons in Hq as [Hq1 Hq2].
    destruct (download_mods_step_run callback delta acc m paths w Hm Hq1)
      as (acc' & w1 & Hstep & Hfs1 & Hc1 & Ho1).
    rewrite <- Hc1 in Hq2.
    destruct (IH acc' w1 Hd' Hq2) as (r & w' & Hrun & Hfs & Hc & Ho).
    exists r, w'. simpl for_acc. rewrite (bind_Ok _ _ _ _ _ Hstep).
    split; [exact Hrun|]. split; [by rewrite Hfs|]. split; [|by rewrite Ho].
    rewrite Hc, Hc1, fmap_cons, (told_cons _ _ (_ <$> mods)). by rewrite <- app_assoc.
Qed.

(** X14. [download_mods] on a manifest with at least one mod, when every
    download succeeds and the callback returns: the call completes with the
    two collections, and the callback is told once per mod, in manifest
    order and whatever the mod's side (also for a mod that goes to neither
    collection), each time with the quotient of 100 by the number of mods. *)
Theorem download_mods_reports gtnh_modpack callback w :
  github_mods gtnh_modpack ≠ [] →
  Forall (λ m, ∃ paths, download_mod m = Ok paths) (github_mods gtnh_modpack) →
  quiet_for callback (calls w) (download_reports (github_mods gtnh_modpack)) = true →
  ∃ w',
    download_mods download_mod gtnh_modpack callback w
    = (Ok (filter for_client (github_mods gtnh_modpack) ≫= downloaded download_mod,
           filter for_server (github_mods gtnh_modpack) ≫= downloaded download_mod), w')
    ∧ calls w' = calls w ++ told callback (download_reports (github_mods gtnh_modpack))
    ∧ length (download_reports (github_mods gtnh_modpack))
      = length (github_mods gtnh_modpack).
Proof.
  intros Hne Hd Hq. unfold download_mods.
  rewrite (bind_Ok _ _ _ _ _ (truediv_run 100 (length (github_mods gtnh_modpack)) w
                                ltac:(by destruct (github_mods gtnh_modpack)))).
  destruct (download_mods_loop_run callback
              (100 / inject_Z (Z.of_nat (length (github_mods gtnh_modpack))))%Q
              (github_mods gtnh_modpack) ([], []) w Hd Hq)
    as (r & w' & Hrun & Hfs & Hc & Ho).
  exists w'. rewrite Hrun.
  apply download_mods_loop in Hrun. simpl in Hrun. subst r.
  split; [reflexivity|]. split; [exact Hc|].
  unfold download_reports. by rewrite length_fmap.
Qed.


End downloads.

End gui_downloads.

(** ** Listing a folder *)

Module gui_crawl_facts.
Import pathlib_more gui spec gui_spec gui_crawl pathlib_facts py_facts.

Lemma node_induction (P : node → Prop) :
  P File → P Other →
  (∀ entries, Forall (λ x, P x.2) entries → P (Dir entries)) →
  ∀ n, P n.
Proof.
  intros HF HO HD. fix IH 1. intros [|entries|]; [exact HF | | exact HO].
  apply HD. induction entries as [|x xs IHxs]; constructor; [apply IH | exact IHxs].
Qed.

(** [crawl] by its two passes over the entries. *)
Lemma crawl_unfold path entries :
  crawl path entries
  = omap (λ x, if is_file x.2 then Some (child path x.1) else None) entries
    ++ (entries ≫= λ x, match x.2 with
                         | Dir sub => crawl (child path x.1) sub
                         | _ => []
                         end).
Proof.
  unfold crawl at 1. cbn [crawl_dir]. f_equal.
  induction entries as [|[name [|sub|]] xs IH]; [reflexivity| | |]; cbn [is_dir];
    rewrite IH; reflexivity.
Qed.

Lemma listing_Dir entries :
  listing (Dir entries)
  ↔ NoDup entries.*1
    ∧ Forall (λ name, has_sep name = false ∧ name ≠ "" ∧ name ≠ "." ∧ name ≠ "..") entries.*1
    ∧ Forall (λ x, listing x.2) entries.
Proof.
  cbn [listing]. split; intros (H1 & H2 & H3); (split; [exact H1|]; split; [exact H2|]).
  - clear H1 H2. induction entries as [|x xs IH]; [constructor|].
    destruct H3 as [Hx Hxs]. constructor; [exact Hx | by apply IH].
  - clear H1 H2. induction H3 as [|x xs Hx _ IH]; [exact I|]. split; [exact Hx | exact IH].
Qed.

Lemma file_at_nonempty names entries : file_at names entries → names ≠ [].
Proof. by destruct names. Qed.

Lemma file_at_cons name rest entries :
  rest ≠ [] →
  file_at (name :: rest) entries ↔ ∃ sub, (name, Dir sub) ∈ entries ∧ file_at rest sub.
Proof. by destruct rest. Qed.

Lemma elem_of_files path (entries : list (string * node)) p :
  p ∈ omap (λ x : string * node, if is_file x.2 then Some (child path x.1) else None) entries
  ↔ ∃ name, (name, File) ∈ entries ∧ p = child path name.
Proof.
  rewrite list_elem_of_omap. split.
  - intros ([name [|sub|]] & Hin & Hp); simpl in Hp; try discriminate.
    injection Hp as <-. by exists name.
  - intros (name & Hin & ->). by exists (name, File).
Qed.

Lemma elem_of_folders path (entries : list (string * node)) p :
  p ∈ (entries ≫= λ x : string * node,
         match x.2 with Dir sub => crawl (child path x.1) sub | _ => [] end)
  ↔ ∃ name sub, (name, Dir sub) ∈ entries ∧ p ∈ crawl (child path name) sub.
Proof.
  rewrite list_elem_of_bind. split.
  - intros ([name [|sub|]] & Hp & Hin); simpl in Hp; try by apply elem_of_nil in Hp.
    by exists name, sub.
  - intros (name & sub & Hin & Hp). by exists (name, Dir sub).
Qed.

Lemma crawl_elem_of_aux n :
  ∀ path p,
    p ∈ crawl_dir n path
    ↔ ∃ names, match n with Dir entries => file_at names entries | _ => False end
               ∧ p = {| pathlib.root := pathlib.root path;
                        pathlib.parts := pathlib.parts path ++ names |}.
Proof.
  induction n as [| |entries IH] using node_induction; intros path p.
  - simpl. split; [by intros ?%elem_of_nil | by intros (? & [] & _)].
  - simpl. split; [by intros ?%elem_of_nil | by intros (? & [] & _)].
  - change (crawl_dir (Dir entries) path) with (crawl path entries).
    rewrite crawl_unfold, elem_of_app, elem_of_files, elem_of_folders. split.
    + intros [(name & Hin & ->)|(name & sub & Hin & Hp)].
      * by exists [name].
      * rewrite Forall_forall in IH. apply (IH _ Hin) in Hp as (names & Hat & ->).
        simpl in Hat. exists (name :: names). split.
        -- apply file_at_cons; [by eapply file_at_nonempty|]. by exists sub.
        -- simpl. by rewrite <- app_assoc.
    + intros ([|name rest] & Hat & ->); [done|].
      destruct rest as [|name' rest].
      * left. by exists name.
      * right. destruct Hat as (sub & Hin & Hat). exists name, sub. split; [done|].
        rewrite Forall_forall in IH. apply (IH _ Hin). exists (name' :: rest).
        split; [exact Hat|]. simpl. by rewrite <- app_assoc.
Qed.

(** X16. [crawl(path)] lists exactly the files under the directory: a path
    is listed if and only if it is [path] followed by names that lead,
    folder by folder, to a file. What is neither a file nor a directory is
    left out, and so is every folder, empty or not. *)
Theorem crawl_lists_files path entries p :
  p ∈ crawl path entries
  ↔ ∃ names, file_at names entries
             ∧ p = {| pathlib.root := pathlib.root path;
                      pathlib.parts := pathlib.parts path ++ names |}.
Proof. apply (crawl_elem_of_aux (Dir entries)). Qed.

Lemma crawl_elem_of path entries p :
  p ∈ crawl path entries
  ↔ ∃ names, file_at names entries
             ∧ p = {| pathlib.root := pathlib.root path;
                      pathlib.parts := pathlib.parts path ++ names |}.
Proof. apply (crawl_elem_of_aux (Dir entries)). Qed.

Lemma child_inj path a b : child path a = child path b → a = b.
Proof. unfold child. intros [= H]. apply app_inv_head in H. by injection H. Qed.

Lemma elem_of_names (name : string) (n : node) (entries : list (string * node)) :
  (name, n) ∈ entries → name ∈ entries.*1.
Proof. intros H. apply list_elem_of_fmap. by exists (name, n). Qed.

Lemma files_NoDup path (entries : list (string * node)) :
  NoDup entries.*1 →
  NoDup (omap (λ x : string * node,
                 if is_file x.2 then Some (child path x.1) else None) entries).
Proof.
  induction entries as [|[name n] xs IH]; [constructor|].
  rewrite fmap_cons, NoDup_cons. intros [Hname Hxs]. specialize (IH Hxs).
  destruct n as [|sub|]; simpl; [|exact IH|exact IH].
  apply NoDup_cons. split; [|exact IH].
  intros (name' & Hin & Heq)%elem_of_files. apply child_inj in Heq as ->.
  apply Hname. by eapply elem_of_names.
Qed.

Lemma folders_NoDup path (entries : list (string * node)) :
  NoDup entries.*1 →
  Forall (λ x, ∀ path', NoDup (crawl_dir x.2 path')) entries →
  NoDup (entries ≫= λ x : string * node,
           match x.2 with Dir sub => crawl (child path x.1) sub | _ => [] end).
Proof.
  induction entries as [|[name n] xs IH]; [constructor|].
  rewrite fmap_cons, NoDup_cons. intros [Hname Hxs] Hall.
  inversion Hall as [|? ? Hn Hall']; subst. specialize (IH Hxs Hall').
  change (NoDup (match n with Dir sub => crawl (child path name) sub | _ => [] end
                 ++ (xs ≫= λ x : string * node,
                       match x.2 with Dir sub => crawl (child path x.1) sub | _ => [] end))).
  destruct n as [|sub|]; [exact IH| |exact IH].
  apply NoDup_app. split; [apply (Hn (child path name))|]. split; [|exact IH].
  intros p (names & _ & ->)%crawl_elem_of (name' & sub' & Hin & Hp)%elem_of_folders.
  apply crawl_elem_of in Hp as (names' & _ & Heq). injection Heq as Heq.
  simpl in Heq. rewrite <- !app_assoc in Heq. apply app_inv_head in Heq.
  injection Heq as -> _. apply Hname. by eapply elem_of_names.
Qed.

Lemma crawl_NoDup_aux n : listing n → ∀ path, NoDup (crawl_dir n path).
Proof.
  induction n as [| |entries IH] using node_induction; intros Hl path;
    [constructor | constructor |].
  apply listing_Dir in Hl as (Hnames & _ & Hsub).
  change (crawl_dir (Dir entries) path) with (crawl path entries).
  rewrite crawl_unfold. apply NoDup_app. split; [by apply files_NoDup|]. split.
  - intros p (name & _ & ->)%elem_of_files (name' & sub & Hin & Hp)%elem_of_folders.
    apply crawl_elem_of in Hp as (names & Hat & Heq). injection Heq as Heq.
    simpl in Heq. rewrite <- app_assoc in Heq. apply app_inv_head in Heq.
    injection Heq as _ Heq. apply file_at_nonempty in Hat. by subst names.
  - apply folders_NoDup; [exact Hnames|].
    rewrite Forall_forall in IH. rewrite Forall_forall in Hsub.
    apply Forall_forall. intros x Hx path'.
    by apply (IH x Hx (Hsub x Hx)).
Qed.

(** X17. [crawl] lists no file twice, the names in each directory being
    distinct: making a set of the result, as [handle_pack_extra_files]
    does, loses nothing. *)
Theorem crawl_no_duplicates path entries :
  listing (Dir entries) →
  NoDup (crawl path entries)
  ∧ length (elements (list_to_set (crawl path entries) : gset Path))
    = length (crawl path entries).
Proof.
  intros Hl. assert (Hnd := crawl_NoDup_aux (Dir entries) Hl path).
  change (crawl_dir (Dir entries) path) with (crawl path entries) in Hnd.
  split; [exact Hnd|]. by rewrite (elements_list_to_set _ Hnd).
Qed.

Lemma split_append_sep a rest :
  has_sep a = false → pathlib.split (a +:+ "/" +:+ rest) = a :: pathlib.split rest.
Proof.
  induction a as [|c a IH]; [reflexivity|].
  rewrite append_cons. simpl. destruct (Ascii.eqb c "/"); [done|]. simpl.
  intros H. by rewrite (IH H).
Qed.

Lemma join_cons x y ps :
  pathlib.join (x :: y :: ps) = x +:+ "/" +:+ pathlib.join (y :: ps).
Proof. reflexivity. Qed.

(** Joining components and splitting again gives the components back. *)
Lemma split_join ps :
  ps ≠ [] → Forall (λ x, has_sep x = false) ps → pathlib.split (pathlib.join ps) = ps.
Proof.
  induction ps as [|x ps IH]; [done|]. intros _ Hps.
  inversion Hps as [|? ? Hx Hps']; subst.
  destruct ps as [|y ps]; [by apply split_no_sep|].
  rewrite join_cons, split_append_sep by done. by rewrite IH.
Qed.

Lemma file_at_names names : ∀ entries,
  listing (Dir entries) → file_at names entries →
  Forall (λ name, has_sep name = false ∧ name ≠ "" ∧ name ≠ "." ∧ name ≠ "..") names.
Proof.
  induction names as [|name rest IH]; intros entries Hl Hat; [constructor|].
  apply listing_Dir in Hl as (_ & Hgood & Hsub).
  rewrite Forall_forall in Hgood. rewrite Forall_forall in Hsub.
  destruct rest as [|name' rest].
  - constructor; [|constructor]. apply Hgood. by eapply elem_of_names.
  - destruct Hat as (sub & Hin & Hat). constructor.
    + apply Hgood. by eapply elem_of_names.
    + apply (IH sub); [|exact Hat]. by apply (Hsub _ Hin).
Qed.

Lemma pack_name_names base names :
  names ≠ [] → Forall (λ x, x ≠ "..") names →
  pack_name base {| pathlib.root := pathlib.root base;
                    pathlib.parts := pathlib.parts base ++ names |}
  = pathlib.join names.
Proof.
  intros Hne Hnames. unfold pack_name. simpl. rewrite drop_app_length.
  rewrite normpath_id by done. by destruct names.
Qed.

(** X18. Crawling a staging folder and packing what was found fit: every
    crawled path lies under the folder, so [relative_to] accepts it; its
    member name is the names that lead to the file, joined by ["/"]; and no
    two crawled files get the same member name. *)
Theorem crawl_pack_names base entries :
  listing (Dir entries) →
  Forall (under base) (crawl base entries)
  ∧ (∀ p, p ∈ crawl base entries →
          ∃ names, file_at names entries ∧ pack_name base p = pathlib.join names)
  ∧ NoDup (pack_name base <$> crawl base entries).
Proof.
  intros Hl.
  assert (Hshape : ∀ p, p ∈ crawl base entries →
            ∃ names, file_at names entries
                     ∧ names ≠ []
                     ∧ Forall (λ x, has_sep x = false) names
                     ∧ p = {| pathlib.root := pathlib.root base;
                              pathlib.parts := pathlib.parts base ++ names |}
                     ∧ pack_name base p = pathlib.join names).
  { intros p (names & Hat & ->)%crawl_elem_of. exists names.
    assert (Hgood := file_at_names names entries Hl Hat).
    split; [exact Hat|]. split; [by eapply file_at_nonempty|].
    split; [eapply Forall_impl; [exact Hgood|]; by intros ? (? & _)|].
    split; [reflexivity|]. apply pack_name_names; [by eapply file_at_nonempty|].
    eapply Forall_impl; [exact Hgood|]. by intros ? (_ & _ & _ & ?). }
  split; [|split].
  - apply Forall_forall. intros p (names & _ & _ & _ & -> & _)%Hshape.
    split; [reflexivity|]. simpl. by rewrite take_app_length.
  - intros p (names & Hat & _ & _ & _ & Hname)%Hshape. by exists names.
  - apply NoDup_fmap_2_strong.
    + intros p q (ns & _ & Hne1 & Hs1 & -> & Hn1)%Hshape (ms & _ & Hne2 & Hs2 & -> & Hn2)%Hshape.
      rewrite Hn1, Hn2. intros Heq.
      assert (ns = ms) as ->; [|reflexivity].
      by rewrite <- (split_join ns Hne1 Hs1), <- (split_join ms Hne2 Hs2), Heq.
    + assert (Hnd := crawl_NoDup_aux (Dir entries) Hl base). exact Hnd.
Qed.


End gui_crawl_facts.

(** ** The exclusions editor *)

Module gui_frames_facts.
Import gui gui_frames.

Lemma ascii_compare_lt_trans (a b c : ascii) :
  Ascii.compare a b = Lt → Ascii.compare b c = Lt → Ascii.compare a c = Lt.
Proof.
  unfold Ascii.compare. rewrite !N.compare_lt_iff. apply N.lt_trans.
Qed.

Lemma string_compare_cons (a b : ascii) (s t : string) :
  String.compare (String a s) (String b t)
  = match Ascii.compare a b with
    | Eq => String.compare s t
    | Lt => Lt
    | Gt => Gt
    end.
Proof. reflexivity. Qed.

Lemma str_le_cons (a b : ascii) (s t : string) :
  str_le (String a s) (String b t)
  ↔ Ascii.compare a b = Lt ∨ (a = b ∧ str_le s t).
Proof.
  unfold str_le, String.leb. rewrite string_compare_cons.
  destruct (Ascii.compare a b) eqn:E.
  - apply Ascii.compare_eq_iff in E as ->. split; [by right | by intros [?|[_ ?]]].
  - split; [by left | done].
  - split; [done|]. intros [?|[-> _]]; [done|].
    assert (Ascii.compare b b = Eq) as Hb; [|by rewrite Hb in E].
    unfold Ascii.compare. apply N.compare_refl.
Qed.

#[local] Instance str_le_trans : Transitive str_le.
Proof.
  intros s. induction s as [|a s IH]; intros t u Hst Htu.
  - by destruct u.
  - destruct t as [|b t]; [done|]. destruct u as [|c u]; [by destruct t|].
    apply str_le_cons in Hst, Htu. apply str_le_cons.
    destruct Hst as [Hab|[-> Hst]], Htu as [Hbc|[-> Htu]].
    + left. by eapply ascii_compare_lt_trans.
    + by left.
    + by left.
    + right. split; [done|]. by eapply IH.
Qed.

#[local] Instance str_le_total : Total str_le.
Proof. intros a b. apply String.leb_total. Qed.

#[local] Instance str_le_antisym : AntiSymm eq str_le.
Proof. intros a b. apply String.leb_antisym. Qed.

Lemma sorted_Permutation xs : sorted xs ≡ₚ xs.
Proof. apply merge_sort_Permutation. Qed.

Lemma sorted_elem_of x xs : x ∈ sorted xs ↔ x ∈ xs.
Proof. by rewrite sorted_Permutation. Qed.

Lemma sorted_StronglySorted xs : StronglySorted str_le (sorted xs).
Proof. apply StronglySorted_merge_sort; apply _. Qed.

(** [sorted] gives the one ascending arrangement of the strings. *)
Lemma sorted_unique xs ys : Sorted str_le ys → ys ≡ₚ xs → sorted xs = ys.
Proof.
  intros Hs Hp. apply (Sorted_unique str_le); [apply Sorted_merge_sort; apply _ | exact Hs |].
  by rewrite sorted_Permutation.
Qed.

Lemma eqb_empty (s : string) : s ≠ "" → String.eqb s "" = false.
Proof. by intros ?%String.eqb_neq. Qed.

(** X19. Pressing [add] on the client list of the exclusions editor with a
    text that is not empty: the text is appended to the list box, but the
    exclusions stored in the manifest, and saved, are the sorted content the
    list box had before the press. The new text is among them only if it was
    listed already. The server side is left alone. *)
Theorem client_add_saves_previous_content self :
  let text := entry (exclusion_frame_client self) in
  let before := get_listbox_content (exclusion_frame_client self) in
  let self' := client_add self in
  text ≠ "" →
  get_listbox_content (exclusion_frame_client self') = before ++ [text]
  ∧ client_exclusions (gtnh_modpack self') = sorted before
  ∧ (text ∈ client_exclusions (gtnh_modpack self') ↔ text ∈ before)
  ∧ saved self' = saved self ++ [gtnh_modpack self']
  ∧ server_exclusions (gtnh_modpack self') = server_exclusions (gtnh_modpack self)
  ∧ exclusion_frame_server self' = exclusion_frame_server self.
Proof.
  intros text before self' Hne. subst self'.
  unfold client_add, add, add_client, save. cbn [String.eqb Ascii.eqb Bool.eqb].
  fold text. rewrite (eqb_empty _ Hne). cbn.
  split; [reflexivity|]. split; [reflexivity|]. split; [apply sorted_elem_of|]. done.
Qed.

(** X20. Pressing [remove] on the client list with an item selected: the
    item leaves the list box, but the exclusions stored and saved are the
    sorted content the list box had before the press with an empty string
    added: the removed item is still excluded, and so is [""]. Without a
    selection the press changes nothing and saves nothing. *)
Theorem client_remove_keeps_exclusion self :
  let before := get_listbox_content (exclusion_frame_client self) in
  let self' := client_remove self in
  match curselection (listbox (exclusion_frame_client self)) with
  | None => self' = self
  | Some index =>
      get_listbox_content (exclusion_frame_client self') = delete index before
      ∧ curselection (listbox (exclusion_frame_client self')) = None
      ∧ client_exclusions (gtnh_modpack self') = sorted (before ++ [""])
      ∧ (∀ item, before !! index = Some item → item ∈ client_exclusions (gtnh_modpack self'))
      ∧ "" ∈ client_exclusions (gtnh_modpack self')
      ∧ saved self' = saved self ++ [gtnh_modpack self']
      ∧ server_exclusions (gtnh_modpack self') = server_exclusions (gtnh_modpack self)
  end.
Proof.
  intros before self'. subst self'. unfold client_remove, remove.
  destruct (curselection (listbox (exclusion_frame_client self))) as [index|] eqn:Hsel;
    [|reflexivity].
  unfold del_client, save. cbn. rewrite Hsel, decide_True by done.
  split; [reflexivity|]. split; [reflexivity|]. split; [reflexivity|].
  split; [|split; [|done]].
  - intros item Hitem. apply sorted_elem_of, elem_of_app. left.
    by eapply list_elem_of_lookup_2.
  - apply sorted_elem_of, elem_of_app. right. by apply list_elem_of_singleton.
Qed.

Lemma sorted_sorted_app xs ys : sorted (sorted xs ++ ys) = sorted (xs ++ ys).
Proof.
  apply sorted_unique; [apply Sorted_merge_sort; apply _|].
  by rewrite !sorted_Permutation.
Qed.

(** One press of [add] on the client list with a text that is not empty:
    the manifest stored, which is also the one saved. *)
Lemma client_add_modpack self :
  entry (exclusion_frame_client self) ≠ "" →
  gtnh_modpack (client_add self)
  = set_client_exclusions (sorted (get_listbox_content (exclusion_frame_client self)))
      (gtnh_modpack self)
  ∧ get_listbox_content (exclusion_frame_client (client_add self))
    = get_listbox_content (exclusion_frame_client self) ++ [entry (exclusion_frame_client self)]
  ∧ saved (client_add self) = saved self ++ [gtnh_modpack (client_add self)].
Proof.
  intros Hne. unfold client_add, add, add_client, save.
  cbn [String.eqb Ascii.eqb Bool.eqb]. rewrite (eqb_empty _ Hne). cbn. done.
Qed.

(** A run of presses from any state of the editor. *)
Lemma client_adds_run texts : ∀ self,
  Forall (λ text, text ≠ "") texts →
  let self' := foldl (λ self text, client_add (type_client text self)) self texts in
  let before := get_listbox_content (exclusion_frame_client self) in
  get_listbox_content (exclusion_frame_client self') = before ++ texts
  ∧ gtnh_modpack self'
    = match texts with
      | [] => gtnh_modpack self
      | _ :: _ => set_client_exclusions (sorted (before ++ removelast texts)) (gtnh_modpack self)
      end
  ∧ saved self'
    = saved self
      ++ ((λ k, set_client_exclusions (sorted (before ++ take k texts)) (gtnh_modpack self))
            <$> seq 0 (length texts)).
Proof.
  induction texts as [|text texts IH] using rev_ind; intros self Hall; cbv zeta.
  - cbn. by rewrite !app_nil_r.
  - apply Forall_app in Hall as [Hall Htext]. inversion Htext as [|? ? Htext' _]; subst.
    destruct (IH self Hall) as (Hitems & Hpack & Hsaved).
    rewrite foldl_app. cbn [foldl].
    set (s1 := foldl (λ self text, client_add (type_client text self)) self texts) in *.
    destruct (client_add_modpack (type_client text s1) Htext') as (Hp & Hi & Hs).
    change (get_listbox_content (exclusion_frame_client (type_client text s1)))
      with (get_listbox_content (exclusion_frame_client s1)) in Hp, Hi.
    change (entry (exclusion_frame_client (type_client text s1))) with text in Hi.
    change (gtnh_modpack (type_client text s1)) with (gtnh_modpack s1) in Hp.
    change (saved (type_client text s1)) with (saved s1) in Hs.
    assert (Hp' : gtnh_modpack (client_add (type_client text s1))
                  = set_client_exclusions
                      (sorted (get_listbox_content (exclusion_frame_client self) ++ texts))
                      (gtnh_modpack self)).
    { rewrite Hp, Hitems, Hpack. by destruct texts. }
    split; [by rewrite Hi, Hitems, <- app_assoc|]. split.
    + rewrite Hp', removelast_last. by destruct texts.
    + rewrite Hs, Hsaved, Hp', <- app_assoc. f_equal.
      rewrite length_app. cbn [length]. rewrite Nat.add_1_r, seq_S, fmap_app. cbn [fmap list_fmap].
      rewrite Nat.add_0_l, take_app_length. f_equal.
      apply Forall_fmap_ext_1, Forall_forall. intros k Hk%elem_of_seq.
      by rewrite take_app_le by lia.
Qed.

(** X21. A run of [add] presses on the client list of a fresh editor, each
    after typing a text that is not empty: the list box shows the sorted
    exclusions of the manifest followed by all the texts, while the
    manifest stored has the exclusions of the initial one with all the texts
    but the last, and is the one saved last. Press after press, what is
    saved is the manifest with the texts typed before that press: what was
    typed last is not saved. *)
Theorem client_adds_lag_behind m texts :
  let self' := foldl (λ self text, client_add (type_client text self))
                 (HandleFileExclusionFrame_init m) texts in
  texts ≠ [] →
  Forall (λ text, text ≠ "") texts →
  get_listbox_content (exclusion_frame_client self') = sorted (client_exclusions m) ++ texts
  ∧ client_exclusions (gtnh_modpack self') = sorted (client_exclusions m ++ removelast texts)
  ∧ length (saved self') = length texts
  ∧ gtnh_modpack self'
    = set_client_exclusions (sorted (client_exclusions m ++ removelast texts)) m
  ∧ saved self'
    = (λ k, set_client_exclusions (sorted (client_exclusions m ++ take k texts)) m)
        <$> seq 0 (length texts)
  ∧ last (saved self') = Some (gtnh_modpack self').
Proof.
  intros self' Hne Hall. subst self'.
  destruct (client_adds_run texts (HandleFileExclusionFrame_init m) Hall)
    as (Hitems & Hpack & Hsaved).
  change (get_listbox_content (exclusion_frame_client (HandleFileExclusionFrame_init m)))
    with (sorted (client_exclusions m)) in Hitems, Hpack, Hsaved.
  change (gtnh_modpack (HandleFileExclusionFrame_init m)) with m in Hpack, Hsaved.
  change (saved (HandleFileExclusionFrame_init m)) with (@nil GTNHModpack) in Hsaved.
  rewrite app_nil_l in Hsaved.
  assert (Hpack' : gtnh_modpack
            (foldl (λ self text, client_add (type_client text self))
               (HandleFileExclusionFrame_init m) texts)
          = set_client_exclusions (sorted (client_exclusions m ++ removelast texts)) m).
  { rewrite Hpack. destruct texts; [done|]. by rewrite sorted_sorted_app. }
  assert (Hsaved' : saved
            (foldl (λ self text, client_add (type_client text self))
               (HandleFileExclusionFrame_init m) texts)
          = (λ k, set_client_exclusions (sorted (client_exclusions m ++ take k texts)) m)
              <$> seq 0 (length texts)).
  { rewrite Hsaved. apply Forall_fmap_ext_1, Forall_forall. intros k _.
    by rewrite sorted_sorted_app. }
  split; [exact Hitems|]. split; [by rewrite Hpack'|].
  split; [by rewrite Hsaved', length_fmap, length_seq|].
  split; [exact Hpack'|]. split; [exact Hsaved'|].
  rewrite Hsaved', Hpack'.
  destruct texts as [|t ts _] using rev_ind; [done|].
  rewrite length_app. cbn [length].
  rewrite Nat.add_1_r, seq_S, fmap_app, list_fmap_singleton, last_snoc.
  by rewrite Nat.add_0_l, take_app_length, removelast_last.
Qed.

(** X22. The server list of the editor behaves like the client list, on the
    server exclusions: [add] appends the text to the list box and stores the
    sorted previous content (with the text only when it is empty), [remove]
    stores the sorted previous content with an empty string added and then
    drops the selected item. Neither touches the client side. *)
Theorem server_buttons_mirror self :
  let text := entry (exclusion_frame_server self) in
  let before := get_listbox_content (exclusion_frame_server self) in
  (get_listbox_content (exclusion_frame_server (server_add self)) = before ++ [text]
   ∧ server_exclusions (gtnh_modpack (server_add self))
     = sorted (if String.eqb text "" then before ++ [""] else before)
   ∧ client_exclusions (gtnh_modpack (server_add self)) = client_exclusions (gtnh_modpack self)
   ∧ exclusion_frame_client (server_add self) = exclusion_frame_client self)
  ∧ match curselection (listbox (exclusion_frame_server self)) with
    | None => server_remove self = self
    | Some index =>
        get_listbox_content (exclusion_frame_server (server_remove self)) = delete index before
        ∧ server_exclusions (gtnh_modpack (server_remove self)) = sorted (before ++ [""])
        ∧ client_exclusions (gtnh_modpack (server_remove self))
          = client_exclusions (gtnh_modpack self)
        ∧ exclusion_frame_client (server_remove self) = exclusion_frame_client self
    end.
Proof.
  intros text before. split.
  - unfold server_add, add, add_server, save. cbn [String.eqb Ascii.eqb Bool.eqb]. fold text.
    destruct (String.eqb_spec text "") as [Heq|Hne]; cbn; [|done].
    split; [reflexivity|]. split; [|done]. by rewrite Heq.
  - unfold server_remove, remove.
    destruct (curselection (listbox (exclusion_frame_server self))) as [index|];
      [|reflexivity].
    unfold del_server, save. cbn. done.
Qed.


End gui_frames_facts.

(** ** The curse mods frame *)

Module gui_curse_facts.
Import gui gui_frames gui_curse gui_frames_facts.

Section facts.

Variable ModInfo_new : Fields → option ModInfo.
Variable load_gtnh_manifest : list (list ModInfo) → list ModInfo.

(** X23. [add/update] with values the mod constructor accepts: the list
    handed to [save_gtnh_manifest] holds the new mod last and no other mod
    of its name, the mods of other names being kept in their order; and the
    list box is refreshed to the names it had and the mod's name, each once,
    in ascending order, with nothing selected. *)
Theorem curse_add_replaces_and_sorts self new_mod :
  let self' := add ModInfo_new load_gtnh_manifest self in
  let shown_names := items (listbox (custom_label_frame self')) in
  ModInfo_new (fields self) = Some new_mod →
  (∃ written,
     saved self' = saved self ++ [written]
     ∧ written = filter (λ mod_, name mod_ ≠ name new_mod) (external_mods self) ++ [new_mod]
     ∧ filter (λ mod_, name mod_ = name new_mod) written = [new_mod]
     ∧ external_mods self' = load_gtnh_manifest (saved self'))
  ∧ (∀ x, x ∈ shown_names
          ↔ x ∈ get_listbox_content (custom_label_frame self) ∨ x = name new_mod)
  ∧ NoDup shown_names
  ∧ StronglySorted str_le shown_names
  ∧ curselection (listbox (custom_label_frame self')) = None.
Proof.
  intros self' shown_names Hnew. subst shown_names self'. unfold add. rewrite Hnew. cbn.
  split; [|split; [|split; [|split]]].
  - eexists. split; [reflexivity|]. split; [reflexivity|]. split; [|reflexivity].
    rewrite filter_app, filter_cons_True, filter_nil by done.
    assert (filter (λ mod_, name mod_ = name new_mod)
              (filter (λ mod_, name mod_ ≠ name new_mod) (external_mods self)) = []) as ->;
      [|reflexivity].
    induction (external_mods self) as [|m ms IH]; [reflexivity|].
    destruct (decide (name m = name new_mod)) as [Heq|Hne].
    + by rewrite (filter_cons_False (λ mod_, name mod_ ≠ name new_mod)) by (by intros ?).
    + rewrite (filter_cons_True (λ mod_, name mod_ ≠ name new_mod)) by done.
      by rewrite filter_cons_False.
  - intros x. rewrite sorted_elem_of, elem_of_elements, elem_of_list_to_set, elem_of_app.
    by rewrite list_elem_of_singleton.
  - rewrite sorted_Permutation. apply NoDup_elements.
  - apply sorted_StronglySorted.
  - reflexivity.
Qed.

End facts.

End gui_curse_facts.

(** ** The further statements on the small inputs *)

Module witnesses_more.
Import multi_poly pathlib_more gui spec spec_more gui_spec examples examples_more.
Import gui_crawl gui_frames gui_curse.
Import multi_poly_more archive_paths gui_packs gui_downloads gui_crawl_facts.
Import gui_frames_facts gui_curse_facts.

Lemma add_mods_copies_cached_files_witness :
  fs world_mods
  = <["out.zip" := Archive ([] ++ mod_members (assembler0 (Some quiet)) (fs world_open)
                                    (cached cache0 [(mod_A, v1); (mod_B, v2)]))]> (fs world_open)
  ∧ length (mod_members (assembler0 (Some quiet)) (fs world_open)
              (cached cache0 [(mod_A, v1); (mod_B, v2)])) = 2
  ∧ stdout world_mods
    = stdout world_open
      ++ mod_lines (assembler0 (Some quiet)) (cached cache0 [(mod_A, v1); (mod_B, v2)]).
Proof.
  apply (add_mods_copies_cached_files cache0 (assembler0 (Some quiet)) CLIENT
           [(mod_A, v1); (mod_B, v2)] "out.zip" [] world_open world_mods).
  - vm_compute. reflexivity.
  - repeat constructor; vm_compute; discriminate.
  - vm_compute. reflexivity.
Defined.

Lemma add_mods_missing_file_witness :
  ∃ w' written,
    add_mods cache0 (assembler0 (Some quiet)) CLIENT ([(mod_A, v1)] ++ (mod_B, v2) :: [])
      "out.zip" world_missing
    = (Raise (FileNotFoundError (pathlib.str (pathlib.PurePath "cache/mods/B/B-v2.jar"))), w')
    ∧ fs w' = <["out.zip" := Archive ([] ++ written)]> (fs world_missing)
    ∧ written.*1 = mod_member_name (assembler0 (Some quiet)) <$> cached cache0 [(mod_A, v1)]
    ∧ calls w'
      = calls world_missing
        ++ reports (assembler0 (Some quiet)) CLIENT
             (cached cache0 [(mod_A, v1)] ++ ["cache/mods/B/B-v2.jar"]).
Proof.
  apply (add_mods_missing_file cache0 (assembler0 (Some quiet)) quiet CLIENT
           [(mod_A, v1)] mod_B v2 [] "cache/mods/B/B-v2.jar" "out.zip" [] world_missing).
  - reflexivity.
  - vm_compute. reflexivity.
  - repeat constructor. vm_compute. by eexists.
  - repeat constructor. vm_compute. by eexists.
  - reflexivity.
  - vm_compute. reflexivity.
  - vm_compute. reflexivity.
Defined.

Lemma add_config_bad_bundle_witness :
  add_config cache0 (assembler0 (Some quiet)) CLIENT (config0, v3) "out.zip" world_bad_bundle
  = (Raise (match fs world_bad_bundle !! pathlib.str (pathlib.PurePath "cache/config/config.zip") with
            | None => FileNotFoundError (pathlib.str (pathlib.PurePath "cache/config/config.zip"))
            | Some _ => BadZipFile (pathlib.str (pathlib.PurePath "cache/config/config.zip"))
            end), world_bad_bundle).
Proof.
  apply (add_config_bad_bundle cache0 (assembler0 (Some quiet)) CLIENT config0 v3 "out.zip"
           "cache/config/config.zip" world_bad_bundle).
  - reflexivity.
  - intros config_zip. vm_compute. discriminate.
Defined.

Lemma add_mmc_meta_data_appends_witness :
  ∃ w1 w2,
    add_mmc_meta_data RELEASE_MMC_DIR0 MMC_PACK_JSON0 (assembler0 (Some quiet)) CLIENT
      (base0 (assembler0 (Some quiet)) CLIENT world0).2 = (Ok tt, w1)
    ∧ fs w1 = <[archive0 := Archive (members0 ++ [meta_member MMC_PACK_JSON0
                                                  (assembler0 (Some quiet))])]>
                (fs (base0 (assembler0 (Some quiet)) CLIENT world0).2)
    ∧ add_mmc_meta_data RELEASE_MMC_DIR0 MMC_PACK_JSON0 (assembler0 (Some quiet)) CLIENT w1
      = (Ok tt, w2)
    ∧ fs w2 = <[archive0 := Archive (members0 ++ [meta_member MMC_PACK_JSON0
                                                    (assembler0 (Some quiet));
                                                  meta_member MMC_PACK_JSON0
                                                    (assembler0 (Some quiet))])]>
                (fs (base0 (assembler0 (Some quiet)) CLIENT world0).2)
    ∧ calls w2 = calls (base0 (assembler0 (Some quiet)) CLIENT world0).2
    ∧ stdout w2 = stdout (base0 (assembler0 (Some quiet)) CLIENT world0).2.
Proof.
  apply (add_mmc_meta_data_appends RELEASE_MMC_DIR0 MMC_PACK_JSON0 (assembler0 (Some quiet))
           CLIENT (base0 (assembler0 (Some quiet)) CLIENT world0).2).
  vm_compute. by eexists.
Defined.

Lemma mmc_archive_path_witness :
  relative_to (get_archive_path RELEASE_MMC_DIR0 (assembler0 None) CLIENT) RELEASE_MMC_DIR0
  = mret {| pathlib.root := "";
            pathlib.parts := ["GT New Horizons " +:+ "2.1.2.3" +:+ " (MMC).zip"] |}
  ∧ (∀ side', get_archive_path RELEASE_MMC_DIR0 (assembler0 None) side'
              = get_archive_path RELEASE_MMC_DIR0 (assembler0 None) CLIENT)
  ∧ (∀ self' side',
       has_sep (version (release self')) = false →
       version (release self') ≠ "2.1.2.3" →
       pathlib.str (get_archive_path RELEASE_MMC_DIR0 self' side')
       ≠ pathlib.str (get_archive_path RELEASE_MMC_DIR0 (assembler0 None) CLIENT)).
Proof.
  apply (mmc_archive_path RELEASE_MMC_DIR0 (assembler0 None) CLIENT). reflexivity.
Defined.

Lemma modrinth_archive_path_witness :
  relative_to (modrinth.get_archive_path RELEASE_MODRINTH_DIR0 (assembler0 None) SERVER)
    RELEASE_MODRINTH_DIR0
  = mret {| pathlib.root := "";
            pathlib.parts := ["GTNewHorizons-" +:+ Side_str SERVER +:+ "-"
                              +:+ "2.1.2.3" +:+ ".zip"] |}
  ∧ (∀ self' side',
       has_sep (version (release self')) = false →
       pathlib.str (modrinth.get_archive_path RELEASE_MODRINTH_DIR0 self' side')
       = pathlib.str (modrinth.get_archive_path RELEASE_MODRINTH_DIR0 (assembler0 None) SERVER) →
       side' = SERVER ∧ version (release self') = "2.1.2.3").
Proof.
  apply (modrinth_archive_path RELEASE_MODRINTH_DIR0 (assembler0 None) SERVER). reflexivity.
Defined.

Lemma pack_clientpack_packs_witness :
  ∃ w',
    pack_clientpack cache_dir0 client_paths0 "2.1.2.3" (Some quiet) world_staged = (Ok tt, w')
    ∧ fs w' = <["/repo/cache/client-2.1.2.3.zip" :=
                  Archive (pack_members cache_dir0 (cache_dir0 /: "client_archive")
                             (fs world_staged) client_paths0)]> (fs world_staged)
    ∧ length (pack_members cache_dir0 (cache_dir0 /: "client_archive")
                (fs world_staged) client_paths0) = 2
    ∧ calls w' = calls world_staged
                 ++ told (Some quiet) (pack_reports "client" "2.1.2.3" client_paths0)
    ∧ length (pack_reports "client" "2.1.2.3" client_paths0) = 2
    ∧ stdout w' = stdout world_staged
                  ++ ["previous client archive deleted"]
                  ++ ["zipping client archive"; "success!"].
Proof.
  apply (pack_clientpack_packs cache_dir0 client_paths0 "2.1.2.3" (Some quiet) world_staged).
  - discriminate.
  - reflexivity.
  - repeat constructor.
  - repeat constructor; vm_compute; (by eexists) || discriminate.
  - vm_compute. reflexivity.
Defined.

Lemma pack_clientpack_bad_path_witness :
  ∃ w',
    pack_clientpack cache_dir0
      ([pathlib.PurePath "/repo/cache/client_archive/mods/a.jar"] ++ foreign_path0
       :: [pathlib.PurePath "/repo/cache/client_archive/options.txt"])
      "2.1.2.3" (Some quiet) world_staged
    = (Raise (ValueError
                ("'/repo/cache/mods/c.jar' is not in the subpath of "
                 +:+ "'/repo/cache/client_archive'"
                 +:+ " OR one path is relative and the other is absolute.")), w')
    ∧ fs w' = <["/repo/cache/client-2.1.2.3.zip" :=
                  Archive [("mods/a.jar", bytes_of "jar a")]]> (fs world_staged)
    ∧ length (calls w') = 2
    ∧ stdout w' = ["previous client archive deleted"; "zipping client archive"].
Proof.
  destruct (pack_clientpack_bad_path cache_dir0
              [pathlib.PurePath "/repo/cache/client_archive/mods/a.jar"] foreign_path0
              [pathlib.PurePath "/repo/cache/client_archive/options.txt"]
              "2.1.2.3" (Some quiet) world_staged) as (w' & Hrun & Hfs & Hcalls & Hout).
  - repeat constructor.
  - repeat constructor; vm_compute; (by eexists) || discriminate.
  - left. vm_compute. intros [_ H]. discriminate H.
  - vm_compute. discriminate.
  - vm_compute. reflexivity.
  - exists w'. split; [exact Hrun|]. split; [exact Hfs|]. split; [by rewrite Hcalls|exact Hout].
Defined.

Lemma pack_clientpack_interrupted_witness :
  ∃ w',
    pack_clientpack cache_dir0
      ([pathlib.PurePath "/repo/cache/client_archive/mods/a.jar"]
       ++ pathlib.PurePath "/repo/cache/client_archive/options.txt" :: [])
      "2.1.2.3" (Some cancel_at_second) world_staged
    = (Raise (CallbackRaised "PackingInterruptException"), w')
    ∧ fs w' = <["/repo/cache/client-2.1.2.3.zip" :=
                  Archive [("mods/a.jar", bytes_of "jar a")]]> (fs world_staged)
    ∧ length (calls w') = 2
    ∧ stdout w' = ["previous client archive deleted"; "zipping client archive"].
Proof.
  destruct (pack_clientpack_interrupted cache_dir0
              [pathlib.PurePath "/repo/cache/client_archive/mods/a.jar"]
              (pathlib.PurePath "/repo/cache/client_archive/options.txt") []
              "2.1.2.3" cancel_at_second "PackingInterruptException" world_staged)
    as (w' & Hrun & Hfs & Hcalls & Hout).
  - repeat constructor.
  - repeat constructor; vm_compute; (by eexists) || discriminate.
  - vm_compute. reflexivity.
  - vm_compute. reflexivity.
  - exists w'. split; [exact Hrun|]. split; [exact Hfs|]. split; [by rewrite Hcalls|exact Hout].
Defined.

Lemma pack_serverpack_packs_witness :
  ∃ w',
    pack_serverpack cache_dir0 server_paths0 "2.1.2.3" None world_staged = (Ok tt, w')
    ∧ fs w' = <["/repo/cache/server-2.1.2.3.zip" :=
                  Archive (pack_members cache_dir0 (cache_dir0 /: "server_archive")
                             (fs world_staged) server_paths0)]> (fs world_staged)
    ∧ length (pack_members cache_dir0 (cache_dir0 /: "server_archive")
                (fs world_staged) server_paths0) = 2
    ∧ calls w' = calls world_staged
                 ++ told None (pack_reports "server" "2.1.2.3" server_paths0)
    ∧ length (pack_reports "server" "2.1.2.3" server_paths0) = 2
    ∧ stdout w' = stdout world_staged ++ [] ++ ["zipping client archive"; "success!"].
Proof.
  apply (pack_serverpack_packs cache_dir0 server_paths0 "2.1.2.3" None world_staged).
  - discriminate.
  - reflexivity.
  - repeat constructor.
  - repeat constructor; vm_compute; (by eexists) || discriminate.
  - reflexivity.
Defined.

Lemma download_mods_reports_witness :
  ∃ w',
    download_mods download_mod0 modpack0 (Some quiet) world0
    = (Ok (filter for_client (github_mods modpack0) ≫= downloaded download_mod0,
           filter for_server (github_mods modpack0) ≫= downloaded download_mod0), w')
    ∧ calls w' = calls world0 ++ told (Some quiet) (download_reports (github_mods modpack0))
    ∧ length (download_reports (github_mods modpack0)) = 4.
Proof.
  apply (download_mods_reports download_mod0 modpack0 (Some quiet) world0).
  - discriminate.
  - repeat constructor; by eexists.
  - vm_compute. reflexivity.
Defined.


Lemma staged_listing : listing (Dir staged).
Proof.
  unfold staged. cbn [listing snd].
  repeat split; apply (bool_decide_unpack _); vm_compute; reflexivity.
Qed.

Lemma crawl_no_duplicates_witness :
  NoDup (crawl (cache_dir0 /: "client_archive") staged)
  ∧ length (elements (list_to_set (crawl (cache_dir0 /: "client_archive") staged) : gset Path))
    = length (crawl (cache_dir0 /: "client_archive") staged).
Proof. apply (crawl_no_duplicates (cache_dir0 /: "client_archive") staged staged_listing). Defined.

Lemma crawl_pack_names_witness :
  Forall (under (cache_dir0 /: "client_archive")) (crawl (cache_dir0 /: "client_archive") staged)
  ∧ (∀ p, p ∈ crawl (cache_dir0 /: "client_archive") staged →
          ∃ names, file_at names staged
                   ∧ pack_name (cache_dir0 /: "client_archive") p = pathlib.join names)
  ∧ NoDup (pack_name (cache_dir0 /: "client_archive")
             <$> crawl (cache_dir0 /: "client_archive") staged).
Proof. apply (crawl_pack_names (cache_dir0 /: "client_archive") staged staged_listing). Defined.

Lemma client_add_saves_previous_content_witness :
  get_listbox_content (exclusion_frame_client (client_add editor0)) = ["sub/b.cfg"] ++ ["mods/x.jar"]
  ∧ client_exclusions (gtnh_modpack (client_add editor0)) = sorted ["sub/b.cfg"]
  ∧ ("mods/x.jar" ∈ client_exclusions (gtnh_modpack (client_add editor0))
     ↔ "mods/x.jar" ∈ ["sub/b.cfg"])
  ∧ gui_frames.saved (client_add editor0)
    = gui_frames.saved editor0 ++ [gtnh_modpack (client_add editor0)]
  ∧ server_exclusions (gtnh_modpack (client_add editor0))
    = server_exclusions (gtnh_modpack editor0)
  ∧ exclusion_frame_server (client_add editor0) = exclusion_frame_server editor0.
Proof. apply (client_add_saves_previous_content editor0). discriminate. Defined.

Lemma client_adds_lag_behind_witness :
  get_listbox_content
    (exclusion_frame_client
       (foldl (λ self text, client_add (type_client text self))
          (HandleFileExclusionFrame_init modpack0) ["mods/x.jar"; "mods/y.jar"]))
  = sorted (client_exclusions modpack0) ++ ["mods/x.jar"; "mods/y.jar"]
  ∧ client_exclusions
      (gtnh_modpack
         (foldl (λ self text, client_add (type_client text self))
            (HandleFileExclusionFrame_init modpack0) ["mods/x.jar"; "mods/y.jar"]))
    = sorted (client_exclusions modpack0 ++ removelast ["mods/x.jar"; "mods/y.jar"])
  ∧ length
      (gui_frames.saved
         (foldl (λ self text, client_add (type_client text self))
            (HandleFileExclusionFrame_init modpack0) ["mods/x.jar"; "mods/y.jar"])) = 2
  ∧ gtnh_modpack
      (foldl (λ self text, client_add (type_client text self))
         (HandleFileExclusionFrame_init modpack0) ["mods/x.jar"; "mods/y.jar"])
    = set_client_exclusions (sorted (client_exclusions modpack0 ++ ["mods/x.jar"])) modpack0
  ∧ gui_frames.saved
      (foldl (λ self text, client_add (type_client text self))
         (HandleFileExclusionFrame_init modpack0) ["mods/x.jar"; "mods/y.jar"])
    = [set_client_exclusions (sorted (client_exclusions modpack0 ++ [])) modpack0;
       set_client_exclusions (sorted (client_exclusions modpack0 ++ ["mods/x.jar"])) modpack0]
  ∧ last
      (gui_frames.saved
         (foldl (λ self text, client_add (type_client text self))
            (HandleFileExclusionFrame_init modpack0) ["mods/x.jar"; "mods/y.jar"]))
    = Some
        (gtnh_modpack
           (foldl (λ self text, client_add (type_client text self))
              (HandleFileExclusionFrame_init modpack0) ["mods/x.jar"; "mods/y.jar"])).
Proof.
  apply (client_adds_lag_behind modpack0 ["mods/x.jar"; "mods/y.jar"]).
  - discriminate.
  - repeat constructor; discriminate.
Defined.

Lemma curse_add_replaces_and_sorts_witness :
  (∃ written,
     gui_curse.saved (gui_curse.add ModInfo_new0 load_gtnh_manifest0 curse_frame0)
     = gui_curse.saved curse_frame0 ++ [written]
     ∧ written = filter (λ mod_, name mod_ ≠ "Forestry") (external_mods curse_frame0)
                 ++ [ {| name := "Forestry"; side := "BOTH" |} ]
     ∧ filter (λ mod_, name mod_ = "Forestry") written
       = [ {| name := "Forestry"; side := "BOTH" |} ]
     ∧ external_mods (gui_curse.add ModInfo_new0 load_gtnh_manifest0 curse_frame0)
       = load_gtnh_manifest0
           (gui_curse.saved (gui_curse.add ModInfo_new0 load_gtnh_manifest0 curse_frame0)))
  ∧ (∀ x, x ∈ items (listbox (custom_label_frame
                                (gui_curse.add ModInfo_new0 load_gtnh_manifest0 curse_frame0)))
          ↔ x ∈ get_listbox_content (custom_label_frame curse_frame0) ∨ x = "Forestry")
  ∧ NoDup (items (listbox (custom_label_frame
                             (gui_curse.add ModInfo_new0 load_gtnh_manifest0 curse_frame0))))
  ∧ StronglySorted str_le
      (items (listbox (custom_label_frame
                         (gui_curse.add ModInfo_new0 load_gtnh_manifest0 curse_frame0))))
  ∧ curselection (listbox (custom_label_frame
                             (gui_curse.add ModInfo_new0 load_gtnh_manifest0 curse_frame0)))
    = None.
Proof.
  apply (curse_add_replaces_and_sorts ModInfo_new0 load_gtnh_manifest0 curse_frame0
           {| name := "Forestry"; side := "BOTH" |}).
  reflexivity.
Defined.


End witnesses_more.

(** ** The config entries of an archive, side by side *)

Module config_entries_facts.
Import multi_poly pathlib_more gui spec spec_config gui_crawl examples examples_more.
Import py_facts pathlib_facts zipfile_facts multi_poly_facts gui_crawl_facts.

Section facts.

Variable cache : asset → GTNHVersion → option string.






End facts.



End config_entries_facts.
